(** * responses2chat: the protocol translator, embedded from its Go source

    The development follows the packages of the repository:
    - [Models]    : internal/models (wire records of both protocols);
    - [Converter] : internal/converter (request, response and stream
                    translation);
    - [WebSearch] : internal/handler/websearch.go (the tool loop);
    - [MCP]       : the session-RPC search provider.

    Go strings are byte strings and are modelled by [string]; Go [int] is
    the 64-bit two's complement integer of the supported targets and is
    modelled by [Z], with the wrap-around written out where the code can
    reach it. *)

From Stdlib Require Import ZArith String Ascii List Bool Lia Permutation.
From Stdlib Require Import DecimalString.
From stdpp Require Import base gmap strings list fin_maps.
Import ListNotations.

Set Warnings "-register-all".

Local Open Scope string_scope.
Local Open Scope Z_scope.
Local Open Scope list_scope.

(** ** Strings *)

(** The double quote character, for JSON texts. *)
Definition dq : string := String "034"%char EmptyString.

(** A string between double quotes. *)
Definition q (s : string) : string := dq +:+ s +:+ dq.

(** [strings.HasPrefix]. *)
Definition HasPrefix (s p : string) : bool := String.prefix p s.

(** [strings.TrimPrefix]: [s] without the leading [p], or [s] itself. *)
Definition TrimPrefix (s p : string) : string :=
  if HasPrefix s p
  then String.substring (String.length p) (String.length s - String.length p) s
  else s.

(** [strings.Contains]: [sub] occurs in [s]. *)
Fixpoint Contains (s sub : string) : bool :=
  if String.prefix sub s then true
  else match s with
       | EmptyString => false
       | String _ rest => Contains rest sub
       end.

(** The line feed. *)
Definition nl : string := String "010"%char EmptyString.

(** [%d] of [fmt.Sprintf] for an [int]. *)
Definition itoa (z : Z) : string := NilZero.string_of_int (Z.to_int z).

(** ** internal/models *)

Module Models.

(** A decoded JSON document, for the fields the Go code keeps as
    [interface{}] or [map[string]interface{}]. *)
Inductive JSON : Type :=
| JNull
| JBool (b : bool)
| JNum (z : Z)
| JStr (s : string)
| JArr (items : list JSON)
| JObj (fields : list (string * JSON)).

Fixpoint json_field (k : string) (fields : list (string * JSON)) : option JSON :=
  match fields with
  | [] => None
  | (k', v) :: rest => if String.eqb k k' then Some v else json_field k rest
  end.

Record ContentItem := mkContentItem {
  ci_Type : string;
  ci_Text : string;
  ci_ImageURL : string;
  ci_Data : string }.

Record FunctionDef := mkFunctionDef {
  fd_Name : string;
  fd_Description : string;
  fd_Parameters : option (list (string * JSON));
  fd_Strict : option bool }.

Record Tool := mkTool {
  tool_Type : string;
  tool_Function : FunctionDef }.

Record InputItem := mkInputItem {
  in_Type : string;
  in_ID : string;
  in_Role : string;
  in_Content : list ContentItem;
  in_CallID : string;
  in_Name : string;
  in_Arguments : string;
  in_Output : string;
  in_Status : string }.

(** [Temperature *float64] is only carried over by the translator; the
    float is kept as its IEEE-754 bit pattern, [None] being the nil
    pointer. *)
Record ResponsesRequest := mkResponsesRequest {
  rq_Model : string;
  rq_Instructions : string;
  rq_Input : list InputItem;
  rq_Tools : list Tool;
  rq_Stream : bool;
  rq_Temperature : option Z;
  rq_MaxTokens : Z;
  rq_PreviousResponseID : string }.

Record OutputItem := mkOutputItem {
  oi_Type : string;
  oi_ID : string;
  oi_Role : string;
  oi_Content : list ContentItem;
  oi_CallID : string;
  oi_Name : string;
  oi_Arguments : string;
  oi_Status : string }.

Record UsageInfo := mkUsageInfo {
  us_InputTokens : Z;
  us_OutputTokens : Z;
  us_TotalTokens : Z }.

Record ResponsesResponse := mkResponsesResponse {
  rr_ID : string;
  rr_Object : string;
  rr_CreatedAt : Z;
  rr_Status : string;
  rr_Model : string;
  rr_Output : list OutputItem;
  rr_Usage : UsageInfo }.

Record ChatContentPart := mkChatContentPart {
  cp_Type : string;
  cp_Text : string;
  cp_ImageURL : string }.

Record ToolCall := mkToolCall {
  tc_ID : string;
  tc_Type : string;
  tc_Name : string;
  tc_Arguments : string }.

(** [ChatMessage.Content] is an [interface{}]: nil, a string, a part list,
    or whatever a JSON decoder left there. *)
Inductive MessageContent : Type :=
| ContentNil
| ContentString (s : string)
| ContentParts (ps : list ChatContentPart)
| ContentOther (j : JSON).

Record ChatMessage := mkChatMessage {
  cm_Role : string;
  cm_Content : MessageContent;
  cm_Name : string;
  cm_ToolCalls : list ToolCall;
  cm_ToolCallID : string }.

Record ChatTool := mkChatTool {
  ct_Type : string;
  ct_Function : FunctionDef }.

Record ChatCompletionRequest := mkChatCompletionRequest {
  cr_Model : string;
  cr_Messages : list ChatMessage;
  cr_Tools : list ChatTool;
  cr_Stream : bool;
  cr_Temperature : option Z;
  cr_MaxTokens : Z }.

Record ChatChoice := mkChatChoice {
  cc_Index : Z;
  cc_Message : ChatMessage;
  cc_FinishReason : string }.

Record ChatUsage := mkChatUsage {
  cu_PromptTokens : Z;
  cu_CompletionTokens : Z;
  cu_TotalTokens : Z }.

Record ChatCompletionResponse := mkChatCompletionResponse {
  rs_ID : string;
  rs_Object : string;
  rs_Created : Z;
  rs_Model : string;
  rs_Choices : list ChatChoice;
  rs_Usage : ChatUsage }.

Record ChatDelta := mkChatDelta {
  dl_Role : string;
  dl_Content : string;
  dl_ToolCalls : list ToolCall }.

Record ChatChunkChoice := mkChatChunkChoice {
  ck_Index : Z;
  ck_Delta : ChatDelta;
  ck_FinishReason : string }.

Record SearchResult := mkSearchResult {
  sres_Title : string;
  sres_URL : string;
  sres_Content : string;
  sres_Snippet : string }.

Record SearchProviderResult := mkSearchProviderResult {
  spr_Query : string;
  spr_Results : list SearchResult;
  spr_Error : string }.

Record ChatCompletionChunk := mkChatCompletionChunk {
  ch_ID : string;
  ch_Object : string;
  ch_Created : Z;
  ch_Model : string;
  ch_Choices : list ChatChunkChoice }.

(** The zero value of [UsageInfo]. *)
Definition zeroUsageInfo : UsageInfo := mkUsageInfo 0 0 0.

End Models.

(** ** pkg/logger *)

Module Logger.

Inductive LogLevel : Type := LevelDebug | LevelInfo | LevelWarn | LevelError.

(** A log record: level and message; the structured fields are left out. *)
Record LogEntry := mkLogEntry {
  lg_Level : LogLevel;
  lg_Msg : string }.

End Logger.

(** A Go result [(value, error)] of which exactly one side is set; the
    error is kept as its text. *)
Inductive result (A : Type) : Type :=
| Ok (a : A)
| Err (e : string).
Arguments Ok {A} a.
Arguments Err {A} e.

(** ** internal/converter: request and response translation *)

Module Converter.
Import Models.

(** [WebSearchFunctionTool]: the injected web_search function tool. *)
Definition WebSearchFunctionTool : ChatTool :=
  mkChatTool "function"
    (mkFunctionDef "web_search"
       "搜索互联网获取实时信息，如新闻、天气、股价等。当用户询问实时信息时使用此工具。"
       (Some [ ("type", JStr "object");
               ("properties",
                JObj [ ("query",
                        JObj [ ("type", JStr "string");
                               ("description", JStr "搜索关键词或问题") ]) ]);
               ("required", JArr [ JStr "query" ]) ])
       None).

(** [convertMessageItem]: the loop over the parts of a multimodal
    content, which skips unknown part types. *)
Definition convertContentPart (parts : list ChatContentPart) (c : ContentItem)
  : list ChatContentPart :=
  if String.eqb (ci_Type c) "input_text" then
    parts ++ [ mkChatContentPart "text" (ci_Text c) EmptyString ]
  else if String.eqb (ci_Type c) "input_image" then
    let url := ci_ImageURL c in
    let url := if String.eqb (ci_ImageURL c) EmptyString
                  && negb (String.eqb (ci_Data c) EmptyString)
               then ci_Data c else url in
    parts ++ [ mkChatContentPart "image_url" EmptyString url ]
  else parts.

Definition convertMessageContent (content : list ContentItem) : MessageContent :=
  match content with
  | [] => ContentNil
  | c :: _ =>
      if (length content =? 1)%nat && String.eqb (ci_Type c) "input_text" then
        ContentString (ci_Text c)
      else
        let parts := fold_left convertContentPart content [] in
        match parts with
        | [] => ContentNil
        | [ p ] => if String.eqb (cp_Type p) "text"
                   then ContentString (cp_Text p) else ContentParts parts
        | _ => ContentParts parts
        end
  end.

Definition convertMessageItem (item : InputItem) (supportsDeveloperRole : bool)
  : option ChatMessage :=
  if String.eqb (in_Role item) EmptyString then None
  else
    let role := in_Role item in
    let role := if String.eqb role "developer" && negb supportsDeveloperRole
                then "user" else role in
    Some (mkChatMessage role (convertMessageContent (in_Content item))
            EmptyString [] EmptyString).

Definition convertFunctionCallItem (item : InputItem) : option ChatMessage :=
  Some (mkChatMessage "assistant" ContentNil EmptyString
          [ mkToolCall (in_CallID item) "function" (in_Name item) (in_Arguments item) ]
          EmptyString).

Definition convertFunctionCallOutputItem (item : InputItem) : option ChatMessage :=
  Some (mkChatMessage "tool" (ContentString (in_Output item)) EmptyString []
          (in_CallID item)).

(** [convertInputItemToMessage]; [None] is the nil message. *)
Definition convertInputItemToMessage (item : InputItem) (supportsDeveloperRole : bool)
  : option ChatMessage :=
  if String.eqb (in_Type item) "message" then
    convertMessageItem item supportsDeveloperRole
  else if String.eqb (in_Type item) "function_call" then
    convertFunctionCallItem item
  else if String.eqb (in_Type item) "function_call_output" then
    convertFunctionCallOutputItem item
  else None.

(** The scan of the assembled messages for one of role system. *)
Definition hasSystemMsg (messages : list ChatMessage) : bool :=
  existsb (fun m => String.eqb (cm_Role m) "system") messages.

(** One round of the loop over [req.Input]. *)
Definition appendInputItem (supportsDeveloperRole : bool)
  (messages : list ChatMessage) (item : InputItem) : list ChatMessage :=
  match convertInputItemToMessage item supportsDeveloperRole with
  | Some msg => messages ++ [ msg ]
  | None => messages
  end.

(** One round of the loop over [req.Tools]; the state is [chatReq.Tools]
    and [hasWebSearchTool]. *)
Definition appendTool (acc : list ChatTool * bool) (tool : Tool)
  : list ChatTool * bool :=
  let '(tools, hasWebSearchTool) := acc in
  if String.eqb (tool_Type tool) "web_search" then
    (tools ++ [ WebSearchFunctionTool ], true)
  else if String.eqb (tool_Type tool) "function"
          && negb (String.eqb (fd_Name (tool_Function tool)) EmptyString) then
    (tools ++ [ mkChatTool (tool_Type tool) (tool_Function tool) ], hasWebSearchTool)
  else (tools, hasWebSearchTool).

(** [ConvertRequest] of the four-argument converter. *)
Definition ConvertRequest (req : ResponsesRequest)
  (modelMapping : gmap string string) (history : list ChatMessage)
  (supportsDeveloperRole : bool) : ChatCompletionRequest * bool :=
  let model := match modelMapping !! rq_Model req with
               | Some mapped => mapped
               | None => rq_Model req
               end in
  let messages := history in
  let messages :=
    if negb (String.eqb (rq_Instructions req) EmptyString) then
      if negb (hasSystemMsg messages) then
        mkChatMessage "system" (ContentString (rq_Instructions req))
                      EmptyString [] EmptyString :: messages
      else messages
    else messages in
  let messages := fold_left (appendInputItem supportsDeveloperRole)
                            (rq_Input req) messages in
  let '(tools, hasWebSearchTool) := fold_left appendTool (rq_Tools req) ([], false) in
  (mkChatCompletionRequest model messages tools (rq_Stream req)
     (rq_Temperature req)
     (if 0 <? rq_MaxTokens req then rq_MaxTokens req else 0),
   hasWebSearchTool).

(** One round of the loop over the tool calls of the first choice. *)
Definition appendToolItem (requestID : string) (output : list OutputItem)
  (tc : ToolCall) : list OutputItem :=
  output ++ [ mkOutputItem "function_call" ("fc-" +:+ requestID) EmptyString []
                (tc_ID tc) (tc_Name tc) (tc_Arguments tc) "completed" ].

(** [ConvertResponse]. *)
Definition ConvertResponse (resp : ChatCompletionResponse) (requestID : string)
  : ResponsesResponse :=
  let output :=
    match rs_Choices resp with
    | [] => []
    | choice :: _ =>
        let content :=
          match cm_Content (cc_Message choice) with
          | ContentString v =>
              if negb (String.eqb v EmptyString)
              then [ mkContentItem "output_text" v EmptyString EmptyString ]
              else []
          | _ => []
          end in
        let outputItem :=
          mkOutputItem "message" ("msg-" +:+ requestID)
            (cm_Role (cc_Message choice)) content
            EmptyString EmptyString EmptyString EmptyString in
        fold_left (appendToolItem requestID)
                  (cm_ToolCalls (cc_Message choice)) [] ++ [ outputItem ]
    end in
  let usage :=
    if 0 <? cu_TotalTokens (rs_Usage resp)
    then mkUsageInfo (cu_PromptTokens (rs_Usage resp))
                     (cu_CompletionTokens (rs_Usage resp))
                     (cu_TotalTokens (rs_Usage resp))
    else zeroUsageInfo in
  mkResponsesResponse ("resp-" +:+ requestID) "response" (rs_Created resp)
    "completed" (rs_Model resp) output usage.

(** *** What the translation is expected to produce, in the words of the
    design *)

(** The system message built from the instructions. *)
Definition systemMessage (instructions : string) : ChatMessage :=
  mkChatMessage "system" (ContentString instructions) EmptyString [] EmptyString.

(** The new input items translated in order, nil results left out. *)
Definition inputMessages (supportsDeveloperRole : bool) (input : list InputItem)
  : list ChatMessage :=
  omap (fun item => convertInputItemToMessage item supportsDeveloperRole) input.

(** The fate of one tool declaration: a function with a name passes, the
    search capability is replaced by the injected function tool, anything
    else is dropped. *)
Definition declaredTool (tool : Tool) : option ChatTool :=
  if decide (tool_Type tool = "web_search") then Some WebSearchFunctionTool
  else if decide (tool_Type tool = "function"
                  /\ fd_Name (tool_Function tool) <> EmptyString)
       then Some (mkChatTool "function" (tool_Function tool))
       else None.

(** The function_call output item of one tool call of a response. *)
Definition functionCallItem (requestID : string) (tc : ToolCall) : OutputItem :=
  mkOutputItem "function_call" ("fc-" +:+ requestID) EmptyString []
    (tc_ID tc) (tc_Name tc) (tc_Arguments tc) "completed".

(** *** Loops as list functions *)

Lemma fold_appendInputItem dev input acc :
  fold_left (appendInputItem dev) input acc = acc ++ inputMessages dev input.
Proof.
  revert acc. induction input as [|item input IH]; intros acc; simpl.
  - now rewrite app_nil_r.
  - rewrite IH. unfold appendInputItem, inputMessages. simpl.
    destruct (convertInputItemToMessage item dev); simpl.
    + now rewrite <- app_assoc.
    + reflexivity.
Qed.

Lemma eqb_string_decide (a b : string) :
  String.eqb a b = bool_decide (a = b).
Proof.
  destruct (String.eqb_spec a b) as [E|E].
  - symmetry. now apply bool_decide_eq_true.
  - symmetry. now apply bool_decide_eq_false.
Qed.

Lemma appendTool_declaredTool tools flag tool :
  fst (appendTool (tools, flag) tool)
  = tools ++ match declaredTool tool with Some t => [ t ] | None => [] end.
Proof.
  unfold appendTool, declaredTool.
  destruct (String.eqb_spec (tool_Type tool) "web_search") as [E|E].
  - rewrite decide_True by assumption. reflexivity.
  - rewrite (decide_False _ _ E) by assumption.
    destruct (String.eqb_spec (tool_Type tool) "function") as [F|F]; simpl.
    + destruct (String.eqb_spec (fd_Name (tool_Function tool)) EmptyString) as [N|N];
        simpl.
      * rewrite decide_False by tauto. now rewrite app_nil_r.
      * rewrite decide_True by tauto. now rewrite F.
    + rewrite decide_False by tauto. now rewrite app_nil_r.
Qed.

Lemma fold_appendTool tools0 acc :
  fst (fold_left appendTool tools0 acc) = fst acc ++ omap declaredTool tools0.
Proof.
  revert acc. induction tools0 as [|tool tools0 IH]; intros [tools flag].
  - simpl. now rewrite app_nil_r.
  - change (fold_left appendTool (tool :: tools0) (tools, flag))
      with (fold_left appendTool tools0 (appendTool (tools, flag) tool)).
    rewrite IH, appendTool_declaredTool. cbn [fst omap].
    destruct (declaredTool tool) eqn:E; simpl; rewrite E.
    + rewrite <- app_assoc. reflexivity.
    + rewrite app_nil_r. reflexivity.
Qed.

Lemma fold_appendToolItem requestID tcs acc :
  fold_left (appendToolItem requestID) tcs acc
  = acc ++ map (functionCallItem requestID) tcs.
Proof.
  revert acc. induction tcs as [|tc tcs IH]; intros acc; simpl.
  - now rewrite app_nil_r.
  - rewrite IH. unfold appendToolItem, functionCallItem.
    now rewrite <- app_assoc.
Qed.

Lemma hasSystemMsg_false history :
  hasSystemMsg history = false <->
  Forall (fun m => cm_Role m <> "system") history.
Proof.
  unfold hasSystemMsg. induction history as [|m history IH]; simpl.
  - split; [constructor | reflexivity].
  - rewrite orb_false_iff, IH. split.
    + intros [Hm Hh]. constructor; [|assumption].
      now apply String.eqb_neq.
    + intros H. inversion H; subst. split; [|assumption].
      now apply String.eqb_neq.
Qed.

Lemma hasSystemMsg_true history :
  hasSystemMsg history = true <->
  Exists (fun m => cm_Role m = "system") history.
Proof.
  unfold hasSystemMsg. rewrite existsb_exists, List.Exists_exists.
  split; intros (m & Hin & Hm); exists m; split; try assumption.
  - now apply String.eqb_eq.
  - now apply String.eqb_eq.
Qed.

(** *** Request translation *)

Definition demoUserItem (text : string) : InputItem :=
  mkInputItem "message" EmptyString "user"
    [ mkContentItem "input_text" text EmptyString EmptyString ]
    EmptyString EmptyString EmptyString EmptyString EmptyString.

Definition demoRequest : ResponsesRequest :=
  mkResponsesRequest "gpt-4" "You are helpful" [ demoUserItem "New question" ]
    [] false None 0 EmptyString.

Definition demoHistory : list ChatMessage :=
  [ mkChatMessage "user" (ContentString "Previous question") EmptyString [] EmptyString;
    mkChatMessage "assistant" (ContentString "Previous answer") EmptyString [] EmptyString ].

(** C7. For a request with non-empty instructions: when no message of
    role system is among the history messages, ConvertRequest puts one
    system message built from the instructions at position 0, followed by
    the history and the translated input and nothing else; when the
    history already holds a system message, nothing is inserted. *)
Theorem ConvertRequest_instructions req modelMapping history dev :
  rq_Instructions req <> EmptyString ->
  let messages := cr_Messages (fst (ConvertRequest req modelMapping history dev)) in
  (Forall (fun m => cm_Role m <> "system") history ->
   messages = systemMessage (rq_Instructions req)
                :: history ++ inputMessages dev (rq_Input req)
   /\ messages !! 0%nat = Some (systemMessage (rq_Instructions req))
   /\ length messages
      = S (length history + length (inputMessages dev (rq_Input req))))
  /\ (Exists (fun m => cm_Role m = "system") history ->
      messages = history ++ inputMessages dev (rq_Input req)).
Proof.
  intros Hinstr messages. subst messages. unfold ConvertRequest.
  destruct (fold_left appendTool (rq_Tools req) ([], false)) as [tools flag].
  cbn [fst cr_Messages].
  apply String.eqb_neq in Hinstr. rewrite Hinstr. cbn [negb].
  rewrite fold_appendInputItem. split.
  - intros Hno. apply hasSystemMsg_false in Hno. rewrite Hno. cbn [negb].
    split; [reflexivity|]. split; [reflexivity|].
    cbn [length app]. now rewrite length_app.
  - intros Hsys. apply hasSystemMsg_true in Hsys. rewrite Hsys. reflexivity.
Qed.

Lemma ConvertRequest_instructions_witness :
  cr_Messages (fst (ConvertRequest demoRequest ∅ demoHistory false)) !! 0%nat
  = Some (systemMessage "You are helpful").
Proof.
  destruct (ConvertRequest_instructions demoRequest ∅ demoHistory false)
    as [Hinsert _].
  - discriminate.
  - apply Hinsert. repeat constructor; discriminate.
Defined.

(** C8. ConvertRequest keeps, in order, the declarations of type function
    with a non-empty name as they are, puts the injected function tool in
    the place of every declaration of type web_search, and drops every
    other declaration; the injected tool is a function named web_search
    whose schema requires the single string field query. *)
Theorem ConvertRequest_tools req modelMapping history dev :
  cr_Tools (fst (ConvertRequest req modelMapping history dev))
  = omap declaredTool (rq_Tools req)
  /\ (forall tool, tool_Type tool = "function" ->
        fd_Name (tool_Function tool) <> EmptyString ->
        declaredTool tool = Some (mkChatTool (tool_Type tool) (tool_Function tool)))
  /\ (forall tool, tool_Type tool = "web_search" ->
        declaredTool tool = Some WebSearchFunctionTool)
  /\ (forall tool, tool_Type tool <> "web_search" ->
        tool_Type tool <> "function"
        \/ fd_Name (tool_Function tool) = EmptyString ->
        declaredTool tool = None)
  /\ ct_Type WebSearchFunctionTool = "function"
  /\ fd_Name (ct_Function WebSearchFunctionTool) = "web_search"
  /\ exists fields description,
       fd_Parameters (ct_Function WebSearchFunctionTool) = Some fields
       /\ json_field "type" fields = Some (JStr "object")
       /\ json_field "required" fields = Some (JArr [ JStr "query" ])
       /\ json_field "properties" fields
          = Some (JObj [ ("query", JObj [ ("type", JStr "string");
                                          ("description", JStr description) ]) ]).
Proof.
  split.
  { unfold ConvertRequest.
    pose proof (fold_appendTool (rq_Tools req) ([], false)) as H.
    destruct (fold_left appendTool (rq_Tools req) ([], false)) as [tools flag].
    exact H. }
  split.
  { intros tool Ht Hn. unfold declaredTool.
    rewrite decide_False by (rewrite Ht; discriminate).
    rewrite decide_True by tauto. now rewrite Ht. }
  split.
  { intros tool Ht. unfold declaredTool. now rewrite decide_True. }
  split.
  { intros tool Hw Hother. unfold declaredTool.
    rewrite decide_False by assumption. rewrite decide_False by tauto.
    reflexivity. }
  split; [reflexivity|]. split; [reflexivity|].
  eexists. eexists. repeat split; reflexivity.
Qed.

(** *** Response translation *)

(** The message output item of a response, from its first choice. *)
Definition messageItem (requestID : string) (choice : ChatChoice) : OutputItem :=
  mkOutputItem "message" ("msg-" +:+ requestID) (cm_Role (cc_Message choice))
    match cm_Content (cc_Message choice) with
    | ContentString v =>
        if decide (v = EmptyString) then []
        else [ mkContentItem "output_text" v EmptyString EmptyString ]
    | _ => []
    end
    EmptyString EmptyString EmptyString EmptyString.

(** C9. For a response with at least one choice, the output of
    ConvertResponse is one function_call item of status completed per tool
    call of the first choice's message, in order, followed by the single
    message item; with no tool call and an empty text the output is the
    message item alone, and that item has no content. *)
Theorem ConvertResponse_output resp requestID choice rest :
  rs_Choices resp = choice :: rest ->
  let toolItems :=
    map (functionCallItem requestID) (cm_ToolCalls (cc_Message choice)) in
  rr_Output (ConvertResponse resp requestID)
  = toolItems ++ [ messageItem requestID choice ]
  /\ length toolItems = length (cm_ToolCalls (cc_Message choice))
  /\ Forall (fun item => oi_Type item = "function_call"
                         /\ oi_Status item = "completed") toolItems
  /\ oi_Type (messageItem requestID choice) = "message"
  /\ (cm_ToolCalls (cc_Message choice) = [] ->
      cm_Content (cc_Message choice) = ContentString EmptyString ->
      rr_Output (ConvertResponse resp requestID) = [ messageItem requestID choice ]
      /\ oi_Content (messageItem requestID choice) = []).
Proof.
  intros Hchoices toolItems.
  assert (Hout : rr_Output (ConvertResponse resp requestID)
                 = toolItems ++ [ messageItem requestID choice ]).
  { unfold ConvertResponse. rewrite Hchoices. cbn [rr_Output].
    rewrite fold_appendToolItem. cbn [app]. unfold messageItem.
    destruct (cm_Content (cc_Message choice)) as [|v|ps|j]; try reflexivity.
    rewrite eqb_string_decide.
    destruct (decide (v = EmptyString)) as [E|E].
    - now rewrite bool_decide_eq_true_2.
    - now rewrite bool_decide_eq_false_2. }
  split; [exact Hout|].
  split; [apply length_map|].
  split.
  { subst toolItems. apply Forall_forall. intros item Hin.
    apply list_elem_of_In, in_map_iff in Hin. destruct Hin as (tc & <- & _).
    split; reflexivity. }
  split; [reflexivity|].
  intros Hno Hempty. rewrite Hout. subst toolItems. rewrite Hno.
  split; [reflexivity|]. unfold messageItem. rewrite Hempty. reflexivity.
Qed.

Definition demoToolCall : ToolCall :=
  mkToolCall "call_789" "function" "get_weather" "{}".

Definition demoResponse : ChatCompletionResponse :=
  mkChatCompletionResponse "chatcmpl-456" "chat.completion" 1234567890 "gpt-4"
    [ mkChatChoice 0
        (mkChatMessage "assistant" (ContentString EmptyString) EmptyString
           [ demoToolCall ] EmptyString)
        "tool_calls" ]
    (mkChatUsage 10 5 15).

Lemma ConvertResponse_output_witness :
  rr_Output (ConvertResponse demoResponse "tool-test")
  = [ functionCallItem "tool-test" demoToolCall;
      mkOutputItem "message" "msg-tool-test" "assistant" []
        EmptyString EmptyString EmptyString EmptyString ].
Proof.
  destruct (ConvertResponse_output demoResponse "tool-test"
              (mkChatChoice 0
                 (mkChatMessage "assistant" (ContentString EmptyString) EmptyString
                    [ demoToolCall ] EmptyString)
                 "tool_calls") []) as [Hout _].
  - reflexivity.
  - exact Hout.
Defined.

(** C10. For a response with an empty choices list the output list of
    ConvertResponse is empty, so no message item is emitted, while the
    status is completed and the id is the request id with the resp-
    prefix. *)
Theorem ConvertResponse_no_choices resp requestID :
  rs_Choices resp = [] ->
  rr_Output (ConvertResponse resp requestID) = []
  /\ rr_Status (ConvertResponse resp requestID) = "completed"
  /\ rr_ID (ConvertResponse resp requestID) = "resp-" +:+ requestID.
Proof.
  intros Hchoices. unfold ConvertResponse. rewrite Hchoices.
  repeat split; reflexivity.
Qed.

Definition demoEmptyResponse : ChatCompletionResponse :=
  mkChatCompletionResponse "chatcmpl-0" "chat.completion" 1 "gpt-4" []
    (mkChatUsage 0 0 0).

Lemma ConvertResponse_no_choices_witness :
  rr_Output (ConvertResponse demoEmptyResponse "r1") = []
  /\ rr_Status (ConvertResponse demoEmptyResponse "r1") = "completed"
  /\ rr_ID (ConvertResponse demoEmptyResponse "r1") = "resp-r1".
Proof.
  apply (ConvertResponse_no_choices demoEmptyResponse "r1"). reflexivity.
Defined.

End Converter.

(** ** internal/converter: the stream translator *)

Module Streaming.
Import Models Logger.

(** *** [hashToolCallID] *)

(** Go [int] arithmetic: the result of an operation, reduced to the signed
    64-bit range. *)
Definition wrap64 (z : Z) : Z :=
  let m := z mod 2 ^ 64 in
  if m <? 2 ^ 63 then m else m - 2 ^ 64.

Definition byteOf (c : ascii) : Z := Z.of_N (N_of_ascii c).

Definition byteAt (s : string) (i : nat) : option Z :=
  option_map byteOf (String.get i s).

Definition RuneError : Z := 65533.

(** Whether the byte [b] is there and lies in [lo..hi]. *)
Definition inRange (b : option Z) (lo hi : Z) : bool :=
  match b with
  | Some x => (lo <=? x) && (x <=? hi)
  | None => false
  end.

(** The six payload bits of a continuation byte. *)
Definition contBits (b : option Z) : Z :=
  match b with
  | Some x => Z.land x 63
  | None => 0
  end.

(** The rune that starts with byte [b0] followed by [rest], and its width:
    the UTF-8 decoding that [range] applies to a string, an ill-formed
    sequence giving [RuneError] of width one. *)
Definition decodeRune (b0 : Z) (rest : string) : Z * nat :=
  let b1 := byteAt rest 0 in
  let b2 := byteAt rest 1 in
  let b3 := byteAt rest 2 in
  if b0 <? 128 then (b0, 1%nat)
  else if (194 <=? b0) && (b0 <=? 223) then
    if inRange b1 128 191
    then (Z.lor (Z.shiftl (Z.land b0 31) 6) (contBits b1), 2%nat)
    else (RuneError, 1%nat)
  else if (224 <=? b0) && (b0 <=? 239) then
    let lo := if b0 =? 224 then 160 else 128 in
    let hi := if b0 =? 237 then 159 else 191 in
    if inRange b1 lo hi && inRange b2 128 191
    then (Z.lor (Z.shiftl (Z.land b0 15) 12)
            (Z.lor (Z.shiftl (contBits b1) 6) (contBits b2)), 3%nat)
    else (RuneError, 1%nat)
  else if (240 <=? b0) && (b0 <=? 244) then
    let lo := if b0 =? 240 then 144 else 128 in
    let hi := if b0 =? 244 then 143 else 191 in
    if inRange b1 lo hi && inRange b2 128 191 && inRange b3 128 191
    then (Z.lor (Z.shiftl (Z.land b0 7) 18)
            (Z.lor (Z.shiftl (contBits b1) 12)
               (Z.lor (Z.shiftl (contBits b2) 6) (contBits b3))), 4%nat)
    else (RuneError, 1%nat)
  else (RuneError, 1%nat).

(** The runes of [for _, c := range s]; [skip] counts the bytes of the
    current rune still to pass over. *)
Fixpoint runesFrom (skip : nat) (s : string) : list Z :=
  match s with
  | EmptyString => []
  | String c rest =>
      match skip with
      | S k => runesFrom k rest
      | O => let '(r, w) := decodeRune (byteOf c) rest in
             r :: runesFrom (w - 1) rest
      end
  end.

Definition runes (s : string) : list Z := runesFrom 0 s.

Definition hashToolCallID (id : string) : Z :=
  let hash := fold_left (fun hash c => wrap64 (hash * 31 + c)) (runes id) 0 in
  if hash <? 0 then wrap64 (- hash) else hash.

(** *** Events, log and state *)

Inductive Event : Type :=
| ResponseCreated (id status : string)
| OutputItemAdded (outputIndex : Z) (item : OutputItem)
| OutputTextDelta (delta : string) (outputIndex : Z)
| OutputItemDone (outputIndex : Z) (item : OutputItem)
| ResponseCompleted (response : ResponsesResponse).

(** The [event:] line that [WriteEvent] is given for each event. *)
Definition eventName (e : Event) : string :=
  match e with
  | ResponseCreated _ _ => "response.created"
  | OutputItemAdded _ _ => "response.output_item.added"
  | OutputTextDelta _ _ => "response.output_text.delta"
  | OutputItemDone _ _ => "response.output_item.done"
  | ResponseCompleted _ => "response.completed"
  end.

Record StreamResult := mkStreamResult {
  sr_OutputText : string;
  sr_ToolCalls : list OutputItem }.

(** The local variables of [HandleStreamingResponse], with what the SSE
    writer has sent and what the logger has recorded, oldest first. *)
Record StreamState := mkStreamState {
  outputText : string;
  currentToolID : Z;
  toolCalls : gmap Z OutputItem;
  messageItemAdded : bool;
  sent : list Event;
  logged : list LogEntry }.

Definition logLine (level : LogLevel) (msg : string) (st : StreamState)
  : StreamState :=
  mkStreamState (outputText st) (currentToolID st) (toolCalls st)
    (messageItemAdded st) (sent st) (logged st ++ [ mkLogEntry level msg ]).

(** [SSEWriter.WriteEvent]: the event goes out and a debug record is
    logged. *)
Definition WriteEvent (e : Event) (st : StreamState) : StreamState :=
  logLine LevelDebug "SSE event sent"
    (mkStreamState (outputText st) (currentToolID st) (toolCalls st)
       (messageItemAdded st) (sent st ++ [ e ]) (logged st)).

Definition setToolCalls (m : gmap Z OutputItem) (st : StreamState) : StreamState :=
  mkStreamState (outputText st) (currentToolID st) m
    (messageItemAdded st) (sent st) (logged st).

(** The input as the loop sees it through [bufio.Scanner]: the lines that
    [Scan] delivers, and the error that [Err] reports once [Scan] has
    returned false ([None] at a clean end of input).  A scanner goes on
    delivering the lines it has buffered after it has recorded a read
    error; [sc_errAfter] is the number of lines delivered before the error
    was recorded, which decides what [Err] reports when the loop is left
    early.  [ErrTooLong] is the error of a line that does not fit the
    ceiling of 1024 * 1024 bytes given to [scanner.Buffer]. *)
Inductive ReadError : Type :=
| ErrTooLong
| ErrTransport (msg : string).

Record Scanner := mkScanner {
  sc_lines : list string;
  sc_err : option ReadError;
  sc_errAfter : nat }.

(** What one call leaves behind: the response headers and events written
    to the client, the log, and the value returned to the caller. *)
Record Outcome := mkOutcome {
  out_headers : list (string * string);
  out_events : list Event;
  out_log : list LogEntry;
  out_result : StreamResult }.

(** The payload of a data line, [None] for any other line. *)
Definition dataOf (line : string) : option string :=
  if HasPrefix line "data: " then Some (TrimPrefix line "data: ")
  else if HasPrefix line "data:" then Some (TrimPrefix line "data:")
  else None.

Definition messageItemID (responseID : string) : string := "msg-" +:+ responseID.

Definition newToolItem (responseID : string) (n : Z) (callID : string) : OutputItem :=
  mkOutputItem "function_call" ("fc-" +:+ responseID +:+ "-" +:+ itoa n)
    EmptyString [] callID EmptyString EmptyString "in_progress".

Definition setName (name : string) (item : OutputItem) : OutputItem :=
  mkOutputItem (oi_Type item) (oi_ID item) (oi_Role item) (oi_Content item)
    (oi_CallID item) name (oi_Arguments item) (oi_Status item).

Definition addArguments (fragment : string) (item : OutputItem) : OutputItem :=
  mkOutputItem (oi_Type item) (oi_ID item) (oi_Role item) (oi_Content item)
    (oi_CallID item) (oi_Name item) (oi_Arguments item +:+ fragment)
    (oi_Status item).

Section Translator.

(** [json.Unmarshal] into a [ChatCompletionChunk]; [None] is an error. *)
Variable unmarshalChunk : string -> option ChatCompletionChunk.

(** The order in which [range] visits a map is not specified by Go; the
    two loops over [toolCalls] take their order from these. *)
Variable rangeDone rangeResult : gmap Z OutputItem -> list (Z * OutputItem).

Variable responseID : string.

(** One round of [for _, tc := range delta.ToolCalls].  The item is looked
    up under [idx]; a new item is stored under [currentToolID].  [key] is
    where the item the round goes on to update lives in the map. *)
Definition handleToolCall (st : StreamState) (tc : ToolCall) : StreamState :=
  let idx :=
    if negb (String.eqb (tc_ID tc) EmptyString)
       && (0 <? Z.of_nat (String.length (tc_ID tc)))
    then hashToolCallID (tc_ID tc)
    else currentToolID st in
  let '(key, item, st) :=
    match toolCalls st !! idx with
    | Some item => (idx, item, st)
    | None =>
        let item := newToolItem responseID (currentToolID st) (tc_ID tc) in
        let st' :=
          mkStreamState (outputText st) (wrap64 (currentToolID st + 1))
            (<[ currentToolID st := item ]> (toolCalls st))
            (messageItemAdded st) (sent st) (logged st) in
        (currentToolID st, item, WriteEvent (OutputItemAdded 0 item) st')
    end in
  let item := if negb (String.eqb (tc_Name tc) EmptyString)
              then setName (tc_Name tc) item else item in
  let item := if negb (String.eqb (tc_Arguments tc) EmptyString)
              then addArguments (tc_Arguments tc) item else item in
  setToolCalls (<[ key := item ]> (toolCalls st)) st.

(** The text part of a delta. *)
Definition handleContent (st : StreamState) (content : string) : StreamState :=
  if negb (String.eqb content EmptyString) then
    let st :=
      if negb (messageItemAdded st) then
        WriteEvent
          (OutputItemAdded 0
             (mkOutputItem "message" (messageItemID responseID) "assistant" []
                EmptyString EmptyString EmptyString "in_progress"))
          (mkStreamState (outputText st) (currentToolID st) (toolCalls st)
             true (sent st) (logged st))
      else st in
    WriteEvent (OutputTextDelta content 0)
      (mkStreamState (outputText st +:+ content) (currentToolID st)
         (toolCalls st) (messageItemAdded st) (sent st) (logged st))
  else st.

(** The body of the loop for a decoded chunk. *)
Definition handleChunk (st : StreamState) (chunk : ChatCompletionChunk)
  : StreamState :=
  match ch_Choices chunk with
  | [] => st
  | choice :: _ =>
      let delta := ck_Delta choice in
      let st := handleContent st (dl_Content delta) in
      let st := fold_left handleToolCall (dl_ToolCalls delta) st in
      if negb (String.eqb (ck_FinishReason choice) EmptyString)
      then logLine LevelDebug "Stream finished" st
      else st
  end.

(** The events of the [[DONE]] branch. *)
Definition handleDone (st : StreamState) : StreamState :=
  let st :=
    fold_left (fun st tc => WriteEvent (OutputItemDone 0 (snd tc)) st)
              (rangeDone (toolCalls st)) st in
  let messageItem :=
    mkOutputItem "message" (messageItemID responseID) "assistant"
      [ mkContentItem "output_text" (outputText st) EmptyString EmptyString ]
      EmptyString EmptyString EmptyString "completed" in
  let st := WriteEvent (OutputItemDone 0 messageItem) st in
  WriteEvent
    (ResponseCompleted
       (mkResponsesResponse ("resp-" +:+ responseID) EmptyString 0 "completed"
          EmptyString [] zeroUsageInfo))
    st.

(** The body of the loop for one line; the flag tells that the loop is
    left by [break]. *)
Definition handleLine (st : StreamState) (line : string) : StreamState * bool :=
  match dataOf line with
  | None => (st, false)
  | Some data =>
      let st := logLine LevelDebug "Received SSE chunk" st in
      if String.eqb data "[DONE]" then (handleDone st, true)
      else
        match unmarshalChunk data with
        | None => (logLine LevelWarn "Failed to parse chunk" st, false)
        | Some chunk => (handleChunk st chunk, false)
        end
  end.

(** [for scanner.Scan()]: the state when the loop is left, whether it was
    left by [break], and how many lines had been delivered. *)
Fixpoint scanLoop (lines : list string) (st : StreamState) (delivered : nat)
  : StreamState * bool * nat :=
  match lines with
  | [] => (st, false, delivered)
  | line :: rest =>
      let '(st, stop) := handleLine st line in
      if stop then (st, true, S delivered)
      else scanLoop rest st (S delivered)
  end.

Definition sseHeaders : list (string * string) :=
  [ ("Content-Type", "text/event-stream");
    ("Cache-Control", "no-cache");
    ("Connection", "keep-alive");
    ("X-Accel-Buffering", "no") ].

Definition initialState : StreamState :=
  WriteEvent (ResponseCreated ("resp-" +:+ responseID) "in_progress")
    (mkStreamState EmptyString 0 ∅ false [] []).

(** What [scanner.Err()] reports after the loop. *)
Definition scannerErr (sc : Scanner) (stopped : bool) (delivered : nat)
  : option ReadError :=
  if stopped
  then if (sc_errAfter sc <? delivered)%nat then sc_err sc else None
  else sc_err sc.

Definition HandleStreamingResponse (sc : Scanner) : Outcome :=
  let '(st, stopped, delivered) := scanLoop (sc_lines sc) initialState 0%nat in
  let st :=
    match scannerErr sc stopped delivered with
    | Some _ => logLine LevelError "Error reading stream" st
    | None => st
    end in
  mkOutcome sseHeaders (sent st) (logged st)
    (mkStreamResult (outputText st) (map snd (rangeResult (toolCalls st)))).

(** *** Facts about the loop *)

Definition isDoneLine (line : string) : Prop := dataOf line = Some "[DONE]".

(** The state in which the loop is after the lines [pre]. *)
Definition stateAfter (pre : list string) : StreamState :=
  fst (fst (scanLoop pre initialState 0%nat)).

(** The message item of the done event. *)
Definition doneMessageItem (text : string) : OutputItem :=
  mkOutputItem "message" (messageItemID responseID) "assistant"
    [ mkContentItem "output_text" text EmptyString EmptyString ]
    EmptyString EmptyString EmptyString "completed".

Definition completedResponse : ResponsesResponse :=
  mkResponsesResponse ("resp-" +:+ responseID) EmptyString 0 "completed"
    EmptyString [] zeroUsageInfo.

Definition isCompleted (e : Event) : bool :=
  match e with
  | ResponseCompleted _ => true
  | _ => false
  end.

(** No turn-completed event has been sent. *)
Definition noCompleted (st : StreamState) : Prop :=
  Forall (fun e => isCompleted e = false) (sent st).

Lemma fold_done_events (l : list (Z * OutputItem)) (st : StreamState) :
  let st' := fold_left (fun st tc => WriteEvent (OutputItemDone 0 (snd tc)) st) l st in
  sent st' = sent st ++ map (fun tc => OutputItemDone 0 (snd tc)) l
  /\ outputText st' = outputText st
  /\ toolCalls st' = toolCalls st.
Proof.
  revert st. induction l as [|tc l IH]; intros st; cbn [fold_left map].
  - rewrite app_nil_r. auto.
  - destruct (IH (WriteEvent (OutputItemDone 0 (snd tc)) st)) as (Hs & Ho & Ht).
    cbn zeta in *. rewrite Hs, Ho, Ht. cbn. rewrite <- app_assoc. auto.
Qed.

Lemma handleDone_sent (st : StreamState) :
  sent (handleDone st)
  = sent st
    ++ map (fun tc => OutputItemDone 0 (snd tc)) (rangeDone (toolCalls st))
    ++ [ OutputItemDone 0 (doneMessageItem (outputText st));
         ResponseCompleted completedResponse ].
Proof.
  unfold handleDone.
  destruct (fold_done_events (rangeDone (toolCalls st)) st) as (Hs & Ho & _).
  cbn zeta in Hs, Ho. cbn. rewrite Hs, Ho.
  rewrite <- !app_assoc. reflexivity.
Qed.

Lemma handleLine_done (st : StreamState) (line : string) :
  isDoneLine line ->
  handleLine st line
  = (handleDone (logLine LevelDebug "Received SSE chunk" st), true).
Proof. unfold isDoneLine, handleLine. intros ->. reflexivity. Qed.

Lemma handleLine_not_done (st : StreamState) (line : string) :
  ~ isDoneLine line -> snd (handleLine st line) = false.
Proof.
  unfold isDoneLine, handleLine. intros Hnot.
  destruct (dataOf line) as [data|]; [|reflexivity].
  destruct (String.eqb_spec data "[DONE]") as [E|E].
  - subst. tauto.
  - cbn. destruct (unmarshalChunk data); reflexivity.
Qed.

Lemma scanLoop_app (pre rest : list string) (st : StreamState) (n : nat) :
  Forall (fun line => ~ isDoneLine line) pre ->
  scanLoop (pre ++ rest) st n
  = scanLoop rest (fst (fst (scanLoop pre st n))) (n + length pre)%nat.
Proof.
  intros Hpre. revert st n.
  induction Hpre as [|line pre Hline Hpre IH]; intros st n; cbn [app scanLoop length].
  - f_equal. lia.
  - pose proof (handleLine_not_done st line Hline) as Hstop.
    destruct (handleLine st line) as [st' stop]. cbn in Hstop. subst stop.
    rewrite IH. f_equal. lia.
Qed.

Lemma scanLoop_not_stopped (lines : list string) (st : StreamState) (n : nat) :
  Forall (fun line => ~ isDoneLine line) lines ->
  scanLoop lines st n
  = (fst (fst (scanLoop lines st n)), false, (n + length lines)%nat).
Proof.
  intros Hlines. revert st n.
  induction Hlines as [|line lines Hline Hlines IH]; intros st n;
    cbn [scanLoop length].
  - f_equal. lia.
  - pose proof (handleLine_not_done st line Hline) as Hstop.
    destruct (handleLine st line) as [st' stop]. cbn in Hstop. subst stop.
    rewrite IH at 1. f_equal. lia.
Qed.

(** **** No completion event outside the [[DONE]] branch *)

Lemma noCompleted_logLine level msg st :
  noCompleted st -> noCompleted (logLine level msg st).
Proof. intros H. exact H. Qed.

Lemma noCompleted_WriteEvent e st :
  isCompleted e = false -> noCompleted st -> noCompleted (WriteEvent e st).
Proof.
  unfold noCompleted. intros He H. cbn.
  apply Forall_app. split; [exact H|]. constructor; [exact He|constructor].
Qed.

Lemma noCompleted_handleToolCall st tc :
  noCompleted st -> noCompleted (handleToolCall st tc).
Proof.
  intros H. unfold handleToolCall.
  match goal with |- context [toolCalls st !! ?i] =>
    destruct (toolCalls st !! i) as [item|] end.
  - exact H.
  - unfold noCompleted in *. cbn.
    apply Forall_app. split; [exact H|]. constructor; [reflexivity|constructor].
Qed.

Lemma noCompleted_handleToolCalls tcs st :
  noCompleted st -> noCompleted (fold_left handleToolCall tcs st).
Proof.
  revert st. induction tcs as [|tc tcs IH]; intros st H; cbn [fold_left].
  - exact H.
  - apply IH, noCompleted_handleToolCall, H.
Qed.

Lemma noCompleted_handleContent st content :
  noCompleted st -> noCompleted (handleContent st content).
Proof.
  intros H. unfold handleContent.
  destruct (negb (String.eqb content EmptyString)); [|exact H].
  apply noCompleted_WriteEvent; [reflexivity|].
  destruct (negb (messageItemAdded st)); [|exact H].
  unfold noCompleted in *. cbn.
  apply Forall_app. split; [exact H|]. constructor; [reflexivity|constructor].
Qed.

Lemma noCompleted_handleChunk st chunk :
  noCompleted st -> noCompleted (handleChunk st chunk).
Proof.
  intros H. unfold handleChunk.
  destruct (ch_Choices chunk) as [|choice rest]; [exact H|].
  assert (H' : noCompleted
                 (fold_left handleToolCall (dl_ToolCalls (ck_Delta choice))
                    (handleContent st (dl_Content (ck_Delta choice))))).
  { apply noCompleted_handleToolCalls, noCompleted_handleContent, H. }
  destruct (negb (String.eqb (ck_FinishReason choice) EmptyString)); exact H'.
Qed.

Lemma noCompleted_handleLine st line :
  ~ isDoneLine line -> noCompleted st -> noCompleted (fst (handleLine st line)).
Proof.
  unfold isDoneLine, handleLine. intros Hnot H.
  destruct (dataOf line) as [data|]; [|exact H].
  destruct (String.eqb_spec data "[DONE]") as [E|E].
  - subst. tauto.
  - destruct (unmarshalChunk data) as [chunk|]; cbn [fst].
    + apply noCompleted_handleChunk. exact H.
    + exact H.
Qed.

Lemma noCompleted_scanLoop lines st n :
  Forall (fun line => ~ isDoneLine line) lines ->
  noCompleted st -> noCompleted (fst (fst (scanLoop lines st n))).
Proof.
  intros Hlines. revert st n.
  induction Hlines as [|line lines Hline Hlines IH]; intros st n H;
    cbn [scanLoop].
  - exact H.
  - pose proof (handleLine_not_done st line Hline) as Hstop.
    pose proof (noCompleted_handleLine st line Hline H) as H'.
    destruct (handleLine st line) as [st' stop]. cbn in Hstop, H'. subst stop.
    apply IH, H'.
Qed.

Lemma noCompleted_initialState : noCompleted initialState.
Proof. repeat constructor. Qed.

(** **** Deltas without a provider id *)

(** The items live under the keys below the counter. *)
Definition keysBelowCounter (st : StreamState) : Prop :=
  forall k, is_Some (toolCalls st !! k) -> 0 <= k < currentToolID st.

Lemma keysBelowCounter_initialState : keysBelowCounter initialState.
Proof.
  intros k [item Hk]. cbn in Hk. rewrite lookup_empty in Hk. discriminate Hk.
Qed.

(** A delta without a provider id is looked up under the counter, where
    no item lives: it always gets a new item, which holds nothing but the
    name and the fragment of this delta, and the older items keep their
    arguments. *)
Lemma delta_without_id_allocates (st : StreamState) (tc : ToolCall) :
  keysBelowCounter st ->
  tc_ID tc = EmptyString ->
  let st' := handleToolCall st tc in
  (exists item,
     toolCalls st' !! currentToolID st = Some item
     /\ oi_Arguments item = tc_Arguments tc
     /\ oi_Name item = tc_Name tc)
  /\ (forall k, k <> currentToolID st -> toolCalls st' !! k = toolCalls st !! k).
Proof.
  intros Hkeys Hid st'. subst st'. unfold handleToolCall. rewrite Hid.
  cbn [String.eqb negb andb].
  destruct (toolCalls st !! currentToolID st) as [item|] eqn:Hlook.
  { assert (Hsome : is_Some (toolCalls st !! currentToolID st))
      by (rewrite Hlook; eexists; reflexivity).
    apply Hkeys in Hsome. lia. }
  cbn [setToolCalls toolCalls WriteEvent logLine]. split.
  - eexists. split; [apply lookup_insert_eq|].
    destruct (String.eqb_spec (tc_Name tc) EmptyString) as [Hn|Hn];
      destruct (String.eqb_spec (tc_Arguments tc) EmptyString) as [Ha|Ha];
      cbn; rewrite ?Hn, ?Ha; split; reflexivity.
  - intros k Hk. rewrite !lookup_insert_ne by congruence. reflexivity.
Qed.

End Translator.

(** *** Example streams *)

(** The JSON text of a chunk whose only choice has the delta [body]. *)
Definition chunkText (body : string) : string :=
  "{" +:+ q "choices" +:+ ":[{" +:+ q "delta" +:+ ":{" +:+ body +:+ "}}]}".

(** The JSON text of one tool-call delta; [arguments] is given as it is
    written inside the JSON string, escapes included. *)
Definition toolCallText (id name arguments : string) : string :=
  "{" +:+ q "id" +:+ ":" +:+ q id +:+ "," +:+ q "function" +:+ ":{"
  +:+ q "name" +:+ ":" +:+ q name +:+ ","
  +:+ q "arguments" +:+ ":" +:+ q arguments +:+ "}}".

Definition toolCallsText (calls : string) : string :=
  chunkText (q "tool_calls" +:+ ":[" +:+ calls +:+ "]").

Definition chunkOf (delta : ChatDelta) : ChatCompletionChunk :=
  mkChatCompletionChunk EmptyString EmptyString 0 EmptyString
    [ mkChatChunkChoice 0 delta EmptyString ].

Definition toolDelta (id name arguments : string) : ToolCall :=
  mkToolCall id EmptyString name arguments.

(** A decoder for the examples: it decodes the texts of its table and
    reports an error for any other text. *)
Definition decodeTable (table : list (string * ChatCompletionChunk))
  (data : string) : option ChatCompletionChunk :=
  option_map snd (find (fun entry => String.eqb (fst entry) data) table).

(** The two fragments of an arguments object with the one field a = 1,
    cut before its closing brace; the first is also given as it is written
    inside a JSON string. *)
Definition fragment1 : string := "{" +:+ q "a" +:+ ":1".
Definition fragment2 : string := "}".
Definition fragment1Escaped : string := "{\" +:+ dq +:+ "a\" +:+ dq +:+ ":1".

Definition fragmentTable : list (string * ChatCompletionChunk) :=
  [ (toolCallsText (toolCallText "call_1" "f" fragment1Escaped),
     chunkOf (mkChatDelta EmptyString EmptyString
                [ toolDelta "call_1" "f" fragment1 ]));
    (toolCallsText (toolCallText "call_1" EmptyString fragment2),
     chunkOf (mkChatDelta EmptyString EmptyString
                [ toolDelta "call_1" EmptyString fragment2 ])) ].

Definition fragmentStream : Scanner :=
  mkScanner
    [ "data: " +:+ toolCallsText (toolCallText "call_1" "f" fragment1Escaped);
      "data: " +:+ toolCallsText (toolCallText "call_1" EmptyString fragment2);
      "data: [DONE]" ]
    None 0.

Definition twoCallsTable : list (string * ChatCompletionChunk) :=
  [ (toolCallsText (toolCallText "call_a" "f" "{}" +:+ ","
                    +:+ toolCallText "call_b" "g" "{}"),
     chunkOf (mkChatDelta EmptyString EmptyString
                [ toolDelta "call_a" "f" "{}"; toolDelta "call_b" "g" "{}" ])) ].

Definition twoCallsStream : Scanner :=
  mkScanner
    [ "data: " +:+ toolCallsText (toolCallText "call_a" "f" "{}" +:+ ","
                                  +:+ toolCallText "call_b" "g" "{}");
      "data: [DONE]";
      "data: " +:+ chunkText (q "content" +:+ ":" +:+ q "late") ]
    None 0.

Definition textTable : list (string * ChatCompletionChunk) :=
  [ (chunkText (q "content" +:+ ":" +:+ q "Hi"),
     chunkOf (mkChatDelta EmptyString "Hi" [])) ].

Definition textLines : list string :=
  [ ": keep-alive"; "data: " +:+ chunkText (q "content" +:+ ":" +:+ q "Hi") ].

(** The call ids of the tool-call items announced, and of those reported
    done, in the order of the events. *)
Definition addedCallIDs (events : list Event) : list string :=
  omap (fun e => match e with
                 | OutputItemAdded _ item =>
                     if String.eqb (oi_Type item) "function_call"
                     then Some (oi_CallID item) else None
                 | _ => None
                 end) events.

Definition doneCallIDs (events : list Event) : list string :=
  omap (fun e => match e with
                 | OutputItemDone _ item =>
                     if String.eqb (oi_Type item) "function_call"
                     then Some (oi_CallID item) else None
                 | _ => None
                 end) events.

(** *** The claims on the stream translator *)

(** C1, at the input where the code departs from it.  Two chunks carry a
    tool-call delta with the same provider id call_1, hence the same key,
    and the two fragments of one arguments object.  The second delta is
    not appended to the item of the first: the lookup under the hash of the
    id misses the item, which was stored under the counter, and a second
    item is allocated.  The stream ends with two items, neither of which
    holds the whole arguments. *)
Lemma repeated_key_allocates_second_item :
  let out := HandleStreamingResponse (decodeTable fragmentTable)
               map_to_list map_to_list "r" fragmentStream in
  map oi_Arguments (sr_ToolCalls (out_result out)) = [ fragment2; fragment1 ]
  /\ map oi_ID (sr_ToolCalls (out_result out)) = [ "fc-r-1"; "fc-r-0" ]
  /\ addedCallIDs (out_events out) = [ "call_1"; "call_1" ]
  /\ ~ In (fragment1 +:+ fragment2)
          (map oi_Arguments (sr_ToolCalls (out_result out))).
Proof.
  vm_compute. repeat split; try reflexivity.
  intros [H|[H|[]]]; discriminate H.
Qed.

(** C3, as the code has it.  At the first data line equal to the sentinel
    the translator sends one item-done event for every open tool-call
    item, in the order in which the map happens to be visited, then the
    done event of the message with the whole accumulated text, then the
    turn-completed event, and the lines after the sentinel are not read:
    the events are those sent before the sentinel followed by these and
    nothing else. *)
Theorem done_line_events unmarshalChunk rangeDone rangeResult responseID
  (pre : list string) (line : string) (post : list string)
  (err : option ReadError) (errAfter : nat) :
  Forall (fun l => ~ isDoneLine l) pre ->
  isDoneLine line ->
  (forall m, rangeDone m ≡ₚ map_to_list m) ->
  let st := stateAfter unmarshalChunk rangeDone responseID pre in
  exists items : list OutputItem,
    items ≡ₚ map snd (map_to_list (toolCalls st))
    /\ out_events (HandleStreamingResponse unmarshalChunk rangeDone rangeResult
                     responseID (mkScanner (pre ++ line :: post) err errAfter))
       = sent st
         ++ map (OutputItemDone 0) items
         ++ [ OutputItemDone 0 (doneMessageItem responseID (outputText st));
              ResponseCompleted (completedResponse responseID) ].
Proof.
  intros Hpre Hline Hperm st.
  exists (map snd (rangeDone (toolCalls st))). split.
  - apply Permutation_map, Hperm.
  - unfold HandleStreamingResponse. cbn [sc_lines].
    rewrite (scanLoop_app _ _ _ _ _ _ _ Hpre).
    fold (stateAfter unmarshalChunk rangeDone responseID pre). fold st.
    cbn [scanLoop]. rewrite (handleLine_done _ _ _ _ _ Hline).
    match goal with |- context [scannerErr ?sc ?b ?n] =>
      destruct (scannerErr sc b n) end; cbn [out_events];
      cbn [sent logLine]; rewrite handleDone_sent;
      cbn [sent logLine toolCalls outputText]; now rewrite map_map.
Qed.

Lemma done_line_events_witness :
  exists items : list OutputItem,
    items ≡ₚ map snd (map_to_list
                        (toolCalls (stateAfter (decodeTable twoCallsTable)
                                      map_to_list "r"
                                      (take 1 (sc_lines twoCallsStream)))))
    /\ out_events (HandleStreamingResponse (decodeTable twoCallsTable)
                     map_to_list map_to_list "r" twoCallsStream)
       = sent (stateAfter (decodeTable twoCallsTable) map_to_list "r"
                 (take 1 (sc_lines twoCallsStream)))
         ++ map (OutputItemDone 0) items
         ++ [ OutputItemDone 0 (doneMessageItem "r" EmptyString);
              ResponseCompleted (completedResponse "r") ].
Proof.
  assert (Htext : outputText (stateAfter (decodeTable twoCallsTable) map_to_list
                                "r" (take 1 (sc_lines twoCallsStream)))
                  = EmptyString) by (vm_compute; reflexivity).
  pose proof (done_line_events (decodeTable twoCallsTable) map_to_list
                map_to_list "r" (take 1 (sc_lines twoCallsStream))
                "data: [DONE]" (drop 2 (sc_lines twoCallsStream)) None 0%nat)
    as Hevents.
  cbv zeta in Hevents. rewrite Htext in Hevents. apply Hevents.
  - repeat constructor. vm_compute. discriminate.
  - reflexivity.
  - reflexivity.
Defined.

(** C3 as stated fails: nothing makes the done events follow the order of
    discovery.  With a visiting order that Go allows, the stream that
    announces call_a before call_b reports call_b done before call_a. *)
Lemma done_order_counterexample :
  ~ (forall rangeDone : gmap Z OutputItem -> list (Z * OutputItem),
       (forall m, rangeDone m ≡ₚ map_to_list m) ->
       let events := out_events (HandleStreamingResponse (decodeTable twoCallsTable)
                                   rangeDone map_to_list "r" twoCallsStream) in
       doneCallIDs events = addedCallIDs events).
Proof.
  intros H. specialize (H map_to_list (fun m => Permutation_refl _)).
  vm_compute in H. discriminate H.
Qed.

(** C5, as the code has it.  When the reading fails before any sentinel
    line, the loop ends without a turn-completed event and the error is
    written to the log; the events sent and the value returned are the
    ones of the same lines ending at a clean end of input, so the caller
    is given no sign of the error. *)
Theorem read_error_is_only_logged unmarshalChunk rangeDone rangeResult responseID
  (lines : list string) (e : ReadError) (errAfter : nat) :
  Forall (fun l => ~ isDoneLine l) lines ->
  let failed := HandleStreamingResponse unmarshalChunk rangeDone rangeResult
                  responseID (mkScanner lines (Some e) errAfter) in
  let clean := HandleStreamingResponse unmarshalChunk rangeDone rangeResult
                 responseID (mkScanner lines None errAfter) in
  Forall (fun ev => eventName ev <> "response.completed") (out_events failed)
  /\ out_log failed
     = out_log clean ++ [ mkLogEntry LevelError "Error reading stream" ]
  /\ out_events failed = out_events clean
  /\ out_result failed = out_result clean.
Proof.
  intros Hlines failed clean. subst failed clean.
  unfold HandleStreamingResponse. cbn [sc_lines].
  rewrite (scanLoop_not_stopped _ _ _ _ _ _ Hlines).
  cbn [scannerErr sc_err]. cbn.
  split; [|repeat split; reflexivity].
  pose proof (noCompleted_scanLoop unmarshalChunk rangeDone responseID lines
                (initialState responseID) 0%nat Hlines
                (noCompleted_initialState responseID)) as Hno.
  unfold noCompleted in Hno. eapply Forall_impl; [exact Hno|].
  intros ev Hev. destruct ev; cbn in *; discriminate.
Qed.

Lemma read_error_is_only_logged_witness :
  let failed := HandleStreamingResponse (decodeTable textTable) map_to_list
                  map_to_list "r" (mkScanner textLines (Some ErrTooLong) 2) in
  let clean := HandleStreamingResponse (decodeTable textTable) map_to_list
                 map_to_list "r" (mkScanner textLines None 2) in
  Forall (fun ev => eventName ev <> "response.completed") (out_events failed)
  /\ out_log failed
     = out_log clean ++ [ mkLogEntry LevelError "Error reading stream" ]
  /\ out_events failed = out_events clean
  /\ out_result failed = out_result clean.
Proof.
  apply (read_error_is_only_logged (decodeTable textTable) map_to_list
           map_to_list "r" textLines ErrTooLong 2).
  repeat constructor; vm_compute; discriminate.
Defined.

(** C5 as stated fails in its last part: a stream cut by a line beyond
    the ceiling returns to the caller exactly what the same stream returns
    when it just ends, and writes the same events, so the read error is not
    reported to the caller. *)
Lemma read_error_not_reported :
  let failed := HandleStreamingResponse (decodeTable textTable) map_to_list
                  map_to_list "r" (mkScanner textLines (Some ErrTooLong) 2) in
  let clean := HandleStreamingResponse (decodeTable textTable) map_to_list
                 map_to_list "r" (mkScanner textLines None 2) in
  out_result failed = mkStreamResult "Hi" []
  /\ out_result failed = out_result clean
  /\ out_events failed = out_events clean
  /\ out_headers failed = out_headers clean.
Proof. vm_compute. repeat split; reflexivity. Qed.

End Streaming.

(** ** internal/search: formatting of results (manager.go) *)

Module Search.
Import Models.

(** One round of the loop of [FormatResults]; [i] is the index. *)
Definition formatResult (i : Z) (r : SearchResult) : string :=
  let output := itoa (i + 1) +:+ ". " +:+ sres_Title r +:+ nl in
  let output :=
    if negb (String.eqb (sres_URL r) EmptyString)
    then output +:+ "   URL: " +:+ sres_URL r +:+ nl else output in
  let output :=
    if negb (String.eqb (sres_Snippet r) EmptyString)
    then output +:+ "   Summary: " +:+ sres_Snippet r +:+ nl else output in
  let output :=
    if negb (String.eqb (sres_Content r) EmptyString)
       && negb (String.eqb (sres_Content r) (sres_Snippet r))
    then
      let content := sres_Content r in
      let content :=
        if (500 <? String.length content)%nat
        then String.substring 0 500 content +:+ "..." else content in
      output +:+ "   Content: " +:+ content +:+ nl
    else output in
  output +:+ nl.

Fixpoint formatResultsFrom (i : Z) (results : list SearchResult) (output : string)
  : string :=
  match results with
  | [] => output
  | r :: rest => formatResultsFrom (i + 1) rest (output +:+ formatResult i r)
  end.

(** [FormatResults]; [None] is the nil result. *)
Definition FormatResults (result : option SearchProviderResult) : string :=
  match result with
  | None => "No search results found."
  | Some result =>
      match spr_Results result with
      | [] => "No search results found."
      | results =>
          formatResultsFrom 0 results
            ("Search results for: " +:+ spr_Query result +:+ nl +:+ nl)
      end
  end.

End Search.

(** ** internal/handler/websearch.go: the web_search loop *)

Module WebSearch.
Import Models Logger.

Record WebSearchCall := mkWebSearchCall {
  ws_ID : string;
  ws_Query : string;
  ws_Status : string }.

Record TargetConfig := mkTargetConfig {
  tg_BaseURL : string;
  tg_PathSuffix : string }.

(** What the HTTP client answers to one POST: the step of [sendToUpstream]
    that failed, with the text of its error, or the status and the body. *)
Inductive Transport : Type :=
| MarshalFailed (e : string)
| CreateFailed (e : string)
| SendFailed (e : string)
| ReadFailed (e : string)
| Received (status : Z) (body : string).

(** The calls that leave the handler, in order. *)
Inductive Effect : Type :=
| UpstreamCall (url authorization : string) (body : ChatCompletionRequest)
| SearchCall (query : string).

Definition isUpstreamCall (e : Effect) : bool :=
  match e with
  | UpstreamCall _ _ _ => true
  | SearchCall _ => false
  end.

(** What [HandleWithWebSearch] returns: [(resp, webSearchCalls, err)]. *)
Record Returned := mkReturned {
  ret_resp : option ChatCompletionResponse;
  ret_calls : list WebSearchCall;
  ret_err : option string }.

Section Handler.

(** The state of everything outside the process. *)
Variable World : Type.

(** [h.client.Do] and the reading of the body, for the POST of a request
    to a URL with an Authorization header. *)
Variable clientDo :
  string -> string -> ChatCompletionRequest -> World -> Transport * World.

(** [json.Unmarshal] of a response body into a [ChatCompletionResponse]. *)
Variable unmarshalResponse : string -> result ChatCompletionResponse.

(** [json.Unmarshal] of an argument string into a struct with the one
    field [Query]: its value when the decoding succeeds. *)
Variable unmarshalQuery : string -> result string.

(** [h.searchManager.Search]: an error, or a result that may be nil. *)
Variable managerSearch :
  string -> World -> result (option SearchProviderResult) * World.

(** The handler's surroundings: the world, the calls made so far and the
    log. *)
Record Env := mkEnv {
  world : World;
  trace : list Effect;
  logged : list LogEntry }.

Definition logLine (level : LogLevel) (msg : string) (env : Env) : Env :=
  mkEnv (world env) (trace env) (logged env ++ [ mkLogEntry level msg ]).

Definition extractWebSearchCalls (toolCalls : list ToolCall) : list ToolCall :=
  fold_left (fun webSearchCalls tc =>
               if String.eqb (tc_Name tc) "web_search"
               then webSearchCalls ++ [ tc ] else webSearchCalls)
            toolCalls [].

Definition parseQueryFromArguments (args : string) : result string :=
  match unmarshalQuery args with
  | Err e => Err e
  | Ok query => Ok query
  end.

Definition sendToUpstream (chatReq : ChatCompletionRequest) (apiKey : string)
  (targetCfg : TargetConfig) (env : Env)
  : result ChatCompletionResponse * Env :=
  let targetURL := tg_BaseURL targetCfg +:+ tg_PathSuffix targetCfg in
  let '(answer, w) := clientDo targetURL apiKey chatReq (world env) in
  let env := mkEnv w (trace env ++ [ UpstreamCall targetURL apiKey chatReq ])
                   (logged env) in
  match answer with
  | MarshalFailed e => (Err ("failed to marshal request: " +:+ e), env)
  | CreateFailed e => (Err ("failed to create request: " +:+ e), env)
  | SendFailed e => (Err ("failed to send request: " +:+ e), env)
  | ReadFailed e => (Err ("failed to read response: " +:+ e), env)
  | Received status body =>
      let env := logLine LevelDebug "upstream response" env in
      if 400 <=? status then
        (Err ("upstream error: status " +:+ itoa status +:+ ", body: " +:+ body),
         env)
      else
        match unmarshalResponse body with
        | Err e => (Err ("failed to parse response: " +:+ e), env)
        | Ok chatResp => (Ok chatResp, env)
        end
  end.

(** The variables of the loop of [HandleWithWebSearch]. *)
Record LoopState := mkLoopState {
  messages : list ChatMessage;
  webSearchCalls : list WebSearchCall;
  env : Env }.

(** One round of [for _, tc := range webSearchToolCalls]. *)
Definition handleCall (st : LoopState) (tc : ToolCall) : LoopState :=
  let '(query, env) :=
    match parseQueryFromArguments (tc_Arguments tc) with
    | Err _ =>
        ("unknown",
         logLine LevelError "failed to parse web_search arguments" (env st))
    | Ok query => (query, env st)
    end in
  let env := logLine LevelInfo "executing web_search" env in
  let '(searchResult, w) := managerSearch query (world env) in
  let env := mkEnv w (trace env ++ [ SearchCall query ]) (logged env) in
  let '(searchContent, status, env) :=
    match searchResult with
    | Err e =>
        ("Search failed: " +:+ e, "failed",
         logLine LevelError "web_search failed" env)
    | Ok found => (Search.FormatResults found, "completed", env)
    end in
  mkLoopState
    (messages st
       ++ [ mkChatMessage "tool" (ContentString searchContent) EmptyString []
              (tc_ID tc) ])
    (webSearchCalls st ++ [ mkWebSearchCall (tc_ID tc) query status ])
    env.

Definition currentReq (chatReq : ChatCompletionRequest)
  (messages : list ChatMessage) : ChatCompletionRequest :=
  mkChatCompletionRequest (cr_Model chatReq) messages (cr_Tools chatReq) false
    (cr_Temperature chatReq) (cr_MaxTokens chatReq).

(** [for i := 0; i < maxIterations; i++] with [remaining] rounds to go,
    followed by the final request. *)
Fixpoint iterate (remaining : nat) (chatReq : ChatCompletionRequest)
  (apiKey : string) (targetCfg : TargetConfig) (st : LoopState)
  : Returned * Env :=
  match remaining with
  | O =>
      match sendToUpstream (currentReq chatReq (messages st)) apiKey targetCfg
              (env st) with
      | (Ok resp, env) => (mkReturned (Some resp) (webSearchCalls st) None, env)
      | (Err e, env) => (mkReturned None (webSearchCalls st) (Some e), env)
      end
  | S remaining =>
      let env := logLine LevelDebug "web_search iteration" (env st) in
      match sendToUpstream (currentReq chatReq (messages st)) apiKey targetCfg
              env with
      | (Err e, env) =>
          (mkReturned None (webSearchCalls st)
             (Some ("upstream request failed: " +:+ e)), env)
      | (Ok resp, env) =>
          match rs_Choices resp with
          | [] => (mkReturned (Some resp) (webSearchCalls st) None, env)
          | choice :: _ =>
              let webSearchToolCalls :=
                extractWebSearchCalls (cm_ToolCalls (cc_Message choice)) in
              match webSearchToolCalls with
              | [] =>
                  (mkReturned (Some resp) (webSearchCalls st) None,
                   logLine LevelDebug
                     "no more web_search calls, returning response" env)
              | _ =>
                  let env := logLine LevelInfo "detected web_search calls" env in
                  let assistantMsg :=
                    mkChatMessage "assistant" (cm_Content (cc_Message choice))
                      EmptyString (cm_ToolCalls (cc_Message choice))
                      EmptyString in
                  let st :=
                    mkLoopState (messages st ++ [ assistantMsg ])
                                (webSearchCalls st) env in
                  iterate remaining chatReq apiKey targetCfg
                    (fold_left handleCall webSearchToolCalls st)
              end
          end
      end
  end.

Definition maxIterations : nat := 5.

Definition HandleWithWebSearch (chatReq : ChatCompletionRequest)
  (apiKey : string) (targetCfg : TargetConfig) (env : Env) : Returned * Env :=
  iterate maxIterations chatReq apiKey targetCfg
    (mkLoopState (cr_Messages chatReq) [] env).

(** *** Facts about the loop *)

(** The number of calls of [sendToUpstream] made so far. *)
Definition upstreamCalls (env : Env) : nat :=
  length (List.filter isUpstreamCall (trace env)).

(** The upstream answered the call with a response that asks for at least
    one web_search. *)
Definition answersWithSearch (url key : string) (req : ChatCompletionRequest)
  (w : World) : Prop :=
  exists status body w' resp choice rest tc,
    clientDo url key req w = (Received status body, w')
    /\ status < 400
    /\ unmarshalResponse body = Ok resp
    /\ rs_Choices resp = choice :: rest
    /\ In tc (cm_ToolCalls (cc_Message choice))
    /\ tc_Name tc = "web_search".

Lemma extractWebSearchCalls_filter (toolCalls : list ToolCall) :
  extractWebSearchCalls toolCalls
  = List.filter (fun tc => String.eqb (tc_Name tc) "web_search") toolCalls.
Proof.
  unfold extractWebSearchCalls.
  enough (H : forall acc,
             fold_left (fun webSearchCalls tc =>
                          if String.eqb (tc_Name tc) "web_search"
                          then webSearchCalls ++ [ tc ] else webSearchCalls)
                       toolCalls acc
             = acc ++ List.filter (fun tc => String.eqb (tc_Name tc) "web_search")
                                  toolCalls)
    by apply (H []).
  induction toolCalls as [|tc tcs IH]; intros acc; cbn [fold_left List.filter].
  - now rewrite app_nil_r.
  - rewrite IH. destruct (String.eqb (tc_Name tc) "web_search").
    + rewrite <- app_assoc. reflexivity.
    + reflexivity.
Qed.

Lemma extractWebSearchCalls_nonempty (toolCalls : list ToolCall) (tc : ToolCall) :
  In tc toolCalls -> tc_Name tc = "web_search" ->
  extractWebSearchCalls toolCalls <> [].
Proof.
  intros Hin Hname Hnil. rewrite extractWebSearchCalls_filter in Hnil.
  assert (Hf : In tc (List.filter (fun tc => String.eqb (tc_Name tc) "web_search")
                                  toolCalls)).
  { apply filter_In. split; [exact Hin|]. rewrite Hname. reflexivity. }
  rewrite Hnil in Hf. destruct Hf.
Qed.

Lemma upstreamCalls_logLine level msg env0 :
  upstreamCalls (logLine level msg env0) = upstreamCalls env0.
Proof. reflexivity. Qed.

Lemma upstreamCalls_snoc w tr lg e :
  upstreamCalls (mkEnv w (tr ++ [ e ]) lg)
  = (length (List.filter isUpstreamCall tr)
     + if isUpstreamCall e then 1 else 0)%nat.
Proof.
  unfold upstreamCalls. cbn [trace].
  rewrite List.filter_app, length_app. cbn [List.filter].
  destruct (isUpstreamCall e); reflexivity.
Qed.

Lemma sendToUpstream_calls chatReq apiKey targetCfg env0 :
  upstreamCalls (snd (sendToUpstream chatReq apiKey targetCfg env0))
  = S (upstreamCalls env0).
Proof.
  unfold sendToUpstream.
  destruct (clientDo _ apiKey chatReq (world env0)) as [answer w].
  assert (H : upstreamCalls
                (mkEnv w (trace env0
                          ++ [ UpstreamCall (tg_BaseURL targetCfg
                                             +:+ tg_PathSuffix targetCfg)
                                            apiKey chatReq ])
                       (logged env0))
              = S (upstreamCalls env0)).
  { rewrite upstreamCalls_snoc. unfold upstreamCalls. cbn. lia. }
  destruct answer as [e|e|e|e|status body]; cbn [snd]; try exact H.
  destruct (400 <=? status); cbn [snd].
  - rewrite upstreamCalls_logLine. exact H.
  - destruct (unmarshalResponse body); cbn [snd];
      rewrite upstreamCalls_logLine; exact H.
Qed.

Lemma sendToUpstream_answers chatReq apiKey targetCfg env0 :
  answersWithSearch (tg_BaseURL targetCfg +:+ tg_PathSuffix targetCfg)
                    apiKey chatReq (world env0) ->
  exists resp choice rest tc,
    fst (sendToUpstream chatReq apiKey targetCfg env0) = Ok resp
    /\ rs_Choices resp = choice :: rest
    /\ In tc (cm_ToolCalls (cc_Message choice))
    /\ tc_Name tc = "web_search".
Proof.
  intros (status & body & w' & resp & choice & rest & tc
          & Hdo & Hstatus & Hbody & Hchoices & Hin & Hname).
  exists resp, choice, rest, tc. repeat split; try assumption.
  unfold sendToUpstream. rewrite Hdo.
  destruct (Z.leb_spec 400 status) as [Hle|Hlt]; [lia|].
  rewrite Hbody. reflexivity.
Qed.

Lemma handleCall_calls st tc :
  upstreamCalls (env (handleCall st tc)) = upstreamCalls (env st).
Proof.
  unfold handleCall.
  destruct (parseQueryFromArguments (tc_Arguments tc)) as [query|e].
  - destruct (managerSearch query _) as [[found|e] w]; cbn [env];
      rewrite ?upstreamCalls_logLine, upstreamCalls_snoc;
      unfold upstreamCalls; cbn; lia.
  - destruct (managerSearch "unknown" _) as [[found|e'] w]; cbn [env];
      rewrite ?upstreamCalls_logLine, upstreamCalls_snoc;
      unfold upstreamCalls; cbn; lia.
Qed.

Lemma handleCalls_calls tcs st :
  upstreamCalls (env (fold_left handleCall tcs st)) = upstreamCalls (env st).
Proof.
  revert st. induction tcs as [|tc tcs IH]; intros st; cbn [fold_left].
  - reflexivity.
  - rewrite IH. apply handleCall_calls.
Qed.

(** Whatever the upstream answers, a run of [remaining] rounds makes at
    most [remaining + 1] calls of [sendToUpstream]. *)
Lemma iterate_calls_bounded remaining chatReq apiKey targetCfg st :
  (upstreamCalls (snd (iterate remaining chatReq apiKey targetCfg st))
   <= upstreamCalls (env st) + remaining + 1)%nat.
Proof.
  revert st. induction remaining as [|remaining IH]; intros st; cbn [iterate].
  - pose proof (sendToUpstream_calls (currentReq chatReq (messages st)) apiKey
                  targetCfg (env st)) as Hsend.
    destruct (sendToUpstream _ apiKey targetCfg (env st)) as [[resp|e] env1];
      cbn [snd] in *; lia.
  - pose proof (sendToUpstream_calls (currentReq chatReq (messages st)) apiKey
                  targetCfg (logLine LevelDebug "web_search iteration" (env st)))
      as Hsend.
    rewrite upstreamCalls_logLine in Hsend.
    destruct (sendToUpstream _ apiKey targetCfg _) as [[resp|e] env1];
      cbn [snd] in *; [|lia].
    destruct (rs_Choices resp) as [|choice rest]; cbn [snd]; [lia|].
    destruct (extractWebSearchCalls _) as [|tc tcs] eqn:Hws; cbn [snd].
    + rewrite upstreamCalls_logLine. lia.
    + etransitivity; [apply IH|].
      rewrite handleCalls_calls. cbn [env].
      rewrite upstreamCalls_logLine. lia.
Qed.

(** Against an upstream that always asks for a search, a run of
    [remaining] rounds makes exactly [remaining + 1] calls and returns the
    response of the last one. *)
Lemma iterate_always_searching remaining chatReq apiKey targetCfg st :
  (forall url key req w, answersWithSearch url key req w) ->
  let r := iterate remaining chatReq apiKey targetCfg st in
  upstreamCalls (snd r) = (upstreamCalls (env st) + remaining + 1)%nat
  /\ ret_err (fst r) = None
  /\ ret_resp (fst r) <> None.
Proof.
  intros Hup. revert st.
  induction remaining as [|remaining IH]; intros st; cbn [iterate].
  - pose proof (sendToUpstream_calls (currentReq chatReq (messages st)) apiKey
                  targetCfg (env st)) as Hsend.
    destruct (sendToUpstream_answers (currentReq chatReq (messages st)) apiKey
                targetCfg (env st) (Hup _ _ _ _))
      as (resp & choice & rest & tc & Hok & _).
    destruct (sendToUpstream _ apiKey targetCfg (env st)) as [[resp'|e] env1];
      cbn [fst snd] in *; [|discriminate].
    split; [lia|]. split; [reflexivity|discriminate].
  - set (env0 := logLine LevelDebug "web_search iteration" (env st)).
    pose proof (sendToUpstream_calls (currentReq chatReq (messages st)) apiKey
                  targetCfg env0) as Hsend.
    destruct (sendToUpstream_answers (currentReq chatReq (messages st)) apiKey
                targetCfg env0 (Hup _ _ _ _))
      as (resp & choice & rest & tc & Hok & Hchoices & Hin & Hname).
    destruct (sendToUpstream _ apiKey targetCfg env0) as [[resp'|e] env1];
      cbn [fst snd] in *; [|discriminate].
    injection Hok as ->. rewrite Hchoices.
    pose proof (extractWebSearchCalls_nonempty _ _ Hin Hname) as Hne.
    destruct (extractWebSearchCalls _) as [|tc' tcs] eqn:Hws; [congruence|].
    match goal with |- context [iterate remaining _ _ _ ?s] =>
      destruct (IH s) as (Hcalls & Herr & Hresp) end.
    rewrite handleCalls_calls in Hcalls. cbn [env] in Hcalls.
    rewrite upstreamCalls_logLine in Hcalls.
    subst env0. rewrite upstreamCalls_logLine in Hsend.
    split; [lia|]. split; assumption.
Qed.

End Handler.

Arguments mkEnv {World} _ _ _.
Arguments world {World} _.
Arguments trace {World} _.
Arguments logged {World} _.
Arguments mkLoopState {World} _ _ _.
Arguments messages {World} _.
Arguments webSearchCalls {World} _.
Arguments env {World} _.
Arguments upstreamCalls {World} _.

(** *** Example surroundings *)

Definition searchToolCall (arguments : string) : ToolCall :=
  mkToolCall "call_ws" "function" "web_search" arguments.

Definition searchingResponse (arguments : string) : ChatCompletionResponse :=
  mkChatCompletionResponse "chatcmpl-1" "chat.completion" 1 "m"
    [ mkChatChoice 0
        (mkChatMessage "assistant" ContentNil EmptyString
           [ searchToolCall arguments ] EmptyString)
        "tool_calls" ]
    (mkChatUsage 0 0 0).

Definition finalResponse : ChatCompletionResponse :=
  mkChatCompletionResponse "chatcmpl-2" "chat.completion" 2 "m"
    [ mkChatChoice 0
        (mkChatMessage "assistant" (ContentString "done") EmptyString []
           EmptyString)
        "stop" ]
    (mkChatUsage 0 0 0).

Definition demoChatRequest : ChatCompletionRequest :=
  mkChatCompletionRequest "m"
    [ mkChatMessage "user" (ContentString "news?") EmptyString [] EmptyString ]
    [ Converter.WebSearchFunctionTool ] true None 0.

Definition demoTarget : TargetConfig :=
  mkTargetConfig "https://api.example.com" "/v1/chat/completions".

(** An upstream that answers every call with a search request; the world
    is the number of calls it has received. *)
Definition searchingUpstream (url key : string) (req : ChatCompletionRequest)
  (w : nat) : Transport * nat :=
  (Received 200 "search", S w).

(** An upstream that asks for a search once and then gives its answer. *)
Definition searchOnceUpstream (url key : string) (req : ChatCompletionRequest)
  (w : nat) : Transport * nat :=
  match w with
  | O => (Received 200 "search", S w)
  | _ => (Received 200 "final", S w)
  end.

(** The decoder of the two bodies; the search request carries the
    argument text [not json]. *)
Definition demoUnmarshalResponse (body : string) : result ChatCompletionResponse :=
  if String.eqb body "search" then Ok (searchingResponse "not json")
  else if String.eqb body "final" then Ok finalResponse
  else Err "unexpected end of JSON input".

(** The decoder of arguments, on texts that are not JSON. *)
Definition failingUnmarshalQuery (args : string) : result string :=
  Err "invalid character 'o' in literal null (expecting 'u')".

Definition emptySearch (query : string) (w : nat)
  : result (option SearchProviderResult) * nat :=
  (Ok (Some (mkSearchProviderResult query [] EmptyString)), w).

(** *** The claims on the loop *)

(** C2. Against an upstream that answers every call with a response
    holding at least one tool call named web_search, a run of
    HandleWithWebSearch, whose bound is 5, makes exactly 6 upstream calls,
    the 5 of the loop and the final one, and returns the last response
    with no error; 6 calls is also the most that any run makes. *)
Theorem always_searching_six_calls (World : Type)
  (clientDo : string -> string -> ChatCompletionRequest -> World -> Transport * World)
  (unmarshalResponse : string -> result ChatCompletionResponse)
  (unmarshalQuery : string -> result string)
  (managerSearch : string -> World -> result (option SearchProviderResult) * World)
  (chatReq : ChatCompletionRequest) (apiKey : string) (targetCfg : TargetConfig)
  (env0 : Env World) :
  (forall url key req w,
     answersWithSearch World clientDo unmarshalResponse url key req w) ->
  let r := HandleWithWebSearch World clientDo unmarshalResponse unmarshalQuery
             managerSearch chatReq apiKey targetCfg env0 in
  upstreamCalls (snd r) = (upstreamCalls env0 + 6)%nat
  /\ ret_err (fst r) = None
  /\ ret_resp (fst r) <> None
  /\ maxIterations = 5%nat.
Proof.
  intros Hup r. subst r. unfold HandleWithWebSearch.
  destruct (iterate_always_searching World clientDo unmarshalResponse
              unmarshalQuery managerSearch maxIterations chatReq apiKey
              targetCfg (mkLoopState (cr_Messages chatReq) [] env0) Hup)
    as (Hcalls & Herr & Hresp).
  cbn [env] in Hcalls. unfold maxIterations in *.
  repeat split; try assumption. lia.
Qed.

Lemma always_searching_six_calls_witness :
  let r := HandleWithWebSearch nat searchingUpstream demoUnmarshalResponse
             failingUnmarshalQuery emptySearch demoChatRequest "Bearer k"
             demoTarget (mkEnv 0%nat [] []) in
  upstreamCalls (snd r) = 6%nat
  /\ ret_err (fst r) = None
  /\ ret_resp (fst r) <> None
  /\ maxIterations = 5%nat.
Proof.
  apply (always_searching_six_calls nat searchingUpstream demoUnmarshalResponse
           failingUnmarshalQuery emptySearch demoChatRequest "Bearer k"
           demoTarget (mkEnv 0%nat [] [])).
  intros url key req w.
  exists 200, "search", (S w), (searchingResponse "not json").
  eexists. exists []. exists (searchToolCall "not json").
  split; [reflexivity|]. split; [reflexivity|]. split; [reflexivity|].
  split; [reflexivity|]. split; [left|]; reflexivity.
Defined.

(** The decoder of arguments on the texts of the examples, as
    [json.Unmarshal] decides them for a struct with the one string field
    query: an object without that field and null decode without error and
    leave the query empty; a text that is not JSON is an error. *)
Definition demoUnmarshalQuery (args : string) : result string :=
  if String.eqb args "{}" then Ok EmptyString
  else if String.eqb args "null" then Ok EmptyString
  else Err "invalid character 'o' in literal null (expecting 'u')".

(** The decoder of the two bodies when the search request carries the
    empty object as its arguments. *)
Definition emptyObjectUnmarshalResponse (body : string)
  : result ChatCompletionResponse :=
  if String.eqb body "search" then Ok (searchingResponse "{}")
  else if String.eqb body "final" then Ok finalResponse
  else Err "unexpected end of JSON input".

(** C6, as the code has it.  When the upstream has asked for web_search
    calls, the query of each call is the sentinel unknown when the
    decoding of its argument string returns an error, and the decoded
    query, empty when the field is absent, when it does not.  In both
    cases the loop searches for that query, records the call with it,
    appends the tool message of the call, and goes on with the remaining
    calls and the next round; the recorded status is failed exactly when
    the search itself returned an error, and completed otherwise. *)
Theorem parse_failure_uses_sentinel (World : Type)
  (clientDo : string -> string -> ChatCompletionRequest -> World -> Transport * World)
  (unmarshalResponse : string -> result ChatCompletionResponse)
  (unmarshalQuery : string -> result string)
  (managerSearch : string -> World -> result (option SearchProviderResult) * World)
  (remaining : nat) (chatReq : ChatCompletionRequest) (apiKey : string)
  (targetCfg : TargetConfig) (st : LoopState World)
  (resp : ChatCompletionResponse) (env1 : Env World)
  (choice : ChatChoice) (rest : list ChatChoice)
  (pre : list ToolCall) (tc : ToolCall) (post : list ToolCall) :
  sendToUpstream World clientDo unmarshalResponse
      (currentReq chatReq (messages st)) apiKey targetCfg
      (logLine World LevelDebug "web_search iteration" (env st))
    = (Ok resp, env1) ->
  rs_Choices resp = choice :: rest ->
  extractWebSearchCalls (cm_ToolCalls (cc_Message choice)) = pre ++ tc :: post ->
  let handle := handleCall World unmarshalQuery managerSearch in
  let before :=
    fold_left handle pre
      (mkLoopState
         (messages st
            ++ [ mkChatMessage "assistant" (cm_Content (cc_Message choice))
                   EmptyString (cm_ToolCalls (cc_Message choice)) EmptyString ])
         (webSearchCalls st)
         (logLine World LevelInfo "detected web_search calls" env1)) in
  let after := handle before tc in
  let query := match unmarshalQuery (tc_Arguments tc) with
               | Err _ => "unknown"
               | Ok decoded => decoded
               end in
  let outcome := fst (managerSearch query (world (env before))) in
  let status := match outcome with
                | Err _ => "failed"
                | Ok _ => "completed"
                end in
  webSearchCalls after
  = webSearchCalls before ++ [ mkWebSearchCall (tc_ID tc) query status ]
  /\ trace (env after) = trace (env before) ++ [ SearchCall query ]
  /\ (exists content,
        messages after
        = messages before
          ++ [ mkChatMessage "tool" (ContentString content) EmptyString []
                 (tc_ID tc) ])
  /\ (status = "failed" <-> exists e', outcome = Err e')
  /\ iterate World clientDo unmarshalResponse unmarshalQuery managerSearch
       (S remaining) chatReq apiKey targetCfg st
     = iterate World clientDo unmarshalResponse unmarshalQuery managerSearch
         remaining chatReq apiKey targetCfg (fold_left handle post after).
Proof.
  intros Hsend Hchoices Hws handle before after query outcome status.
  assert (Hbody :
            webSearchCalls after
            = webSearchCalls before
              ++ [ mkWebSearchCall (tc_ID tc) query status ]
            /\ trace (env after) = trace (env before) ++ [ SearchCall query ]
            /\ exists content,
                 messages after
                 = messages before
                   ++ [ mkChatMessage "tool" (ContentString content) EmptyString []
                          (tc_ID tc) ]).
  { subst after status outcome query handle. unfold handleCall.
    unfold parseQueryFromArguments.
    destruct (unmarshalQuery (tc_Arguments tc)) as [decoded|e];
      cbn [logLine world].
    - destruct (managerSearch decoded (world (env before))) as [[found|e'] w];
        cbn; repeat split; eexists; reflexivity.
    - destruct (managerSearch "unknown" (world (env before))) as [[found|e'] w];
        cbn; repeat split; eexists; reflexivity. }
  destruct Hbody as (Hcalls & Htrace & Hmsg).
  split; [exact Hcalls|]. split; [exact Htrace|]. split; [exact Hmsg|].
  split.
  { subst status. destruct outcome as [found|e'].
    - split; [discriminate|]. intros [e'' H]. discriminate H.
    - split; [|reflexivity]. intros _. exists e'. reflexivity. }
  cbn [iterate]. rewrite Hsend, Hchoices, Hws.
  destruct pre as [|tc0 pre]; cbn [app]; fold handle.
  - reflexivity.
  - subst after before. cbn [fold_left]. rewrite fold_left_app. reflexivity.
Qed.

Lemma parse_failure_uses_sentinel_witness :
  fst (HandleWithWebSearch nat searchOnceUpstream demoUnmarshalResponse
         failingUnmarshalQuery emptySearch demoChatRequest "Bearer k"
         demoTarget (mkEnv 0%nat [] []))
  = mkReturned (Some finalResponse)
      [ mkWebSearchCall "call_ws" "unknown" "completed" ] None.
Proof.
  unfold HandleWithWebSearch, maxIterations.
  destruct (parse_failure_uses_sentinel nat searchOnceUpstream
              demoUnmarshalResponse failingUnmarshalQuery emptySearch
              4 demoChatRequest "Bearer k" demoTarget
              (mkLoopState (cr_Messages demoChatRequest) [] (mkEnv 0%nat [] []))
              (searchingResponse "not json")
              (snd (sendToUpstream nat searchOnceUpstream demoUnmarshalResponse
                      (currentReq demoChatRequest (cr_Messages demoChatRequest))
                      "Bearer k" demoTarget
                      (logLine nat LevelDebug "web_search iteration"
                         (mkEnv 0%nat [] []))))
              (mkChatChoice 0
                 (mkChatMessage "assistant" ContentNil EmptyString
                    [ searchToolCall "not json" ] EmptyString)
                 "tool_calls")
              [] [] (searchToolCall "not json") [])
    as (_ & _ & _ & _ & Hrun).
  - reflexivity.
  - reflexivity.
  - reflexivity.
  - rewrite Hrun. reflexivity.
Defined.

(** C6 as stated fails for an argument string that is JSON without a
    query field: the empty object decodes without error, so the call is
    searched and recorded with the empty query, not with the sentinel. *)
Lemma missing_query_field_not_sentinel :
  let r := HandleWithWebSearch nat searchOnceUpstream
             emptyObjectUnmarshalResponse demoUnmarshalQuery emptySearch
             demoChatRequest "Bearer k" demoTarget (mkEnv 0%nat [] []) in
  ret_calls (fst r) = [ mkWebSearchCall "call_ws" EmptyString "completed" ]
  /\ List.filter (fun e => negb (isUpstreamCall e)) (trace (snd r))
     = [ SearchCall EmptyString ]
  /\ ~ In "unknown" (map ws_Query (ret_calls (fst r))).
Proof.
  vm_compute. repeat split; try reflexivity.
  intros [H|[]]. discriminate H.
Qed.

End WebSearch.

(** ** internal/search: the MCP provider *)

Module MCP.
Import Models Logger.

(** The fields of [MCPProvider] that are set once; the session id, which
    changes, is part of [Env] below. *)
Record MCPProvider := mkMCPProvider {
  p_name : string;
  p_baseURL : string;
  p_apiKey : string;
  p_toolName : string;
  p_queryParam : string;
  p_timeout : Z }.

Inductive Params : Type :=
| mcpInitializeParams (protocolVersion : string)
    (capabilities : list (string * JSON)) (clientInfo : list (string * string))
| mcpToolCallParams (name : string) (arguments : list (string * string)).

Record mcpRequest := mkRequest {
  req_JSONRPC : string;
  req_Method : string;
  req_Params : Params;
  req_ID : Z }.

Record mcpError := mkError {
  err_Code : Z;
  err_Message : string }.

(** [Result] is a [json.RawMessage], kept as its text; [Error] is a
    pointer. *)
Record mcpResponse := mkResponse {
  rsp_JSONRPC : string;
  rsp_Result : string;
  rsp_Error : option mcpError;
  rsp_ID : Z }.

Record mcpSearchResult := mkRawResult {
  raw_Title : string;
  raw_Link : string;
  raw_URL : string;
  raw_Content : string;
  raw_Snippet : string }.

Record contentEntry := mkContentEntry {
  ce_Type : string;
  ce_Text : string }.

Record contentResult := mkContentResult {
  cres_Content : list contentEntry;
  cres_IsError : bool }.

(** The answer of the HTTP client to one POST: the step that failed, or
    the response header and the outcome of reading the body. *)
Inductive HTTPAnswer : Type :=
| MarshalFailed (e : string)
| CreateFailed (e : string)
| SendFailed (e : string)
| Answered (header : list (string * list string)) (body : result string).

(** The POSTs that the provider sets out to make and the resets of its
    session, in order. *)
Inductive Effect : Type :=
| Post (header : list (string * string)) (req : mcpRequest)
| ClearSession.

Definition isToolsCall (e : Effect) : bool :=
  match e with
  | Post _ req => String.eqb (req_Method req) "tools/call"
  | ClearSession => false
  end.

Definition isInitialize (e : Effect) : bool :=
  match e with
  | Post _ req => String.eqb (req_Method req) "initialize"
  | ClearSession => false
  end.

(** How one round of the loop of [Search] ends: with a [return], or with
    [continue]. *)
Inductive Round : Type :=
| Return (r : result SearchProviderResult)
| Continue.

(** *** Header lookup *)

Definition isLower (c : ascii) : bool :=
  let n := nat_of_ascii c in (97 <=? n)%nat && (n <=? 122)%nat.

Definition isUpper (c : ascii) : bool :=
  let n := nat_of_ascii c in (65 <=? n)%nat && (n <=? 90)%nat.

Definition toUpper (c : ascii) : ascii :=
  if isLower c then ascii_of_nat (nat_of_ascii c - 32) else c.

Definition toLower (c : ascii) : ascii :=
  if isUpper c then ascii_of_nat (nat_of_ascii c + 32) else c.

(** [textproto.CanonicalMIMEHeaderKey] on a key made of letters, digits
    and hyphens: the first letter and every letter after a hyphen in upper
    case, the others in lower case. *)
Fixpoint canonicalFrom (upper : bool) (s : string) : string :=
  match s with
  | EmptyString => EmptyString
  | String c rest =>
      String (if upper then toUpper c else toLower c)
             (canonicalFrom (Ascii.eqb c "-"%char) rest)
  end.

Definition CanonicalMIMEHeaderKey (s : string) : string := canonicalFrom true s.

(** [http.Header.Get]: the first value under the canonical form of the
    key, or the empty string. *)
Definition HeaderGet (header : list (string * list string)) (key : string)
  : string :=
  match find (fun entry => String.eqb (fst entry) (CanonicalMIMEHeaderKey key))
             header with
  | Some (_, v :: _) => v
  | _ => EmptyString
  end.

(** [strings.EqualFold] on ASCII keys. *)
Fixpoint EqualFold (s t : string) : bool :=
  match s, t with
  | EmptyString, EmptyString => true
  | String a s', String b t' => Ascii.eqb (toLower a) (toLower b) && EqualFold s' t'
  | _, _ => false
  end.

(** The loop over the header that tries all spellings of the key; the
    list is in the order in which the map is visited. *)
Fixpoint findSessionHeader (header : list (string * list string)) : string :=
  match header with
  | [] => EmptyString
  | (k, v) :: rest =>
      match v with
      | first :: _ =>
          if EqualFold k "mcp-session-id" then first else findSessionHeader rest
      | [] => findSessionHeader rest
      end
  end.

(** [strings.Split] on the line feed. *)
Fixpoint splitLines (s : string) : list string :=
  match s with
  | EmptyString => [ EmptyString ]
  | String c rest =>
      if Ascii.eqb c "010"%char then EmptyString :: splitLines rest
      else match splitLines rest with
           | [] => [ String c EmptyString ]
           | line :: lines => String c line :: lines
           end
  end.

(** [parseSSEResponse]: the payload of the first line that starts with
    the data prefix, or the whole body. *)
Definition parseSSEResponse (body : string) : string :=
  match find (fun line => HasPrefix line "data:") (splitLines body) with
  | Some line => TrimPrefix line "data:"
  | None => body
  end.

(** The name that [%T] prints for a decoded JSON value. *)
Definition typeName (j : JSON) : string :=
  match j with
  | JNull => "<nil>"
  | JBool _ => "bool"
  | JNum _ => "float64"
  | JStr _ => "string"
  | JArr _ => "[]interface {}"
  | JObj _ => "map[string]interface {}"
  end.

Section Provider.

Variable World : Type.

(** [p.client.Do] for a POST to the base URL, with the reading of the
    body. *)
Variable httpPost :
  string -> list (string * string) -> mcpRequest -> World -> HTTPAnswer * World.

(** The uses of [json.Unmarshal]: into an [mcpResponse], into the content
    structure, into an [interface{}], into a slice of results; and the
    re-encoding of a decoded array into a slice of results. *)
Variable unmarshalResponse : string -> result mcpResponse.
Variable unmarshalContent : string -> result contentResult.
Variable unmarshalAny : string -> result JSON.
Variable unmarshalResults : string -> result (list mcpSearchResult).
Variable convertResults : list JSON -> result (list mcpSearchResult).

Variable p : MCPProvider.

Record Env := mkEnv {
  world : World;
  sessionID : string;
  trace : list Effect;
  logged : list LogEntry }.

Definition logLine (level : LogLevel) (msg : string) (env : Env) : Env :=
  mkEnv (world env) (sessionID env) (trace env)
        (logged env ++ [ mkLogEntry level msg ]).

Definition IsAvailable : bool := negb (String.eqb (p_apiKey p) EmptyString).

Definition baseHeader : list (string * string) :=
  [ ("Content-Type", "application/json");
    ("Accept", "application/json, text/event-stream");
    ("Authorization", "Bearer " +:+ p_apiKey p) ].

Definition initializeRequest : mcpRequest :=
  mkRequest "2.0" "initialize"
    (mcpInitializeParams "2024-11-05" []
       [ ("name", "responses2chat"); ("version", "1.0.0") ])
    1.

(** [ensureSession]; [None] is the nil error. *)
Definition ensureSession (env : Env) : option string * Env :=
  if negb (String.eqb (sessionID env) EmptyString) then (None, env)
  else
    let env := logLine LevelDebug "initializing new MCP session" env in
    let '(answer, w) := httpPost (p_baseURL p) baseHeader initializeRequest
                                 (world env) in
    let env := mkEnv w (sessionID env)
                     (trace env ++ [ Post baseHeader initializeRequest ])
                     (logged env) in
    match answer with
    | MarshalFailed e => (Some ("failed to marshal request: " +:+ e), env)
    | CreateFailed e => (Some ("failed to create request: " +:+ e), env)
    | SendFailed e => (Some ("failed to send request: " +:+ e), env)
    | Answered header _ =>
        let env := logLine LevelDebug "MCP response headers" env in
        let id := HeaderGet header "Mcp-Session-Id" in
        let id := if String.eqb id EmptyString
                  then HeaderGet header "mcp-session-id" else id in
        let id := if String.eqb id EmptyString
                  then findSessionHeader header else id in
        let env := mkEnv (world env) id (trace env) (logged env) in
        let env :=
          if String.eqb id EmptyString
          then logLine LevelWarn
                 "no mcp-session-id in response header, continuing without" env
          else env in
        (None, logLine LevelDebug "MCP session initialized" env)
    end.

Definition sendMCPRequest (req : mcpRequest) (env : Env)
  : result mcpResponse * Env :=
  let header :=
    if negb (String.eqb (sessionID env) EmptyString)
    then baseHeader ++ [ ("mcp-session-id", sessionID env) ]
    else baseHeader in
  let '(answer, w) := httpPost (p_baseURL p) header req (world env) in
  let env := mkEnv w (sessionID env) (trace env ++ [ Post header req ])
                   (logged env) in
  match answer with
  | MarshalFailed e => (Err ("failed to marshal request: " +:+ e), env)
  | CreateFailed e => (Err ("failed to create request: " +:+ e), env)
  | SendFailed e => (Err ("failed to send request: " +:+ e), env)
  | Answered _ (Err e) => (Err ("failed to read response: " +:+ e), env)
  | Answered _ (Ok body) =>
      let env := logLine LevelDebug "MCP raw response" env in
      match unmarshalResponse (parseSSEResponse body) with
      | Err e =>
          (Err ("failed to parse response: " +:+ e +:+ " (body: " +:+ body
                +:+ ")"), env)
      | Ok mcpResp => (Ok mcpResp, env)
      end
  end.

Definition clearSession (env : Env) : Env :=
  mkEnv (world env) EmptyString (trace env ++ [ ClearSession ]) (logged env).

Definition toSearchResult (item : mcpSearchResult) : SearchResult :=
  let url := raw_Link item in
  let url := if String.eqb url EmptyString then raw_URL item else url in
  mkSearchResult (raw_Title item) url (raw_Content item) (raw_Snippet item).

Definition parseResults (query text : string) (env : Env)
  : result SearchProviderResult * Env :=
  match unmarshalAny text with
  | Err e =>
      (Err ("failed to parse first JSON: " +:+ e),
       logLine LevelDebug "first parse failed" env)
  | Ok firstParse =>
      let rawResults :=
        match firstParse with
        | JStr v =>
            match unmarshalResults v with
            | Err e => (Err ("failed to parse second JSON: " +:+ e),
                        logLine LevelDebug "second parse failed" env)
            | Ok raw => (Ok raw, env)
            end
        | JArr v =>
            match convertResults v with
            | Err e => (Err ("failed to convert results: " +:+ e), env)
            | Ok raw => (Ok raw, env)
            end
        | other =>
            (Err ("unexpected result type: " +:+ typeName other), env)
        end in
      match rawResults with
      | (Err e, env) => (Err e, env)
      | (Ok raw, env) =>
          (Ok (mkSearchProviderResult query (map toSearchResult raw) EmptyString),
           logLine LevelInfo "MCP search completed" env)
      end
  end.

Definition toolsCallRequest (query : string) : mcpRequest :=
  mkRequest "2.0" "tools/call"
    (mcpToolCallParams (p_toolName p) [ (p_queryParam p, query) ])
    2.

(** The error of a response that sends the loop of [Search] back to a new
    session. *)
Definition isAuthError (e : mcpError) : bool :=
  (err_Code e =? -401) || Contains (err_Message e) "apikey".

(** The body of [for attempt := 0; attempt < 2; attempt++]. *)
Definition attempt (query : string) (env : Env) : Round * Env :=
  match ensureSession env with
  | (Some e, env) =>
      (Return (Err ("failed to establish MCP session: " +:+ e)), env)
  | (None, env) =>
      match sendMCPRequest (toolsCallRequest query) env with
      | (Err e, env) =>
          (Return (Err ("failed to call search tool: " +:+ e)), env)
      | (Ok resp, env) =>
          match rsp_Error resp with
          | Some e =>
              if isAuthError e then (Continue, clearSession env)
              else
                (Return (Err ("search tool error: " +:+ err_Message e
                              +:+ " (code: " +:+ itoa (err_Code e) +:+ ")")),
                 env)
          | None =>
              match unmarshalContent (rsp_Result resp) with
              | Err e =>
                  (Return (Err ("failed to parse content result: " +:+ e)), env)
              | Ok contentResult =>
                  if cres_IsError contentResult then
                    match cres_Content contentResult with
                    | first :: _ =>
                        let errText := ce_Text first in
                        if Contains errText "apikey" || Contains errText "-401"
                        then (Continue, clearSession env)
                        else (Return (Err ("MCP error: " +:+ errText)), env)
                    | [] => (Return (Err "MCP error: unknown error"), env)
                    end
                  else
                    match cres_Content contentResult with
                    | [] => (Return (Err "no content in response"), env)
                    | first :: _ =>
                        let env := logLine LevelDebug "MCP content text" env in
                        let '(r, env) := parseResults query (ce_Text first) env in
                        (Return r, env)
                    end
              end
          end
      end
  end.

(** The loop of [Search] with [remaining] rounds to go. *)
Fixpoint attempts (remaining : nat) (query : string) (env : Env)
  : result SearchProviderResult * Env :=
  match remaining with
  | O => (Err "failed after retry: session error", env)
  | S remaining =>
      match attempt query env with
      | (Return r, env) => (r, env)
      | (Continue, env) => attempts remaining query env
      end
  end.

Definition Search (query : string) (env : Env)
  : result SearchProviderResult * Env :=
  if negb IsAvailable then
    (Err (p_name p +:+ " provider not configured: missing API key"), env)
  else attempts 2 query env.

(** *** Facts about one round *)

Lemma ensureSession_fresh (env0 : Env) :
  sessionID env0 = EmptyString ->
  trace (snd (ensureSession env0))
  = trace env0 ++ [ Post baseHeader initializeRequest ].
Proof.
  intros Hfresh. unfold ensureSession. rewrite Hfresh. cbn [String.eqb negb].
  destruct (httpPost (p_baseURL p) baseHeader initializeRequest _) as [answer w].
  destruct answer as [e|e|e|header body]; cbn [snd trace logLine]; try reflexivity.
  match goal with |- context [if String.eqb ?id EmptyString then _ else _] =>
    destruct (String.eqb id EmptyString) end; reflexivity.
Qed.

Lemma sendMCPRequest_trace (req : mcpRequest) (env0 : Env) :
  exists header,
    trace (snd (sendMCPRequest req env0)) = trace env0 ++ [ Post header req ].
Proof.
  unfold sendMCPRequest.
  match goal with |- context [httpPost _ ?h req _] => exists h end.
  destruct (httpPost _ _ req (world env0)) as [answer w].
  destruct answer as [e|e|e|header [body|e]]; cbn [snd trace]; try reflexivity.
  destruct (unmarshalResponse (parseSSEResponse body)); reflexivity.
Qed.

Lemma parseResults_trace (query text : string) (env0 : Env) :
  trace (snd (parseResults query text env0)) = trace env0.
Proof.
  unfold parseResults.
  destruct (unmarshalAny text) as [firstParse|e]; [|reflexivity].
  destruct firstParse as [| | |v|v|]; try reflexivity.
  - destruct (unmarshalResults v); reflexivity.
  - destruct (convertResults v); reflexivity.
Qed.

(** A round that starts without a session begins with the handshake; it
    then makes exactly one tools/call when the handshake went through,
    none otherwise, and no other handshake. *)
Lemma attempt_trace_fresh (query : string) (env0 : Env) :
  sessionID env0 = EmptyString ->
  exists rest,
    trace (snd (attempt query env0))
    = trace env0 ++ Post baseHeader initializeRequest :: rest
    /\ length (List.filter isToolsCall rest)
       = match fst (ensureSession env0) with
         | None => 1%nat
         | Some _ => 0%nat
         end
    /\ List.filter isInitialize rest = [].
Proof.
  intros Hfresh. unfold attempt.
  pose proof (ensureSession_fresh env0 Hfresh) as Hensure.
  destruct (ensureSession env0) as [[e|] envA]; cbn [fst snd] in *.
  { exists []. rewrite Hensure. repeat split. }
  destruct (sendMCPRequest_trace (toolsCallRequest query) envA) as [header Hsend].
  assert (Hgoal : forall env',
            trace env' = trace envA ++ [ Post header (toolsCallRequest query) ]
            \/ trace env' = (trace envA ++ [ Post header (toolsCallRequest query) ])
                            ++ [ ClearSession ] ->
            exists rest,
              trace env' = trace env0 ++ Post baseHeader initializeRequest :: rest
              /\ length (List.filter isToolsCall rest) = 1%nat
              /\ List.filter isInitialize rest = []).
  { intros env' [H|H]; rewrite H, Hensure, <- !app_assoc.
    - exists [ Post header (toolsCallRequest query) ]. repeat split.
    - exists [ Post header (toolsCallRequest query); ClearSession ].
      repeat split. }
  destruct (sendMCPRequest (toolsCallRequest query) envA) as [[resp|e] envB];
    cbn [snd] in *; [|apply Hgoal; left; exact Hsend].
  destruct (rsp_Error resp) as [e|].
  { destruct (isAuthError e); cbn [snd]; apply Hgoal.
    - right. cbn. now rewrite Hsend.
    - left. exact Hsend. }
  destruct (unmarshalContent (rsp_Result resp)) as [content|e];
    cbn [snd]; [|apply Hgoal; left; exact Hsend].
  destruct (cres_IsError content).
  - destruct (cres_Content content) as [|first rest];
      cbn [snd]; [apply Hgoal; left; exact Hsend|].
    destruct (Contains (ce_Text first) "apikey" || Contains (ce_Text first) "-401");
      cbn [snd]; apply Hgoal.
    + right. cbn. now rewrite Hsend.
    + left. exact Hsend.
  - destruct (cres_Content content) as [|first rest];
      cbn [snd]; [apply Hgoal; left; exact Hsend|].
    pose proof (parseResults_trace query (ce_Text first)
                  (logLine LevelDebug "MCP content text" envB)) as Hparse.
    destruct (parseResults query (ce_Text first) _) as [r envC].
    cbn [snd] in *. apply Hgoal. left. now rewrite Hparse.
Qed.

End Provider.

Arguments mkEnv {World} _ _ _ _.
Arguments world {World} _.
Arguments sessionID {World} _.
Arguments trace {World} _.
Arguments logged {World} _.

(** *** Example servers *)

(** The JSON text of an error envelope. *)
Definition errorBody (code message : string) : string :=
  "{" +:+ q "jsonrpc" +:+ ":" +:+ q "2.0" +:+ "," +:+ q "error" +:+ ":{"
  +:+ q "code" +:+ ":" +:+ code +:+ "," +:+ q "message" +:+ ":" +:+ q message
  +:+ "}," +:+ q "id" +:+ ":2}".

(** The result field of an envelope with one text content, and the
    envelope around it. *)
Definition contentText (text : string) : string :=
  "{" +:+ q "content" +:+ ":[{" +:+ q "type" +:+ ":" +:+ q "text" +:+ ","
  +:+ q "text" +:+ ":" +:+ q text +:+ "}]}".

Definition resultBody (text : string) : string :=
  "{" +:+ q "jsonrpc" +:+ ":" +:+ q "2.0" +:+ "," +:+ q "result" +:+ ":"
  +:+ contentText text +:+ "," +:+ q "id" +:+ ":2}".

Definition demoProvider : MCPProvider :=
  mkMCPProvider "zhipu" "https://mcp.example.com/mcp" "key-1" "webSearchPrime"
    "search_query" 30.

(** A server whose first session has expired: the world is the number of
    POSTs received; a handshake gives a new session id, the first
    tools/call is refused with code -401, the next ones answer with an
    empty result array in an event-stream wrapping. *)
Definition expiredPost (url : string) (header : list (string * string))
  (req : mcpRequest) (w : nat) : HTTPAnswer * nat :=
  if String.eqb (req_Method req) "initialize" then
    (Answered [ ("Mcp-Session-Id", [ if (w =? 0)%nat then "sess-1" else "sess-2" ]) ]
              (Ok EmptyString), S w)
  else if (w <=? 1)%nat then
    (Answered [] (Ok (errorBody "-401" "session expired")), S w)
  else
    (Answered [] (Ok ("event:message" +:+ nl +:+ "data:" +:+ resultBody "[]")),
     S w).

(** A server that refuses every tools/call with code -32000. *)
Definition busyPost (url : string) (header : list (string * string))
  (req : mcpRequest) (w : nat) : HTTPAnswer * nat :=
  if String.eqb (req_Method req) "initialize" then
    (Answered [ ("Mcp-Session-Id", [ "sess-1" ]) ] (Ok EmptyString), S w)
  else (Answered [] (Ok (errorBody "-32000" "server busy")), S w).

(** The decoders of the texts above. *)
Definition demoUnmarshalResponse (data : string) : result mcpResponse :=
  if String.eqb data (errorBody "-401" "session expired") then
    Ok (mkResponse "2.0" EmptyString (Some (mkError (-401) "session expired")) 2)
  else if String.eqb data (errorBody "-32000" "server busy") then
    Ok (mkResponse "2.0" EmptyString (Some (mkError (-32000) "server busy")) 2)
  else if String.eqb data (resultBody "[]") then
    Ok (mkResponse "2.0" (contentText "[]") None 2)
  else Err "unexpected end of JSON input".

Definition demoUnmarshalContent (data : string) : result contentResult :=
  if String.eqb data (contentText "[]")
  then Ok (mkContentResult [ mkContentEntry "text" "[]" ] false)
  else Err "unexpected end of JSON input".

Definition demoUnmarshalAny (data : string) : result JSON :=
  if String.eqb data "[]" then Ok (JArr [])
  else Err "unexpected end of JSON input".

Definition demoUnmarshalResults (data : string) : result (list mcpSearchResult) :=
  Err "unexpected end of JSON input".

Definition demoConvertResults (items : list JSON) : result (list mcpSearchResult) :=
  match items with
  | [] => Ok []
  | _ => Err "json: cannot unmarshal"
  end.

(** *** The claim on the retry *)

(** C4, as the code has it.  When the first tools/call of a Search is
    answered with an error envelope, two cases are told apart.  If the
    code is -401 or the message contains apikey, the provider clears its
    session id and runs one more round: that round starts with a new
    handshake and makes exactly one tools/call when the handshake goes
    through, none otherwise, and Search returns what that round returns,
    the session error if it ends in the same way once more.  For any
    other code with any other message, Search returns the search tool
    error at once, in the state the first call left: the session is kept
    and neither a handshake nor a second tools/call follows. *)
Theorem auth_error_retries_once (World : Type)
  (httpPost : string -> list (string * string) -> mcpRequest -> World
              -> HTTPAnswer * World)
  (unmarshalResponse : string -> result mcpResponse)
  (unmarshalContent : string -> result contentResult)
  (unmarshalAny : string -> result JSON)
  (unmarshalResults : string -> result (list mcpSearchResult))
  (convertResults : list JSON -> result (list mcpSearchResult))
  (p : MCPProvider) (query : string)
  (env0 envA envB : Env World) (resp : mcpResponse) (e : mcpError) :
  IsAvailable p = true ->
  ensureSession World httpPost p env0 = (None, envA) ->
  sendMCPRequest World httpPost unmarshalResponse p (toolsCallRequest p query) envA
    = (Ok resp, envB) ->
  rsp_Error resp = Some e ->
  let envC := clearSession World envB in
  let retry := attempt World httpPost unmarshalResponse unmarshalContent
                 unmarshalAny unmarshalResults convertResults p query envC in
  let run := Search World httpPost unmarshalResponse unmarshalContent
               unmarshalAny unmarshalResults convertResults p query env0 in
  (err_Code e = -401 \/ Contains (err_Message e) "apikey" = true ->
   sessionID envC = EmptyString
   /\ trace envC = trace envB ++ [ ClearSession ]
   /\ (exists rest,
         trace (snd retry)
         = trace envC ++ Post (baseHeader p) initializeRequest :: rest
         /\ length (List.filter isToolsCall rest)
            = match fst (ensureSession World httpPost p envC) with
              | None => 1%nat
              | Some _ => 0%nat
              end
         /\ List.filter isInitialize rest = [])
   /\ run = (match fst retry with
             | Return r => r
             | Continue => Err "failed after retry: session error"
             end, snd retry))
  /\ (err_Code e <> -401 -> Contains (err_Message e) "apikey" = false ->
      run = (Err ("search tool error: " +:+ err_Message e
                  +:+ " (code: " +:+ itoa (err_Code e) +:+ ")"), envB)).
Proof.
  intros Havail Hensure Hsend Herror envC retry run. split.
  - intros Hauth.
    split; [reflexivity|]. split; [reflexivity|]. split.
    { apply attempt_trace_fresh. reflexivity. }
    assert (Hfirst : attempt World httpPost unmarshalResponse unmarshalContent
                       unmarshalAny unmarshalResults convertResults p query env0
                     = (Continue, envC)).
    { unfold attempt. rewrite Hensure, Hsend, Herror.
      assert (Hyes : isAuthError e = true).
      { unfold isAuthError. destruct Hauth as [Hcode|Hmsg].
        - rewrite Hcode. reflexivity.
        - rewrite Hmsg. apply orb_true_r. }
      rewrite Hyes. reflexivity. }
    subst run. unfold Search. rewrite Havail. cbn [negb attempts].
    rewrite Hfirst. fold retry. destruct retry as [[r|] envD]; reflexivity.
  - intros Hcode Hmsg.
    assert (Hno : isAuthError e = false).
    { unfold isAuthError. rewrite Hmsg.
      apply Z.eqb_neq in Hcode. rewrite Hcode. reflexivity. }
    subst run. unfold Search. rewrite Havail. cbn [negb attempts].
    unfold attempt. rewrite Hensure, Hsend, Herror, Hno. reflexivity.
Qed.

Lemma auth_error_retries_once_witness :
  let r := Search nat expiredPost demoUnmarshalResponse demoUnmarshalContent
             demoUnmarshalAny demoUnmarshalResults demoConvertResults
             demoProvider "rocq" (mkEnv 0%nat EmptyString [] []) in
  fst r = Ok (mkSearchProviderResult "rocq" [] EmptyString)
  /\ map isToolsCall (trace (snd r)) = [ false; true; false; false; true ]
  /\ map isInitialize (trace (snd r)) = [ true; false; false; true; false ]
  /\ sessionID (snd r) = "sess-2".
Proof.
  destruct (auth_error_retries_once nat expiredPost demoUnmarshalResponse
              demoUnmarshalContent demoUnmarshalAny demoUnmarshalResults
              demoConvertResults demoProvider "rocq"
              (mkEnv 0%nat EmptyString [] [])
              (snd (ensureSession nat expiredPost demoProvider
                      (mkEnv 0%nat EmptyString [] [])))
              (snd (sendMCPRequest nat expiredPost demoUnmarshalResponse
                      demoProvider (toolsCallRequest demoProvider "rocq")
                      (snd (ensureSession nat expiredPost demoProvider
                              (mkEnv 0%nat EmptyString [] [])))))
              (mkResponse "2.0" EmptyString
                 (Some (mkError (-401) "session expired")) 2)
              (mkError (-401) "session expired"))
    as (Hretry & _).
  - reflexivity.
  - reflexivity.
  - reflexivity.
  - reflexivity.
  - destruct (Hretry (or_introl eq_refl)) as (_ & _ & _ & Hrun).
    cbv zeta. rewrite Hrun. vm_compute. repeat split; reflexivity.
Defined.

(** C4 as stated fails for a negative error code other than -401: a first
    tools/call refused with code -32000 and a message that does not
    mention the key is returned to the caller at once; the session is
    kept, no handshake follows and no second tools/call is made. *)
Lemma negative_code_not_retried :
  let r := Search nat busyPost demoUnmarshalResponse demoUnmarshalContent
             demoUnmarshalAny demoUnmarshalResults demoConvertResults
             demoProvider "rocq" (mkEnv 0%nat EmptyString [] []) in
  fst r = Err "search tool error: server busy (code: -32000)"
  /\ map isToolsCall (trace (snd r)) = [ false; true ]
  /\ map isInitialize (trace (snd r)) = [ true; false ]
  /\ ~ In ClearSession (trace (snd r))
  /\ sessionID (snd r) = "sess-1".
Proof.
  vm_compute. repeat split; try reflexivity.
  intros [H|[H|[]]]; discriminate H.
Qed.

End MCP.

(** ** internal/search/manager.go: the manager of the providers *)

Module Manager.
Import Models Logger.

Record ProviderConfig := mkProviderConfig {
  pc_Type : string;
  pc_BaseURL : string;
  pc_APIKey : string;
  pc_ToolName : string;
  pc_QueryParam : string;
  pc_Timeout : Z;
  pc_MaxResults : Z }.

Record WebSearchConfig := mkWebSearchConfig {
  wsc_Enabled : bool;
  wsc_Default : string;
  wsc_Providers : gmap string ProviderConfig }.

Record FirecrawlProvider := mkFirecrawlProvider {
  fp_name : string;
  fp_apiKey : string;
  fp_baseURL : string;
  fp_timeout : Z;
  fp_maxResults : Z }.

(** [NewMCPProvider]: the empty fields of the configuration get their
    defaults. *)
Definition NewMCPProvider (name : string) (cfg : ProviderConfig)
  : MCP.MCPProvider :=
  let baseURL :=
    if String.eqb (pc_BaseURL cfg) EmptyString
    then "https://open.bigmodel.cn/api/mcp/web_search_prime/mcp"
    else pc_BaseURL cfg in
  let timeout := if pc_Timeout cfg =? 0 then 30 else pc_Timeout cfg in
  let toolName :=
    if String.eqb (pc_ToolName cfg) EmptyString then "webSearchPrime"
    else pc_ToolName cfg in
  let queryParam :=
    if String.eqb (pc_QueryParam cfg) EmptyString then "search_query"
    else pc_QueryParam cfg in
  MCP.mkMCPProvider name baseURL (pc_APIKey cfg) toolName queryParam timeout.

(** [NewFirecrawlProvider]. *)
Definition NewFirecrawlProvider (name : string) (cfg : ProviderConfig)
  : FirecrawlProvider :=
  let baseURL :=
    if String.eqb (pc_BaseURL cfg) EmptyString
    then "https://api.firecrawl.dev/v2" else pc_BaseURL cfg in
  let timeout := if pc_Timeout cfg =? 0 then 30 else pc_Timeout cfg in
  let maxResults := if pc_MaxResults cfg =? 0 then 5 else pc_MaxResults cfg in
  mkFirecrawlProvider name (pc_APIKey cfg) baseURL timeout maxResults.

(** The two implementations of the interface [Provider]. *)
Inductive Provider : Type :=
| MCPProv (p : MCP.MCPProvider)
| FirecrawlProv (p : FirecrawlProvider).

Definition Name (p : Provider) : string :=
  match p with
  | MCPProv p => MCP.p_name p
  | FirecrawlProv p => fp_name p
  end.

Definition IsAvailable (p : Provider) : bool :=
  match p with
  | MCPProv p => MCP.IsAvailable p
  | FirecrawlProv p => negb (String.eqb (fp_apiKey p) EmptyString)
  end.

Record Manager := mkManager {
  providers : gmap string Provider;
  defaultProvider : string;
  enabled : bool }.

(** One round of the loop of [NewManager] over the configured providers;
    the second component is the log. *)
Definition registerProvider (acc : gmap string Provider * list LogEntry)
  (entry : string * ProviderConfig) : gmap string Provider * list LogEntry :=
  let '(registered, log) := acc in
  let '(name, providerCfg) := entry in
  if String.eqb (pc_APIKey providerCfg) EmptyString then
    (registered,
     log ++ [ mkLogEntry LevelDebug "skipping provider with no API key" ])
  else if String.eqb (pc_Type providerCfg) "mcp" then
    (<[name := MCPProv (NewMCPProvider name providerCfg)]> registered,
     log ++ [ mkLogEntry LevelInfo "provider initialized" ])
  else if String.eqb (pc_Type providerCfg) "firecrawl" then
    (<[name := FirecrawlProv (NewFirecrawlProvider name providerCfg)]> registered,
     log ++ [ mkLogEntry LevelInfo "provider initialized" ])
  else
    (registered,
     log ++ [ mkLogEntry LevelWarn "unknown provider type, skipping" ]).

(** The first provider of the list that is available, as the loops over
    the map of providers find it. *)
Fixpoint firstAvailable (l : list (string * Provider))
  : option (string * Provider) :=
  match l with
  | [] => None
  | (name, p) :: rest =>
      if IsAvailable p then Some (name, p) else firstAvailable rest
  end.

Section Manager.

Variable World : Type.

(** The method [Search] of a provider. *)
Variable providerSearch :
  Provider -> string -> World -> result (option SearchProviderResult) * World.

(** The orders in which the three loops visit their maps. *)
Variable rangeConfig :
  gmap string ProviderConfig -> list (string * ProviderConfig).
Variable rangeHas : gmap string Provider -> list (string * Provider).
Variable rangeSearch : gmap string Provider -> list (string * Provider).

(** [NewManager], with what it logs. *)
Definition NewManager (cfg : WebSearchConfig) : Manager * list LogEntry :=
  if negb (wsc_Enabled cfg) then
    (mkManager ∅ (wsc_Default cfg) (wsc_Enabled cfg),
     [ mkLogEntry LevelInfo "web search is disabled" ])
  else
    let '(registered, log) :=
      fold_left registerProvider (rangeConfig (wsc_Providers cfg)) (∅, []) in
    (mkManager registered (wsc_Default cfg) (wsc_Enabled cfg),
     log ++ [ mkLogEntry LevelInfo "search manager initialized" ]).

(** [HasAvailableProvider]. *)
Definition HasAvailableProvider (m : Manager) : bool :=
  if negb (enabled m) then false
  else match firstAvailable (rangeHas (providers m)) with
       | Some _ => true
       | None => false
       end.

(** The world, the searches passed on to providers, each with the name
    under which its provider is registered, and the log. *)
Record Env := mkEnv {
  world : World;
  called : list (string * string);
  logged : list LogEntry }.

Definition logLine (level : LogLevel) (msg : string) (env : Env) : Env :=
  mkEnv (world env) (called env) (logged env ++ [ mkLogEntry level msg ]).

(** [p.Search(query)] for the provider registered as [name]. *)
Definition callProvider (name : string) (p : Provider) (query : string)
  (env : Env) : result (option SearchProviderResult) * Env :=
  let '(r, w) := providerSearch p query (world env) in
  (r, mkEnv w (called env ++ [ (name, query) ]) (logged env)).

(** [Manager.Search]. *)
Definition Search (m : Manager) (query : string) (env : Env)
  : result (option SearchProviderResult) * Env :=
  if negb (enabled m) then (Err "web search is disabled", env)
  else
    let preferred :=
      if negb (String.eqb (defaultProvider m) EmptyString) then
        match providers m !! defaultProvider m with
        | Some p => if IsAvailable p then Some p else None
        | None => None
        end
      else None in
    match preferred with
    | Some p => callProvider (defaultProvider m) p query env
    | None =>
        match firstAvailable (rangeSearch (providers m)) with
        | Some (name, p) =>
            callProvider name p query
              (logLine LevelDebug "using fallback provider" env)
        | None => (Err "no available search provider", env)
        end
    end.

(** [SearchWithProvider]. *)
Definition SearchWithProvider (m : Manager) (providerName query : string)
  (env : Env) : result (option SearchProviderResult) * Env :=
  if negb (enabled m) then (Err "web search is disabled", env)
  else
    match providers m !! providerName with
    | None => (Err ("provider not found: " +:+ providerName), env)
    | Some p =>
        if negb (IsAvailable p)
        then (Err ("provider not available: " +:+ providerName), env)
        else callProvider providerName p query env
    end.

End Manager.

Arguments mkEnv {World} _ _ _.
Arguments world {World} _.
Arguments called {World} _.
Arguments logged {World} _.

End Manager.

(** ** internal/handler: the helpers of the proxy handler *)

Module Handler.
Import Models.

(** [strings.Split] on a separator of one character. *)
Fixpoint Split (s : string) (sep : ascii) : list string :=
  match s with
  | EmptyString => [ EmptyString ]
  | String c rest =>
      if Ascii.eqb c sep then EmptyString :: Split rest sep
      else match Split rest sep with
           | [] => [ String c EmptyString ]
           | part :: parts => String c part :: parts
           end
  end.

(** [strings.Join]. *)
Fixpoint Join (elems : list string) (sep : string) : string :=
  match elems with
  | [] => EmptyString
  | e :: rest =>
      match rest with
      | [] => e
      | _ => e +:+ sep +:+ Join rest sep
      end
  end.

(** The body of the loop of [convertMessagesToOutput] for the message at
    index [i]. *)
Definition convertMessage (i : Z) (output : list OutputItem) (msg : ChatMessage)
  : list OutputItem :=
  if String.eqb (cm_Role msg) "system" then output
  else
    let item := mkOutputItem EmptyString ("msg_" +:+ itoa i) (cm_Role msg) []
                  EmptyString EmptyString EmptyString EmptyString in
    let item :=
      match cm_Content msg with
      | ContentString v =>
          if negb (String.eqb v EmptyString) then
            mkOutputItem "message" (oi_ID item) (oi_Role item)
              [ mkContentItem "output_text" v EmptyString EmptyString ]
              (oi_CallID item) (oi_Name item) (oi_Arguments item)
              (oi_Status item)
          else item
      | _ => item
      end in
    let output :=
      fold_left
        (fun output tc =>
           output ++ [ mkOutputItem "function_call" ("fc_" +:+ itoa i)
                         EmptyString [] (tc_ID tc) (tc_Name tc)
                         (tc_Arguments tc) "completed" ])
        (cm_ToolCalls msg) output in
    if negb (String.eqb (oi_Type item) EmptyString) then output ++ [ item ]
    else output.

Fixpoint convertMessagesFrom (i : Z) (messages : list ChatMessage)
  (output : list OutputItem) : list OutputItem :=
  match messages with
  | [] => output
  | msg :: rest => convertMessagesFrom (i + 1) rest (convertMessage i output msg)
  end.

(** [convertMessagesToOutput]. *)
Definition convertMessagesToOutput (messages : list ChatMessage)
  : list OutputItem :=
  convertMessagesFrom 0 messages [].

(** The loop of [extractResponseID] over the parts of the path. *)
Fixpoint afterResponses (parts : list string) : string :=
  match parts with
  | [] => EmptyString
  | part :: rest =>
      if String.eqb part "responses" then
        match rest with
        | next :: _ => next
        | [] => afterResponses rest
        end
      else afterResponses rest
  end.

(** [extractResponseID]. *)
Definition extractResponseID (path : string) : string :=
  if HasPrefix path "/v1/responses/" then TrimPrefix path "/v1/responses/"
  else afterResponses (Split path "/"%char).

(** [parseProvider], from the header and the path of the request. *)
Definition parseProvider (header : list (string * list string)) (path : string)
  : string :=
  let provider := MCP.HeaderGet header "X-Target-Provider" in
  if negb (String.eqb provider EmptyString) then provider
  else
    let fromPath :=
      if HasPrefix path "/" then
        let parts := Split (TrimPrefix path "/") "/"%char in
        let n := length parts in
        if (3 <=? n)%nat
           && String.eqb (nth (n - 2) parts EmptyString) "v1"
           && String.eqb (nth (n - 1) parts EmptyString) "responses"
        then
          let provider := Join (firstn (n - 2) parts) "/" in
          if negb (String.eqb provider EmptyString)
             && negb (String.eqb provider "v1")
          then Some provider else None
        else None
      else None in
    match fromPath with
    | Some provider => provider
    | None => "default"
    end.

End Handler.

(** ** internal/storage: the conversation store *)

Module Storage.
Import Models.

Section Store.

(** The state of the disk. *)
Variable World : Type.

(** [json.Marshal] and [json.Unmarshal] of a history. *)
Variable marshal : list ChatMessage -> result string.
Variable unmarshal : string -> result (list ChatMessage).

(** The reasons for which the bucket refuses a key or a value, and the
    outcome of the commit of a transaction. *)
Variable putError : string -> string -> option string.
Variable commit : World -> option string * World.

(** The bucket of the conversations and the disk. *)
Record State := mkState {
  bucket : gmap string string;
  world : World }.

(** [Store]; [None] is the nil error.  A transaction that fails is rolled
    back. *)
Definition Store (responseID : string) (messages : list ChatMessage)
  (st : State) : option string * State :=
  match marshal messages with
  | Err e => (Some e, st)
  | Ok data =>
      match putError responseID data with
      | Some e => (Some e, st)
      | None =>
          let '(failure, w) := commit (world st) in
          match failure with
          | Some e => (Some e, mkState (bucket st) w)
          | None => (None, mkState (<[responseID := data]> (bucket st)) w)
          end
      end
  end.

(** [Get]; [None] is the answer [(nil, false)]. *)
Definition Get (responseID : string) (st : State)
  : option (list ChatMessage) :=
  match bucket st !! responseID with
  | None => None
  | Some data =>
      match unmarshal data with
      | Err _ => None
      | Ok [] => None
      | Ok messages => Some messages
      end
  end.

(** [Delete]. *)
Definition Delete (responseID : string) (st : State) : option string * State :=
  let '(failure, w) := commit (world st) in
  match failure with
  | Some e => (Some e, mkState (bucket st) w)
  | None => (None, mkState (delete responseID (bucket st)) w)
  end.

End Store.

Arguments mkState {World} _ _.
Arguments bucket {World} _.
Arguments world {World} _.

End Storage.

(** * Further properties of the code *)

(** ** Strings *)

Module StringFacts.

Lemma append_cons (c : ascii) (s t : string) :
  String c s +:+ t = String c (s +:+ t).
Proof. reflexivity. Qed.

Lemma append_nil_r (s : string) : s +:+ EmptyString = s.
Proof.
  induction s as [|c s IH]; [reflexivity|].
  rewrite append_cons. f_equal. exact IH.
Qed.

Lemma append_assoc (s t u : string) : (s +:+ t) +:+ u = s +:+ (t +:+ u).
Proof.
  induction s as [|c s IH]; [reflexivity|].
  rewrite !append_cons. f_equal. exact IH.
Qed.

Lemma length_append (s t : string) :
  String.length (s +:+ t) = (String.length s + String.length t)%nat.
Proof.
  induction s as [|c s IH]; [reflexivity|].
  rewrite append_cons. cbn [String.length]. rewrite IH. reflexivity.
Qed.

Lemma prefix_append (p s : string) : String.prefix p (p +:+ s) = true.
Proof.
  induction p as [|c p IH].
  - destruct s; reflexivity.
  - rewrite append_cons. cbn [String.prefix].
    destruct (Ascii.ascii_dec c c) as [_|Hne]; [exact IH|congruence].
Qed.

Lemma substring_all (s : string) : String.substring 0 (String.length s) s = s.
Proof.
  induction s as [|c s IH]; [reflexivity|].
  cbn [String.length String.substring]. f_equal. exact IH.
Qed.

Lemma substring_skip (p s : string) (n : nat) :
  String.substring (String.length p) n (p +:+ s) = String.substring 0 n s.
Proof.
  induction p as [|c p IH]; [reflexivity|].
  rewrite append_cons. cbn [String.length String.substring]. exact IH.
Qed.

Lemma length_substring_le (n m : nat) (s : string) :
  (String.length (String.substring n m s) <= m)%nat.
Proof.
  revert n m. induction s as [|c s IH]; intros n m.
  - destruct n, m; cbn; lia.
  - destruct n as [|n]; destruct m as [|m]; cbn [String.substring String.length];
      try lia.
    + specialize (IH 0%nat m). lia.
    + apply IH.
    + apply IH.
Qed.

Lemma length_substring_0 (m : nat) (s : string) :
  (m <= String.length s)%nat -> String.length (String.substring 0 m s) = m.
Proof.
  revert m. induction s as [|c s IH]; intros m Hm; cbn [String.length] in Hm.
  - destruct m; [reflexivity|lia].
  - destruct m as [|m]; [reflexivity|].
    cbn [String.substring String.length]. rewrite IH; lia.
Qed.

(** [strings.TrimPrefix] takes a prefix off. *)
Lemma TrimPrefix_append (p s : string) : TrimPrefix (p +:+ s) p = s.
Proof.
  unfold TrimPrefix, HasPrefix. rewrite prefix_append, length_append.
  replace (String.length p + String.length s - String.length p)%nat
    with (String.length s) by lia.
  rewrite substring_skip. apply substring_all.
Qed.

Lemma prefix_true_append (p s : string) :
  String.prefix p s = true -> exists t, s = p +:+ t.
Proof.
  revert s. induction p as [|c p IH]; intros s H.
  - exists s. reflexivity.
  - destruct s as [|d s]; cbn [String.prefix] in H; [discriminate|].
    destruct (Ascii.ascii_dec c d) as [->|Hne]; [|discriminate].
    destruct (IH s H) as [t ->]. exists t. reflexivity.
Qed.

End StringFacts.

(** ** Request translation *)

Module ConverterFacts.
Import Models Converter.

(** Whether an input item yields a message: it has one of the three known
    types, and a role when it is a message. *)
Definition yieldsMessage (item : InputItem) : bool :=
  (String.eqb (in_Type item) "message"
   && negb (String.eqb (in_Role item) EmptyString))
  || String.eqb (in_Type item) "function_call"
  || String.eqb (in_Type item) "function_call_output".

Lemma yieldsMessage_spec (item : InputItem) (dev : bool) :
  yieldsMessage item = true <-> convertInputItemToMessage item dev <> None.
Proof.
  unfold yieldsMessage, convertInputItemToMessage, convertMessageItem,
    convertFunctionCallItem, convertFunctionCallOutputItem.
  destruct (String.eqb (in_Type item) "message") eqn:Hm.
  - destruct (String.eqb (in_Role item) EmptyString); cbn.
    + apply String.eqb_eq in Hm. rewrite Hm. cbn. split; [discriminate|tauto].
    + split; [discriminate|reflexivity].
  - cbn. destruct (String.eqb (in_Type item) "function_call"); cbn.
    + split; [discriminate|reflexivity].
    + destruct (String.eqb (in_Type item) "function_call_output"); cbn.
      * split; [discriminate|reflexivity].
      * split; [discriminate|tauto].
Qed.

Lemma omap_cons {A B : Type} (f : A -> option B) (x : A) (l : list A) :
  omap f (x :: l)
  = match f x with
    | Some y => y :: omap f l
    | None => omap f l
    end.
Proof. reflexivity. Qed.

Lemma length_inputMessages (dev : bool) (input : list InputItem) :
  length (inputMessages dev input) = length (List.filter yieldsMessage input).
Proof.
  unfold inputMessages. induction input as [|item input IH]; [reflexivity|].
  rewrite omap_cons. cbn [List.filter].
  pose proof (yieldsMessage_spec item dev) as Hspec.
  destruct (convertInputItemToMessage item dev) as [msg|];
    destruct (yieldsMessage item); cbn [length].
  - now rewrite IH.
  - exfalso. assert (H : false = true) by (apply Hspec; discriminate).
    discriminate H.
  - exfalso. apply Hspec; reflexivity.
  - exact IH.
Qed.

Lemma inputMessages_all (dev : bool) (input : list InputItem) :
  Forall (fun item => yieldsMessage item = true) input ->
  map Some (inputMessages dev input)
  = map (fun item => convertInputItemToMessage item dev) input.
Proof.
  unfold inputMessages. induction 1 as [|item input Hitem _ IH]; [reflexivity|].
  rewrite omap_cons. cbn [map]. apply (yieldsMessage_spec item dev) in Hitem.
  destruct (convertInputItemToMessage item dev) as [msg|]; [|congruence].
  cbn [map]. now rewrite IH.
Qed.

(** The messages of a translated request: the system message or nothing,
    then the history, then the translated input. *)
Lemma ConvertRequest_messages req modelMapping history dev :
  cr_Messages (fst (ConvertRequest req modelMapping history dev))
  = (if negb (String.eqb (rq_Instructions req) EmptyString)
        && negb (hasSystemMsg history)
     then [ systemMessage (rq_Instructions req) ] else [])
    ++ history ++ inputMessages dev (rq_Input req).
Proof.
  unfold ConvertRequest.
  destruct (fold_left appendTool (rq_Tools req) ([], false)) as [tools flag].
  cbn [fst cr_Messages]. rewrite fold_appendInputItem.
  destruct (negb (String.eqb (rq_Instructions req) EmptyString));
    [destruct (negb (hasSystemMsg history))|]; reflexivity.
Qed.

(** With empty instructions nothing is put in front of the history: the
    messages are the history followed by the translated input.  The
    translated input keeps the order of the items, holds one message for
    each item of a known type (with a role, for a message item) and
    nothing for the others. *)
Theorem no_instructions_keeps_order req modelMapping history dev :
  rq_Instructions req = EmptyString ->
  let messages := cr_Messages (fst (ConvertRequest req modelMapping history dev)) in
  messages = history ++ inputMessages dev (rq_Input req)
  /\ length messages
     = (length history + length (List.filter yieldsMessage (rq_Input req)))%nat
  /\ (Forall (fun item => yieldsMessage item = true) (rq_Input req) ->
      map Some (inputMessages dev (rq_Input req))
      = map (fun item => convertInputItemToMessage item dev) (rq_Input req)).
Proof.
  intros Hinstr messages. subst messages.
  rewrite ConvertRequest_messages, Hinstr. cbn [String.eqb negb andb app].
  split; [reflexivity|]. split.
  - now rewrite length_app, length_inputMessages.
  - apply inputMessages_all.
Qed.

Definition plainRequest : ResponsesRequest :=
  mkResponsesRequest "gpt-4" EmptyString
    [ demoUserItem "first";
      mkInputItem "reasoning" EmptyString EmptyString [] EmptyString EmptyString
        EmptyString EmptyString EmptyString;
      demoUserItem "second" ]
    [] false None 0 EmptyString.

Lemma no_instructions_keeps_order_witness :
  map cm_Content (cr_Messages (fst (ConvertRequest plainRequest ∅ demoHistory true)))
  = [ ContentString "Previous question"; ContentString "Previous answer";
      ContentString "first"; ContentString "second" ].
Proof.
  destruct (no_instructions_keeps_order plainRequest ∅ demoHistory true)
    as (Hmessages & _).
  - reflexivity.
  - rewrite Hmessages. reflexivity.
Defined.




(** The flag returned with the request tells whether a declaration of
    type web_search was present, and when it is set the injected function
    tool is among the tools of the request. *)
Theorem web_search_flag req modelMapping history dev :
  let out := ConvertRequest req modelMapping history dev in
  snd out = existsb (fun tool => String.eqb (tool_Type tool) "web_search")
                    (rq_Tools req)
  /\ (snd out = true -> In WebSearchFunctionTool (cr_Tools (fst out))).
Proof.
  assert (Hflag : forall tools acc,
            snd (fold_left appendTool tools acc)
            = snd acc || existsb (fun tool => String.eqb (tool_Type tool) "web_search")
                                 tools).
  { induction tools as [|tool tools IH]; intros [acc flag].
    - cbn. now rewrite orb_false_r.
    - cbn [fold_left existsb]. rewrite IH. unfold appendTool.
      destruct (String.eqb (tool_Type tool) "web_search"); cbn [snd].
      + now rewrite orb_true_r.
      + destruct (_ && _); reflexivity. }
  assert (Hin : forall tools,
            existsb (fun tool => String.eqb (tool_Type tool) "web_search") tools
            = true -> In WebSearchFunctionTool (omap declaredTool tools)).
  { induction tools as [|tool tools IH]; [discriminate|].
    rewrite omap_cons. cbn [existsb]. unfold declaredTool at 1.
    destruct (String.eqb_spec (tool_Type tool) "web_search") as [E|E].
    - intros _. rewrite decide_True by exact E. left. reflexivity.
    - cbn [orb]. intros H. rewrite decide_False by exact E.
      destruct (decide _); [right|]; apply IH, H. }
  intros out. subst out. unfold ConvertRequest.
  pose proof (fold_appendTool (rq_Tools req) ([], false)) as Htools.
  pose proof (Hflag (rq_Tools req) ([], false)) as Hsnd.
  destruct (fold_left appendTool (rq_Tools req) ([], false)) as [tools flag].
  cbn [fst snd cr_Tools app orb] in *. split; [exact Hsnd|].
  intros Htrue. rewrite Htools. apply Hin. now rewrite <- Hsnd.
Qed.











End ConverterFacts.

(** ** The stream translator *)

Module StreamingFacts.
Import Models Logger Streaming.

(** *** The key derived from a provider id *)

Lemma wrap64_range (z : Z) : - 2 ^ 63 <= wrap64 z < 2 ^ 63.
Proof.
  unfold wrap64.
  pose proof (Z.mod_pos_bound z (2 ^ 64) ltac:(lia)) as Hmod.
  change (2 ^ 64) with 18446744073709551616 in *.
  change (2 ^ 63) with 9223372036854775808 in *.
  destruct (Z.ltb_spec (z mod 18446744073709551616) 9223372036854775808); lia.
Qed.

Lemma wrap64_small (z : Z) : - 2 ^ 63 <= z < 2 ^ 63 -> wrap64 z = z.
Proof.
  unfold wrap64. change (2 ^ 64) with 18446744073709551616.
  change (2 ^ 63) with 9223372036854775808. intros Hz.
  destruct (Z.ltb_spec (z mod 18446744073709551616) 9223372036854775808)
    as [Hlt|Hge].
  - destruct (Z.neg_nonneg_cases z) as [Hneg|Hpos].
    + assert (Hm : z mod 18446744073709551616 = z + 18446744073709551616).
      { symmetry. apply (Z.mod_unique _ _ (-1)); lia. }
      lia.
    + apply Z.mod_small. lia.
  - destruct (Z.neg_nonneg_cases z) as [Hneg|Hpos].
    + assert (Hm : z mod 18446744073709551616 = z + 18446744073709551616).
      { symmetry. apply (Z.mod_unique _ _ (-1)); lia. }
      lia.
    + rewrite Z.mod_small in Hge by lia. lia.
Qed.

(** The key that [hashToolCallID] gives is never negative, but for the one
    hash whose negation does not fit 64 bits, which is returned as it
    is. *)
Theorem hashToolCallID_range (id : string) :
  0 <= hashToolCallID id < 2 ^ 63 \/ hashToolCallID id = - 2 ^ 63.
Proof.
  unfold hashToolCallID.
  assert (Hfold : forall cs acc,
            - 2 ^ 63 <= acc < 2 ^ 63 ->
            - 2 ^ 63 <= fold_left (fun hash c => wrap64 (hash * 31 + c)) cs acc
            < 2 ^ 63).
  { induction cs as [|c cs IH]; intros acc Hacc; cbn [fold_left].
    - exact Hacc.
    - apply IH, wrap64_range. }
  specialize (Hfold (runes id) 0 ltac:(lia)).
  set (hash := fold_left _ (runes id) 0) in *.
  destruct (Z.ltb_spec hash 0) as [Hneg|Hpos]; [|left; lia].
  destruct (Z.eq_dec hash (- 2 ^ 63)) as [Hmin|Hother].
  - right. rewrite Hmin. reflexivity.
  - left. rewrite wrap64_small; lia.
Qed.

(** *** The completion event *)

Definition isDoneLineb (line : string) : bool :=
  match dataOf line with
  | Some data => String.eqb data "[DONE]"
  | None => false
  end.

Lemma isDoneLineb_spec (line : string) :
  isDoneLineb line = true <-> isDoneLine line.
Proof.
  unfold isDoneLineb, isDoneLine. destruct (dataOf line) as [data|].
  - rewrite String.eqb_eq. split; congruence.
  - split; discriminate.
Qed.

(** The lines up to the first sentinel line. *)
Lemma first_done_line (lines : list string) :
  existsb isDoneLineb lines = true ->
  exists pre line post,
    lines = pre ++ line :: post
    /\ Forall (fun l => ~ isDoneLine l) pre
    /\ isDoneLine line.
Proof.
  induction lines as [|l lines IH]; cbn [existsb]; [discriminate|].
  destruct (isDoneLineb l) eqn:Hl.
  - intros _. exists [], l, lines. split; [reflexivity|].
    split; [constructor|]. now apply isDoneLineb_spec.
  - cbn [orb]. intros H. destruct (IH H) as (pre & line & post & -> & Hpre & Hline).
    exists (l :: pre), line, post. split; [reflexivity|].
    split; [|exact Hline]. constructor; [|exact Hpre].
    intros Hdone. apply isDoneLineb_spec in Hdone. congruence.
Qed.

Lemma no_done_line (lines : list string) :
  existsb isDoneLineb lines = false ->
  Forall (fun l => ~ isDoneLine l) lines.
Proof.
  induction lines as [|l lines IH]; cbn [existsb]; [constructor|].
  intros H. apply orb_false_iff in H. destruct H as [Hl Hrest].
  constructor; [|apply IH, Hrest].
  intros Hdone. apply isDoneLineb_spec in Hdone. congruence.
Qed.

Lemma filter_isCompleted_none (events : list Event) :
  Forall (fun e => isCompleted e = false) events ->
  List.filter isCompleted events = [].
Proof.
  induction 1 as [|e events He _ IH]; [reflexivity|].
  cbn [List.filter]. now rewrite He.
Qed.

(** A turn-completed event is sent exactly when some data line is the
    sentinel, and then once, as the last event of the stream. *)
Theorem completed_exactly_at_done
  (unmarshalChunk : string -> option ChatCompletionChunk)
  (rangeDone rangeResult : gmap Z OutputItem -> list (Z * OutputItem))
  (responseID : string) (sc : Scanner) :
  let events := out_events (HandleStreamingResponse unmarshalChunk rangeDone
                              rangeResult responseID sc) in
  length (List.filter isCompleted events)
  = (if existsb isDoneLineb (sc_lines sc) then 1 else 0)%nat
  /\ (existsb isDoneLineb (sc_lines sc) = true ->
      exists before,
        events = before ++ [ ResponseCompleted (completedResponse responseID) ]).
Proof.
  intros events. subst events. unfold HandleStreamingResponse.
  destruct (existsb isDoneLineb (sc_lines sc)) eqn:Hdone.
  - destruct (first_done_line _ Hdone) as (pre & line & post & Hlines & Hpre & Hline).
    rewrite Hlines, (scanLoop_app _ _ _ _ _ _ _ Hpre).
    cbn [scanLoop]. rewrite (handleLine_done _ _ _ _ _ Hline).
    pose proof (noCompleted_scanLoop unmarshalChunk rangeDone responseID pre
                  (initialState responseID) 0%nat Hpre
                  (noCompleted_initialState responseID)) as Hno.
    set (st := fst (fst (scanLoop unmarshalChunk rangeDone responseID pre
                           (initialState responseID) 0%nat))) in *.
    assert (Hsent : forall st',
              sent st' = sent (handleDone rangeDone responseID
                                 (logLine LevelDebug "Received SSE chunk" st)) ->
              length (List.filter isCompleted (sent st')) = 1%nat
              /\ exists before,
                   sent st'
                   = before ++ [ ResponseCompleted (completedResponse responseID) ]).
    { intros st' ->. rewrite handleDone_sent. cbn [sent logLine outputText toolCalls].
      split.
      - rewrite !List.filter_app, !length_app.
        rewrite (filter_isCompleted_none _ Hno).
        rewrite filter_isCompleted_none.
        + reflexivity.
        + apply Forall_forall. intros e He.
          apply list_elem_of_In, in_map_iff in He. destruct He as (tc & <- & _).
          reflexivity.
      - eexists (sent st ++ map _ _ ++ [ _ ]).
        rewrite <- !app_assoc. reflexivity. }
    match goal with |- context [scannerErr ?s ?b ?n] =>
      destruct (scannerErr s b n) end; cbn [out_events].
    + destruct (Hsent (logLine LevelError "Error reading stream"
                         (handleDone rangeDone responseID
                            (logLine LevelDebug "Received SSE chunk" st)))
                  eq_refl) as [Hcount Hlast].
      split; [exact Hcount|]. intros _. exact Hlast.
    + destruct (Hsent _ eq_refl) as [Hcount Hlast].
      split; [exact Hcount|]. intros _. exact Hlast.
  - pose proof (no_done_line _ Hdone) as Hlines.
    rewrite (scanLoop_not_stopped _ _ _ _ _ _ Hlines).
    pose proof (noCompleted_scanLoop unmarshalChunk rangeDone responseID
                  (sc_lines sc) (initialState responseID) 0%nat Hlines
                  (noCompleted_initialState responseID)) as Hno.
    split; [|discriminate].
    destruct (scannerErr sc false _); cbn [out_events sent logLine];
      now rewrite (filter_isCompleted_none _ Hno).
Qed.

(** *** Lines that leave no trace *)

Section Inert.

Variable unmarshalChunk : string -> option ChatCompletionChunk.
Variable rangeDone rangeResult : gmap Z OutputItem -> list (Z * OutputItem).
Variable responseID : string.

(** A state without its log. *)
Definition core (st : StreamState) : StreamState :=
  mkStreamState (outputText st) (currentToolID st) (toolCalls st)
    (messageItemAdded st) (sent st) [].

Lemma core_eq (st st' : StreamState) :
  core st = core st' ->
  outputText st = outputText st'
  /\ currentToolID st = currentToolID st'
  /\ toolCalls st = toolCalls st'
  /\ messageItemAdded st = messageItemAdded st'
  /\ sent st = sent st'.
Proof. unfold core. intros H. injection H as -> -> -> -> ->. auto. Qed.

Ltac same_core H :=
  let Ho := fresh in let Hc := fresh in let Ht := fresh in
  let Hm := fresh in let Hs := fresh in
  apply core_eq in H; destruct H as (Ho & Hc & Ht & Hm & Hs);
  repeat match goal with st : StreamState |- _ => destruct st end;
  cbn [outputText currentToolID toolCalls messageItemAdded sent] in *;
  subst.

Lemma core_logLine level msg st : core (logLine level msg st) = core st.
Proof. reflexivity. Qed.

Lemma core_WriteEvent e st st' :
  core st = core st' -> core (WriteEvent e st) = core (WriteEvent e st').
Proof. intros H. same_core H. reflexivity. Qed.

Lemma core_handleToolCall st st' tc :
  core st = core st' ->
  core (handleToolCall responseID st tc) = core (handleToolCall responseID st' tc).
Proof.
  intros H. same_core H. unfold handleToolCall.
  cbn [currentToolID toolCalls].
  match goal with |- context [?m !! ?i] => destruct (m !! i) end; reflexivity.
Qed.

Lemma core_handleToolCalls tcs st st' :
  core st = core st' ->
  core (fold_left (handleToolCall responseID) tcs st)
  = core (fold_left (handleToolCall responseID) tcs st').
Proof.
  revert st st'. induction tcs as [|tc tcs IH]; intros st st' H; cbn [fold_left].
  - exact H.
  - apply IH, core_handleToolCall, H.
Qed.

Lemma core_handleContent st st' content :
  core st = core st' ->
  core (handleContent responseID st content)
  = core (handleContent responseID st' content).
Proof.
  intros H. same_core H. unfold handleContent.
  destruct (negb (String.eqb content EmptyString)); [|reflexivity].
  cbn [messageItemAdded].
  match goal with |- context [negb ?b] => destruct b end; reflexivity.
Qed.

Lemma core_handleChunk st st' chunk :
  core st = core st' ->
  core (handleChunk responseID st chunk) = core (handleChunk responseID st' chunk).
Proof.
  intros H. unfold handleChunk.
  destruct (ch_Choices chunk) as [|choice rest]; [exact H|].
  destruct (negb (String.eqb (ck_FinishReason choice) EmptyString));
    rewrite ?core_logLine; apply core_handleToolCalls, core_handleContent, H.
Qed.

Lemma core_fold_done (l : list (Z * OutputItem)) st st' :
  core st = core st' ->
  core (fold_left (fun st tc => WriteEvent (OutputItemDone 0 (snd tc)) st) l st)
  = core (fold_left (fun st tc => WriteEvent (OutputItemDone 0 (snd tc)) st) l st').
Proof.
  revert st st'. induction l as [|tc l IH]; intros st st' H; cbn [fold_left].
  - exact H.
  - apply IH, core_WriteEvent, H.
Qed.

Lemma core_handleDone st st' :
  core st = core st' ->
  core (handleDone rangeDone responseID st)
  = core (handleDone rangeDone responseID st').
Proof.
  intros H. unfold handleDone.
  assert (Hmap : toolCalls st = toolCalls st')
    by (destruct (core_eq _ _ H) as (_ & _ & Hm & _); exact Hm).
  rewrite Hmap.
  pose proof (core_fold_done (rangeDone (toolCalls st')) st st' H) as Hfold.
  assert (Htext : outputText (fold_left _ (rangeDone (toolCalls st')) st)
                  = outputText (fold_left _ (rangeDone (toolCalls st')) st'))
    by (destruct (core_eq _ _ Hfold) as (Ho & _); exact Ho).
  cbv zeta. rewrite Htext.
  apply core_WriteEvent, core_WriteEvent, core_fold_done, H.
Qed.

Lemma core_handleLine st st' line :
  core st = core st' ->
  core (fst (handleLine unmarshalChunk rangeDone responseID st line))
  = core (fst (handleLine unmarshalChunk rangeDone responseID st' line))
  /\ snd (handleLine unmarshalChunk rangeDone responseID st line)
     = snd (handleLine unmarshalChunk rangeDone responseID st' line).
Proof.
  intros H. unfold handleLine.
  destruct (dataOf line) as [data|]; [|split; [exact H|reflexivity]].
  destruct (String.eqb data "[DONE]"); cbn [fst snd].
  - split; [|reflexivity]. apply core_handleDone. now rewrite !core_logLine.
  - destruct (unmarshalChunk data) as [chunk|]; cbn [fst snd];
      (split; [|reflexivity]).
    + apply core_handleChunk. now rewrite !core_logLine.
    + now rewrite !core_logLine.
Qed.

(** A line that is not a data line, a data line whose payload does not
    decode, and one whose chunk has no choice. *)
Definition inert (line : string) : bool :=
  match dataOf line with
  | None => true
  | Some data =>
      negb (String.eqb data "[DONE]")
      && match unmarshalChunk data with
         | None => true
         | Some chunk => match ch_Choices chunk with
                         | [] => true
                         | _ => false
                         end
         end
  end.

Lemma handleLine_inert st line :
  inert line = true ->
  core (fst (handleLine unmarshalChunk rangeDone responseID st line)) = core st
  /\ snd (handleLine unmarshalChunk rangeDone responseID st line) = false.
Proof.
  unfold inert, handleLine. destruct (dataOf line) as [data|]; [|auto].
  destruct (String.eqb data "[DONE]"); [discriminate|]. cbn [negb andb].
  destruct (unmarshalChunk data) as [chunk|]; [|auto].
  unfold handleChunk. destruct (ch_Choices chunk); [auto|discriminate].
Qed.

Lemma scanLoop_without_inert lines st st' n n' :
  core st = core st' ->
  core (fst (fst (scanLoop unmarshalChunk rangeDone responseID lines st n)))
  = core (fst (fst (scanLoop unmarshalChunk rangeDone responseID
                      (List.filter (fun l => negb (inert l)) lines) st' n'))).
Proof.
  revert st st' n n'. induction lines as [|line lines IH]; intros st st' n n' H.
  - exact H.
  - cbn [scanLoop List.filter]. destruct (inert line) eqn:Hinert; cbn [negb].
    + destruct (handleLine_inert st line Hinert) as [Hcore Hstop].
      destruct (handleLine unmarshalChunk rangeDone responseID st line)
        as [st1 stop]. cbn [fst snd] in *. subst stop.
      apply IH. congruence.
    + cbn [scanLoop].
      destruct (core_handleLine st st' line H) as [Hcore Hstop].
      destruct (handleLine unmarshalChunk rangeDone responseID st line)
        as [st1 stop].
      destruct (handleLine unmarshalChunk rangeDone responseID st' line)
        as [st1' stop']. cbn [fst snd] in *. subst stop'.
      destruct stop; [exact Hcore|]. apply IH, Hcore.
Qed.

(** Keep-alive and comment lines, payloads that do not decode and chunks
    without a choice change neither the events sent nor the result
    returned: the stream without these lines gives the same. *)
Theorem inert_lines_ignored (sc : Scanner) :
  let run := HandleStreamingResponse unmarshalChunk rangeDone rangeResult
               responseID in
  let cleaned := mkScanner (List.filter (fun l => negb (inert l)) (sc_lines sc))
                           (sc_err sc) (sc_errAfter sc) in
  out_events (run sc) = out_events (run cleaned)
  /\ out_result (run sc) = out_result (run cleaned).
Proof.
  intros run cleaned. subst run cleaned. unfold HandleStreamingResponse.
  cbn [sc_lines].
  pose proof (scanLoop_without_inert (sc_lines sc) (initialState responseID)
                (initialState responseID) 0%nat 0%nat eq_refl) as Hcore.
  destruct (scanLoop _ _ _ (sc_lines sc) _ _) as [[st stopped] delivered].
  destruct (scanLoop _ _ _ (List.filter _ (sc_lines sc)) _ _)
    as [[st' stopped'] delivered'].
  cbn [fst] in Hcore. apply core_eq in Hcore.
  destruct Hcore as (Htext & _ & Hmap & _ & Hsent).
  do 2 match goal with |- context [scannerErr ?s ?b ?n] =>
    destruct (scannerErr s b n) end;
    cbn [out_events out_result sent outputText toolCalls logLine];
    rewrite Htext, Hmap, Hsent; split; reflexivity.
Qed.

End Inert.

(** *** Streams of text *)

(** The text that the first choice of a chunk carries. *)
Definition chunkContent (chunk : ChatCompletionChunk) : string :=
  match ch_Choices chunk with
  | [] => EmptyString
  | choice :: _ => dl_Content (ck_Delta choice)
  end.

(** The first choice of the chunk carries no tool call. *)
Definition textOnly (chunk : ChatCompletionChunk) : Prop :=
  match ch_Choices chunk with
  | [] => True
  | choice :: _ => dl_ToolCalls (ck_Delta choice) = []
  end.

Definition concatText (texts : list string) : string :=
  fold_right String.append EmptyString texts.

Definition nonEmpty (text : string) : bool := negb (String.eqb text EmptyString).

Definition messageAdded (responseID : string) : Event :=
  OutputItemAdded 0
    (mkOutputItem "message" (messageItemID responseID) "assistant" []
       EmptyString EmptyString EmptyString "in_progress").

(** The events of a run of text increments: the announcement of the
    message, unless [added] tells that it is out already, before the first
    non-empty increment, and one delta for every non-empty increment. *)
Definition textEvents (responseID : string) (added : bool) (texts : list string)
  : list Event :=
  match List.filter nonEmpty texts with
  | [] => []
  | increments =>
      (if added then [] else [ messageAdded responseID ])
      ++ map (fun text => OutputTextDelta text 0) increments
  end.

Definition dataLine (payload : string) : string := "data: " +:+ payload.

Lemma dataOf_dataLine (payload : string) : dataOf (dataLine payload) = Some payload.
Proof.
  unfold dataOf, dataLine, HasPrefix.
  rewrite StringFacts.prefix_append, StringFacts.TrimPrefix_append. reflexivity.
Qed.

Section TextStream.

Variable unmarshalChunk : string -> option ChatCompletionChunk.
Variable rangeDone rangeResult : gmap Z OutputItem -> list (Z * OutputItem).
Variable responseID : string.

(** The payload decodes to the chunk, which carries text only. *)
Definition decodesToText (payload : string) (chunk : ChatCompletionChunk) : Prop :=
  unmarshalChunk payload = Some chunk
  /\ payload <> "[DONE]"
  /\ textOnly chunk.

Lemma handleChunk_text (st : StreamState) (chunk : ChatCompletionChunk) :
  textOnly chunk ->
  let st' := handleChunk responseID st chunk in
  outputText st' = outputText st +:+ chunkContent chunk
  /\ toolCalls st' = toolCalls st
  /\ sent st'
     = sent st ++ textEvents responseID (messageItemAdded st) [ chunkContent chunk ]
  /\ messageItemAdded st'
     = messageItemAdded st || nonEmpty (chunkContent chunk).
Proof.
  unfold textOnly, chunkContent, handleChunk, textEvents.
  destruct (ch_Choices chunk) as [|choice rest].
  - intros _. cbn. rewrite StringFacts.append_nil_r, app_nil_r, orb_false_r. auto.
  - intros Hnone. rewrite Hnone. cbn [fold_left List.filter].
    assert (Hcontent :
              let st' := handleContent responseID st (dl_Content (ck_Delta choice)) in
              outputText st' = outputText st +:+ dl_Content (ck_Delta choice)
              /\ toolCalls st' = toolCalls st
              /\ sent st'
                 = sent st
                   ++ match (if nonEmpty (dl_Content (ck_Delta choice))
                             then [ dl_Content (ck_Delta choice) ] else []) with
                      | [] => []
                      | increments =>
                          (if messageItemAdded st then []
                           else [ messageAdded responseID ])
                          ++ map (fun text => OutputTextDelta text 0) increments
                      end
              /\ messageItemAdded st'
                 = messageItemAdded st || nonEmpty (dl_Content (ck_Delta choice))).
    { unfold handleContent, nonEmpty.
      destruct (String.eqb_spec (dl_Content (ck_Delta choice)) EmptyString)
        as [E|E]; cbn [negb].
      - rewrite E, StringFacts.append_nil_r, app_nil_r, orb_false_r. auto.
      - destruct (messageItemAdded st) eqn:Hadd;
          cbn [WriteEvent logLine outputText toolCalls sent messageItemAdded
               negb orb app map];
          rewrite ?Hadd;
          cbn [WriteEvent logLine outputText toolCalls sent messageItemAdded
               negb orb app map].
        + auto.
        + unfold messageAdded. rewrite <- app_assoc. auto. }
    destruct (negb (String.eqb (ck_FinishReason choice) EmptyString));
      exact Hcontent.
Qed.

Lemma textEvents_cons (added : bool) (text : string) (texts : list string) :
  textEvents responseID added (text :: texts)
  = textEvents responseID added [ text ]
    ++ textEvents responseID (added || nonEmpty text) texts.
Proof.
  unfold textEvents. cbn [List.filter].
  destruct (nonEmpty text); cbn [app map].
  - rewrite orb_true_r. destruct (List.filter nonEmpty texts) as [|t ts].
    + cbn. now rewrite app_nil_r.
    + cbn [app]. rewrite <- app_assoc. reflexivity.
  - rewrite orb_false_r. reflexivity.
Qed.

Lemma scanLoop_text (payloads : list string) (chunks : list ChatCompletionChunk)
  (st : StreamState) (n : nat) :
  Forall2 decodesToText payloads chunks ->
  let st' := fst (fst (scanLoop unmarshalChunk rangeDone responseID
                         (map dataLine payloads) st n)) in
  outputText st' = outputText st +:+ concatText (map chunkContent chunks)
  /\ toolCalls st' = toolCalls st
  /\ sent st'
     = sent st ++ textEvents responseID (messageItemAdded st)
                             (map chunkContent chunks).
Proof.
  intros Hdec. revert st n.
  induction Hdec as [|payload chunk payloads chunks (Hchunk & Hnot & Htext) _ IH];
    intros st n.
  - cbn. rewrite StringFacts.append_nil_r, app_nil_r. auto.
  - cbn [map scanLoop]. unfold handleLine. rewrite dataOf_dataLine.
    apply String.eqb_neq in Hnot. rewrite Hnot, Hchunk.
    destruct (handleChunk_text (logLine LevelDebug "Received SSE chunk" st) chunk
                Htext) as (Ho & Ht & Hs & Hm).
    cbn [outputText toolCalls sent messageItemAdded logLine] in Ho, Ht, Hs, Hm.
    destruct (IH (handleChunk responseID
                    (logLine LevelDebug "Received SSE chunk" st) chunk) (S n))
      as (Ho' & Ht' & Hs').
    cbv zeta in *. rewrite Ho', Ht', Hs', Ho, Ht, Hs, Hm.
    cbn [map].
    rewrite StringFacts.append_assoc,
      (textEvents_cons (messageItemAdded st) (chunkContent chunk)
         (map chunkContent chunks)), <- app_assoc.
    repeat split; reflexivity.
Qed.

Lemma dataLines_not_done (payloads : list string) (chunks : list ChatCompletionChunk) :
  Forall2 decodesToText payloads chunks ->
  Forall (fun l => ~ isDoneLine l) (map dataLine payloads).
Proof.
  induction 1 as [|payload chunk payloads chunks (_ & Hnot & _) _ IH];
    cbn [map]; constructor; [|exact IH].
  unfold isDoneLine. rewrite dataOf_dataLine. congruence.
Qed.

(** A stream of chunks that carry text only, ended by the sentinel, gives
    the created event, the announcement of the message before the first
    non-empty increment, one delta for each non-empty increment, the
    done event of the message with the increments joined in order, and
    the completed event; the result returned holds the same text and no
    tool call.  Lines after the sentinel make no difference. *)
Theorem text_stream_events (payloads : list string)
  (chunks : list ChatCompletionChunk) (post : list string)
  (err : option ReadError) (errAfter : nat) :
  Forall2 decodesToText payloads chunks ->
  (forall m, rangeDone m ≡ₚ map_to_list m) ->
  (forall m, rangeResult m ≡ₚ map_to_list m) ->
  let texts := map chunkContent chunks in
  let out := HandleStreamingResponse unmarshalChunk rangeDone rangeResult
               responseID
               (mkScanner (map dataLine payloads ++ dataLine "[DONE]" :: post)
                          err errAfter) in
  out_events out
  = ResponseCreated ("resp-" +:+ responseID) "in_progress"
    :: textEvents responseID false texts
    ++ [ OutputItemDone 0 (doneMessageItem responseID (concatText texts));
         ResponseCompleted (completedResponse responseID) ]
  /\ out_result out = mkStreamResult (concatText texts) [].
Proof.
  intros Hdec HpermDone HpermResult texts out. subst out texts.
  assert (Hempty : forall range : gmap Z OutputItem -> list (Z * OutputItem),
            (forall m, range m ≡ₚ map_to_list m) -> range ∅ = []).
  { intros range Hperm. apply Permutation_nil. symmetry.
    rewrite <- (map_to_list_empty (M := gmap Z) (A := OutputItem)). apply Hperm. }
  unfold HandleStreamingResponse. cbn [sc_lines].
  rewrite (scanLoop_app _ _ _ _ _ _ _ (dataLines_not_done _ _ Hdec)).
  destruct (scanLoop_text payloads chunks (initialState responseID) 0%nat Hdec)
    as (Ho & Ht & Hs).
  cbv zeta in Ho, Ht, Hs.
  set (st := fst (fst (scanLoop unmarshalChunk rangeDone responseID
                         (map dataLine payloads) (initialState responseID)
                         0%nat))) in *.
  cbn [scanLoop].
  rewrite (handleLine_done unmarshalChunk rangeDone responseID st
             (dataLine "[DONE]") (dataOf_dataLine "[DONE]")).
  assert (Hfinal : forall st',
            sent st' = sent (handleDone rangeDone responseID
                               (logLine LevelDebug "Received SSE chunk" st)) ->
            outputText st' = outputText st ->
            toolCalls st' = toolCalls st ->
            sent st'
            = ResponseCreated ("resp-" +:+ responseID) "in_progress"
              :: textEvents responseID false (map chunkContent chunks)
              ++ [ OutputItemDone 0
                     (doneMessageItem responseID
                        (concatText (map chunkContent chunks)));
                   ResponseCompleted (completedResponse responseID) ]
            /\ mkStreamResult (outputText st')
                 (map snd (rangeResult (toolCalls st')))
               = mkStreamResult (concatText (map chunkContent chunks)) []).
  { intros st' Hsent Htext Hmap. rewrite Hsent, Htext, Hmap, handleDone_sent.
    cbn [sent logLine outputText toolCalls]. rewrite Ho, Ht, Hs.
    cbn [initialState WriteEvent logLine sent outputText toolCalls
         messageItemAdded app].
    rewrite (Hempty rangeDone HpermDone), (Hempty rangeResult HpermResult).
    cbn [map app]. split; reflexivity. }
  assert (Hdone : outputText (handleDone rangeDone responseID
                                (logLine LevelDebug "Received SSE chunk" st))
                  = outputText st
                  /\ toolCalls (handleDone rangeDone responseID
                                  (logLine LevelDebug "Received SSE chunk" st))
                     = toolCalls st).
  { destruct (fold_done_events
                (rangeDone (toolCalls (logLine LevelDebug "Received SSE chunk" st)))
                (logLine LevelDebug "Received SSE chunk" st)) as (_ & Ho' & Ht').
    cbv zeta in Ho', Ht'. split; [exact Ho'|exact Ht']. }
  destruct Hdone as [Hdo Hdt].
  match goal with |- context [scannerErr ?s ?b ?n] =>
    destruct (scannerErr s b n) end;
    cbn [out_events out_result]; apply Hfinal; assumption || reflexivity.
Qed.

End TextStream.

Definition hiPayload : string := chunkText (q "content" +:+ ":" +:+ q "Hi").

Lemma text_stream_events_witness :
  let out := HandleStreamingResponse (decodeTable textTable) map_to_list
               map_to_list "r"
               (mkScanner (map dataLine [ hiPayload ] ++ dataLine "[DONE]" :: [])
                          None 0) in
  out_events out
  = [ ResponseCreated "resp-r" "in_progress";
      messageAdded "r";
      OutputTextDelta "Hi" 0;
      OutputItemDone 0 (doneMessageItem "r" "Hi");
      ResponseCompleted (completedResponse "r") ]
  /\ out_result out = mkStreamResult "Hi" [].
Proof.
  apply (text_stream_events (decodeTable textTable) map_to_list map_to_list "r"
           [ hiPayload ] [ chunkOf (mkChatDelta EmptyString "Hi" []) ] [] None 0%nat).
  - constructor; [|constructor]. split; [reflexivity|].
    split; [vm_compute; discriminate|reflexivity].
  - reflexivity.
  - reflexivity.
Defined.

End StreamingFacts.

(** ** The web_search loop *)

Module WebSearchFacts.
Import Models Logger WebSearch.

(** [BuildWebSearchOutputItems]. *)
Definition BuildWebSearchOutputItems (calls : list WebSearchCall)
  : list OutputItem :=
  fold_left
    (fun items call =>
       items ++ [ mkOutputItem "web_search_call" (ws_ID call) EmptyString []
                    EmptyString EmptyString EmptyString (ws_Status call) ])
    calls [].

(** [ConvertResponseWithWebSearch]. *)
Definition ConvertResponseWithWebSearch (resp : ChatCompletionResponse)
  (requestID : string) (webSearchCalls : list WebSearchCall)
  : ResponsesResponse :=
  let response := Converter.ConvertResponse resp requestID in
  let webSearchItems := BuildWebSearchOutputItems webSearchCalls in
  if (0 <? length webSearchItems)%nat then
    mkResponsesResponse (rr_ID response) (rr_Object response)
      (rr_CreatedAt response) (rr_Status response) (rr_Model response)
      (webSearchItems ++ rr_Output response) (rr_Usage response)
  else response.

(** The output item of one recorded search. *)
Definition webSearchItem (call : WebSearchCall) : OutputItem :=
  mkOutputItem "web_search_call" (ws_ID call) EmptyString [] EmptyString
    EmptyString EmptyString (ws_Status call).

Lemma BuildWebSearchOutputItems_map (calls : list WebSearchCall) :
  BuildWebSearchOutputItems calls = map webSearchItem calls.
Proof.
  unfold BuildWebSearchOutputItems.
  enough (H : forall acc,
             fold_left
               (fun items call =>
                  items ++ [ mkOutputItem "web_search_call" (ws_ID call)
                               EmptyString [] EmptyString EmptyString
                               EmptyString (ws_Status call) ])
               calls acc
             = acc ++ map webSearchItem calls) by apply (H []).
  induction calls as [|call calls IH]; intros acc; cbn [fold_left map].
  - now rewrite app_nil_r.
  - rewrite IH, <- app_assoc. reflexivity.
Qed.

(** The response with the searches is the translated response with one
    web_search_call item per recorded search put in front of its output,
    in the order of the searches and with their ids and statuses; nothing
    else of the response changes. *)
Theorem searches_lead_the_output (resp : ChatCompletionResponse)
  (requestID : string) (calls : list WebSearchCall) :
  let plain := Converter.ConvertResponse resp requestID in
  let full := ConvertResponseWithWebSearch resp requestID calls in
  rr_Output full = map webSearchItem calls ++ rr_Output plain
  /\ map oi_ID (map webSearchItem calls) = map ws_ID calls
  /\ map oi_Status (map webSearchItem calls) = map ws_Status calls
  /\ rr_ID full = rr_ID plain
  /\ rr_Status full = rr_Status plain
  /\ rr_Usage full = rr_Usage plain
  /\ rr_Model full = rr_Model plain.
Proof.
  intros plain full. subst plain full. unfold ConvertResponseWithWebSearch.
  rewrite BuildWebSearchOutputItems_map.
  split.
  { destruct calls as [|call calls]; reflexivity. }
  split; [now rewrite map_map|]. split; [now rewrite map_map|].
  destruct calls as [|call calls]; repeat split; reflexivity.
Qed.

Section Loop.

Variable World : Type.
Variable clientDo :
  string -> string -> ChatCompletionRequest -> World -> Transport * World.
Variable unmarshalResponse : string -> result ChatCompletionResponse.
Variable unmarshalQuery : string -> result string.
Variable managerSearch :
  string -> World -> result (option SearchProviderResult) * World.

Local Abbreviation send := (sendToUpstream World clientDo unmarshalResponse).
Local Abbreviation handle := (handleCall World unmarshalQuery managerSearch).
Local Abbreviation run :=
  (iterate World clientDo unmarshalResponse unmarshalQuery managerSearch).

(** The queries searched for, in order. *)
Definition searchQueries (tr : list Effect) : list string :=
  omap (fun e => match e with
                 | SearchCall query => Some query
                 | UpstreamCall _ _ _ => None
                 end) tr.

Lemma searchQueries_app (tr tr' : list Effect) :
  searchQueries (tr ++ tr') = searchQueries tr ++ searchQueries tr'.
Proof.
  unfold searchQueries. induction tr as [|e tr IH]; [reflexivity|].
  cbn [app]. rewrite !ConverterFacts.omap_cons, IH.
  destruct e; reflexivity.
Qed.

Lemma send_trace chatReq apiKey targetCfg (env0 : Env World) :
  trace (snd (send chatReq apiKey targetCfg env0))
  = trace env0
    ++ [ UpstreamCall (tg_BaseURL targetCfg +:+ tg_PathSuffix targetCfg)
                      apiKey chatReq ].
Proof.
  unfold sendToUpstream.
  destruct (clientDo _ apiKey chatReq (world env0)) as [answer w].
  destruct answer as [e|e|e|e|status body]; cbn [snd trace]; try reflexivity.
  destruct (400 <=? status); [reflexivity|].
  destruct (unmarshalResponse body); reflexivity.
Qed.

(** One round of the loop over the calls: what it appends. *)
Lemma handle_appends (st : LoopState World) (tc : ToolCall) :
  exists query status content,
    messages (handle st tc)
    = messages st
      ++ [ mkChatMessage "tool" (ContentString content) EmptyString []
             (tc_ID tc) ]
    /\ webSearchCalls (handle st tc)
       = webSearchCalls st ++ [ mkWebSearchCall (tc_ID tc) query status ]
    /\ trace (env (handle st tc)) = trace (env st) ++ [ SearchCall query ]
    /\ (status = "completed" \/ status = "failed").
Proof.
  unfold handleCall, parseQueryFromArguments.
  destruct (unmarshalQuery (tc_Arguments tc)) as [decoded|e]; cbn [logLine world].
  - destruct (managerSearch decoded (world (env st))) as [[found|e'] w];
      do 3 eexists; cbn; repeat split; auto.
  - destruct (managerSearch "unknown" (world (env st))) as [[found|e'] w];
      do 3 eexists; cbn; repeat split; auto.
Qed.

(** The tool messages and the records that the calls of one response
    give. *)
Definition answered (tcs : list ToolCall) (msgs : list ChatMessage)
  (calls : list WebSearchCall) : Prop :=
  map cm_ToolCallID msgs = map tc_ID tcs
  /\ Forall (fun m => cm_Role m = "tool") msgs
  /\ map ws_ID calls = map tc_ID tcs
  /\ Forall (fun c => ws_Status c = "completed" \/ ws_Status c = "failed") calls.

Lemma fold_handle_answered (tcs : list ToolCall) (st : LoopState World) :
  let st' := fold_left handle tcs st in
  exists msgs calls,
    messages st' = messages st ++ msgs
    /\ webSearchCalls st' = webSearchCalls st ++ calls
    /\ trace (env st') = trace (env st) ++ map SearchCall (map ws_Query calls)
    /\ answered tcs msgs calls.
Proof.
  revert st. induction tcs as [|tc tcs IH]; intros st; cbn [fold_left].
  - exists [], []. cbn. rewrite !app_nil_r. repeat split; constructor.
  - destruct (handle_appends st tc)
      as (query & status & content & Hm & Hc & Ht & Hs).
    destruct (IH (handle st tc)) as (msgs & calls & Hm' & Hc' & Ht' & Hans).
    destruct Hans as (Hids & Hroles & Hcids & Hstatus).
    cbv zeta in *.
    exists (mkChatMessage "tool" (ContentString content) EmptyString []
              (tc_ID tc) :: msgs),
           (mkWebSearchCall (tc_ID tc) query status :: calls).
    rewrite Hm', Hc', Ht', Hm, Hc, Ht, <- !app_assoc.
    do 3 (split; [reflexivity|]).
    unfold answered. cbn [map]. rewrite Hids, Hcids.
    repeat split; try constructor; auto.
Qed.

(** The shape of a run that starts with the messages [msgs], the records
    [calls] and the trace [tr]: it ends with an upstream call for these
    messages, which gives the response or the error returned, or it makes
    that call, answers the calls of the response, and goes on. *)
Inductive Run (chatReq : ChatCompletionRequest) (apiKey : string)
  (targetCfg : TargetConfig)
  : list ChatMessage -> list WebSearchCall -> list Effect
    -> Returned -> list Effect -> Prop :=
| RunEnds (msgs : list ChatMessage) (calls : list WebSearchCall)
    (tr : list Effect) (resp : option ChatCompletionResponse)
    (err : option string) :
    (resp = None <-> err <> None) ->
    Run chatReq apiKey targetCfg msgs calls tr (mkReturned resp calls err)
      (tr ++ [ UpstreamCall (tg_BaseURL targetCfg +:+ tg_PathSuffix targetCfg)
                            apiKey (currentReq chatReq msgs) ])
| RunRound (msgs : list ChatMessage) (calls : list WebSearchCall)
    (tr : list Effect) (ret : Returned) (tr' : list Effect)
    (tcs : list ToolCall) (assistant : ChatMessage)
    (newMsgs : list ChatMessage) (newCalls : list WebSearchCall) :
    answered tcs newMsgs newCalls ->
    Run chatReq apiKey targetCfg (msgs ++ assistant :: newMsgs)
      (calls ++ newCalls)
      ((tr ++ [ UpstreamCall (tg_BaseURL targetCfg +:+ tg_PathSuffix targetCfg)
                             apiKey (currentReq chatReq msgs) ])
       ++ map SearchCall (map ws_Query newCalls))
      ret tr' ->
    Run chatReq apiKey targetCfg msgs calls tr ret tr'.

Lemma run_shape (chatReq : ChatCompletionRequest) (apiKey : string)
  (targetCfg : TargetConfig) (remaining : nat) (st : LoopState World) :
  Run chatReq apiKey targetCfg (messages st) (webSearchCalls st)
    (trace (env st))
    (fst (run remaining chatReq apiKey targetCfg st))
    (trace (snd (run remaining chatReq apiKey targetCfg st))).
Proof.
  revert st. induction remaining as [|remaining IH]; intros st; cbn [iterate].
  - pose proof (send_trace (currentReq chatReq (messages st)) apiKey targetCfg
                  (env st)) as Htrace.
    destruct (send _ apiKey targetCfg (env st)) as [[resp|e] env1];
      cbn [fst snd] in *; rewrite Htrace; apply RunEnds.
    + split; [discriminate|congruence].
    + split; [discriminate|reflexivity].
  - pose proof (send_trace (currentReq chatReq (messages st)) apiKey targetCfg
                  (WebSearch.logLine World LevelDebug "web_search iteration"
                     (env st))) as Htrace.
    cbn [trace WebSearch.logLine] in Htrace.
    destruct (send _ apiKey targetCfg _) as [[resp|e] env1];
      cbn [fst snd] in *.
    2:{ rewrite Htrace. apply RunEnds. split; [discriminate|reflexivity]. }
    destruct (rs_Choices resp) as [|choice rest]; cbn [fst snd].
    { rewrite Htrace. apply RunEnds. split; [discriminate|congruence]. }
    destruct (extractWebSearchCalls (cm_ToolCalls (cc_Message choice)))
      as [|tc tcs] eqn:Hws; cbn [fst snd].
    { cbn [trace WebSearch.logLine]. rewrite Htrace. apply RunEnds.
      split; [discriminate|congruence]. }
    match goal with |- context [fold_left _ (tc :: tcs) ?s] => set (st1 := s) end.
    destruct (fold_handle_answered (tc :: tcs) st1)
      as (msgs & calls & Hm & Hc & Ht & Hans).
    cbv zeta in Hm, Hc, Ht.
    specialize (IH (fold_left handle (tc :: tcs) st1)).
    rewrite Hm, Hc, Ht in IH. subst st1.
    cbn [messages webSearchCalls env trace WebSearch.logLine] in IH.
    rewrite Htrace in IH.
    rewrite <- (app_assoc (messages st)) in IH. cbn [app] in IH.
    eapply RunRound; [exact Hans|exact IH].
Qed.

(** The calls of one response are answered one by one: the loop appends
    one tool message per call, in the order of the calls and with the id
    of its call, records one search per call with that id and a status
    that is completed or failed, and searches for the recorded queries in
    that order. *)
Theorem calls_answered_in_order (tcs : list ToolCall) (st : LoopState World) :
  let st' := fold_left handle tcs st in
  exists msgs calls,
    messages st' = messages st ++ msgs
    /\ webSearchCalls st' = webSearchCalls st ++ calls
    /\ trace (env st') = trace (env st) ++ map SearchCall (map ws_Query calls)
    /\ answered tcs msgs calls.
Proof. exact (fold_handle_answered tcs st). Qed.

(** An upstream call of a run for [chatReq]: to the URL of the target,
    with the key, for a request that is not streamed, has the model, the
    tools and the sampling settings of [chatReq], and whose messages start
    with [msgs]. *)
Definition continues (chatReq : ChatCompletionRequest) (apiKey : string)
  (targetCfg : TargetConfig) (msgs : list ChatMessage) (e : Effect) : Prop :=
  match e with
  | SearchCall _ => True
  | UpstreamCall url authorization body =>
      url = tg_BaseURL targetCfg +:+ tg_PathSuffix targetCfg
      /\ authorization = apiKey
      /\ cr_Stream body = false
      /\ cr_Model body = cr_Model chatReq
      /\ cr_Tools body = cr_Tools chatReq
      /\ cr_Temperature body = cr_Temperature chatReq
      /\ cr_MaxTokens body = cr_MaxTokens chatReq
      /\ exists more, cr_Messages body = msgs ++ more
  end.

Lemma continues_prefix chatReq apiKey targetCfg msgs more (e : Effect) :
  continues chatReq apiKey targetCfg (msgs ++ more) e ->
  continues chatReq apiKey targetCfg msgs e.
Proof.
  destruct e as [url authorization body|query]; [|exact (fun H => H)].
  intros (Hu & Ha & Hs & Hm & Ht & Hte & Hmt & later & Hl).
  repeat (split; [assumption|]).
  exists (more ++ later). rewrite Hl, app_assoc. reflexivity.
Qed.

Lemma searchQueries_SearchCall (queries : list string) :
  searchQueries (map SearchCall queries) = queries.
Proof.
  unfold searchQueries. induction queries as [|query queries IH]; [reflexivity|].
  cbn [map]. rewrite ConverterFacts.omap_cons, IH. reflexivity.
Qed.

(** What every run has, by induction on its shape. *)
Lemma Run_facts chatReq apiKey targetCfg msgs calls tr ret tr' :
  Run chatReq apiKey targetCfg msgs calls tr ret tr' ->
  exists newCalls added,
    ret_calls ret = calls ++ newCalls
    /\ tr' = tr ++ added
    /\ searchQueries added = map ws_Query newCalls
    /\ Forall (fun c => ws_Status c = "completed" \/ ws_Status c = "failed")
              newCalls
    /\ Forall (continues chatReq apiKey targetCfg msgs) added
    /\ (exists rest,
          added = UpstreamCall (tg_BaseURL targetCfg +:+ tg_PathSuffix targetCfg)
                    apiKey (currentReq chatReq msgs) :: rest)
    /\ (ret_resp ret = None <-> ret_err ret <> None).
Proof.
  induction 1 as [msgs calls tr resp err Hone
                 |msgs calls tr ret tr' tcs assistant newMsgs newCalls Hans Hrun IH].
  - exists [], [ UpstreamCall (tg_BaseURL targetCfg +:+ tg_PathSuffix targetCfg)
                   apiKey (currentReq chatReq msgs) ].
    cbn [ret_calls ret_resp ret_err]. rewrite app_nil_r.
    repeat split; try reflexivity; try apply Hone.
    + constructor.
    + constructor; [|constructor]. cbn. repeat (split; [reflexivity|]).
      exists []. now rewrite app_nil_r.
    + exists []. reflexivity.
  - destruct IH as (later & added & Hcalls & Htr & Hq & Hst & Hcont & _ & Hone).
    destruct Hans as (_ & _ & _ & Hstatus).
    exists (newCalls ++ later),
           (UpstreamCall (tg_BaseURL targetCfg +:+ tg_PathSuffix targetCfg)
              apiKey (currentReq chatReq msgs)
            :: map SearchCall (map ws_Query newCalls) ++ added).
    split; [now rewrite Hcalls, app_assoc|].
    split; [rewrite Htr, <- !app_assoc; reflexivity|].
    split.
    { change (UpstreamCall ?u ?k ?b :: ?l) with ([UpstreamCall u k b] ++ l).
      rewrite !searchQueries_app, searchQueries_SearchCall, Hq, map_app.
      reflexivity. }
    split; [apply Forall_app; split; assumption|].
    split.
    { constructor.
      - cbn. repeat (split; [reflexivity|]). exists []. now rewrite app_nil_r.
      - apply Forall_app. split.
        + apply List.Forall_forall. intros e He. apply in_map_iff in He.
          destruct He as (query & <- & _). exact I.
        + eapply Forall_impl; [exact Hcont|]. intros e He.
          apply (continues_prefix _ _ _ msgs (assistant :: newMsgs)), He. }
    split; [eexists; reflexivity|exact Hone].
Qed.

(** [HandleWithWebSearch] returns a response or an error, never both and
    never neither, and the searches it returns come with either. *)
Theorem response_or_error (chatReq : ChatCompletionRequest) (apiKey : string)
  (targetCfg : TargetConfig) (env0 : Env World) :
  let r := HandleWithWebSearch World clientDo unmarshalResponse unmarshalQuery
             managerSearch chatReq apiKey targetCfg env0 in
  (ret_resp (fst r) = None <-> ret_err (fst r) <> None)
  /\ Forall (fun c => ws_Status c = "completed" \/ ws_Status c = "failed")
            (ret_calls (fst r)).
Proof.
  intros r. subst r. unfold HandleWithWebSearch.
  destruct (Run_facts _ _ _ _ _ _ _ _
              (run_shape chatReq apiKey targetCfg maxIterations
                 (mkLoopState (cr_Messages chatReq) [] env0)))
    as (newCalls & added & Hcalls & _ & _ & Hst & _ & _ & Hone).
  cbn [webSearchCalls app] in Hcalls. rewrite Hcalls. split; assumption.
Qed.

(** The searches returned by [HandleWithWebSearch] are the searches it
    made: the queries of the returned records, in order, are the queries
    that went to the search manager during the call, in order. *)
Theorem returned_searches_are_the_searches_made
  (chatReq : ChatCompletionRequest) (apiKey : string)
  (targetCfg : TargetConfig) (env0 : Env World) :
  let r := HandleWithWebSearch World clientDo unmarshalResponse unmarshalQuery
             managerSearch chatReq apiKey targetCfg env0 in
  exists added,
    trace (snd r) = trace env0 ++ added
    /\ searchQueries added = map ws_Query (ret_calls (fst r)).
Proof.
  intros r. subst r. unfold HandleWithWebSearch.
  destruct (Run_facts _ _ _ _ _ _ _ _
              (run_shape chatReq apiKey targetCfg maxIterations
                 (mkLoopState (cr_Messages chatReq) [] env0)))
    as (newCalls & added & Hcalls & Htr & Hq & _).
  cbn [webSearchCalls app messages env] in Hcalls, Htr.
  exists added. rewrite Hcalls. split; assumption.
Qed.

(** Every request that [HandleWithWebSearch] sends upstream goes to the
    URL of the target with the caller's key, is never streamed, keeps the
    model, the tools and the sampling settings of the request it was given,
    and carries messages that start with the messages of that request: the
    conversation only grows.  The first thing the handler does is to send
    the request with exactly those messages. *)
Theorem upstream_requests_extend_the_conversation
  (chatReq : ChatCompletionRequest) (apiKey : string)
  (targetCfg : TargetConfig) (env0 : Env World) :
  let r := HandleWithWebSearch World clientDo unmarshalResponse unmarshalQuery
             managerSearch chatReq apiKey targetCfg env0 in
  exists rest,
    trace (snd r)
    = trace env0
      ++ UpstreamCall (tg_BaseURL targetCfg +:+ tg_PathSuffix targetCfg) apiKey
           (currentReq chatReq (cr_Messages chatReq)) :: rest
    /\ Forall (continues chatReq apiKey targetCfg (cr_Messages chatReq)) rest.
Proof.
  intros r. subst r. unfold HandleWithWebSearch.
  destruct (Run_facts _ _ _ _ _ _ _ _
              (run_shape chatReq apiKey targetCfg maxIterations
                 (mkLoopState (cr_Messages chatReq) [] env0)))
    as (newCalls & added & _ & Htr & _ & _ & Hcont & (rest & Hfirst) & _).
  cbn [messages env] in Htr, Hcont, Hfirst.
  exists rest. rewrite Htr, Hfirst. split; [reflexivity|].
  rewrite Hfirst in Hcont. inversion Hcont; assumption.
Qed.

End Loop.

End WebSearchFacts.

(** ** The MCP provider *)

Module MCPFacts.
Import Models Logger MCP.

(** *** The event-stream wrapping *)

(** The text holds no line feed. *)
Fixpoint noLF (s : string) : bool :=
  match s with
  | EmptyString => true
  | String c rest => negb (Ascii.eqb c "010"%char) && noLF rest
  end.

(** The lines, each followed by a line feed. *)
Definition unlines (lines : list string) : string :=
  fold_right (fun line acc => line +:+ nl +:+ acc) EmptyString lines.

Lemma splitLines_noLF (s : string) : noLF s = true -> splitLines s = [ s ].
Proof.
  induction s as [|c s IH]; [reflexivity|].
  cbn [noLF splitLines]. intros H. apply andb_true_iff in H as [Hc Hs].
  apply negb_true_iff in Hc. rewrite Hc, (IH Hs). reflexivity.
Qed.

Lemma splitLines_line (a b : string) :
  noLF a = true -> splitLines (a +:+ nl +:+ b) = a :: splitLines b.
Proof.
  induction a as [|c a IH]; [reflexivity|].
  cbn [noLF]. intros H. apply andb_true_iff in H as [Hc Ha].
  apply negb_true_iff in Hc.
  rewrite StringFacts.append_cons. cbn [splitLines]. rewrite Hc, (IH Ha).
  reflexivity.
Qed.

Lemma splitLines_unlines (lines : list string) (s : string) :
  Forall (fun line => noLF line = true) lines ->
  splitLines (unlines lines +:+ s) = lines ++ splitLines s.
Proof.
  induction 1 as [|line lines Hline _ IH]; [reflexivity|].
  cbn [unlines fold_right app]. fold (unlines lines).
  rewrite !StringFacts.append_assoc, (splitLines_line _ _ Hline), IH.
  reflexivity.
Qed.

Lemma find_skip {A : Type} (f : A -> bool) (l l' : list A) :
  Forall (fun x => f x = false) l -> find f (l ++ l') = find f l'.
Proof.
  induction 1 as [|x l Hx _ IH]; [reflexivity|].
  cbn [app find]. rewrite Hx. exact IH.
Qed.

(** [parseSSEResponse] undoes the event-stream wrapping: from a body whose
    lines before the first data line hold other fields, it returns the
    payload of that data line, whatever follows the line. *)
Theorem sse_payload_unwrapped (fields : list string) (payload rest : string) :
  Forall (fun line => noLF line = true /\ HasPrefix line "data:" = false)
         fields ->
  noLF payload = true ->
  parseSSEResponse (unlines fields +:+ "data:" +:+ payload) = payload
  /\ parseSSEResponse (unlines fields +:+ "data:" +:+ payload +:+ nl +:+ rest)
     = payload.
Proof.
  intros Hfields Hpayload.
  assert (Hlf : Forall (fun line => noLF line = true) fields).
  { eapply Forall_impl; [exact Hfields|]. intros line [H _]. exact H. }
  assert (Hno : Forall (fun line => HasPrefix line "data:" = false) fields).
  { eapply Forall_impl; [exact Hfields|]. intros line [_ H]. exact H. }
  assert (Hdata : noLF ("data:" +:+ payload) = true) by exact Hpayload.
  unfold parseSSEResponse. split.
  - rewrite (splitLines_unlines _ _ Hlf), (splitLines_noLF _ Hdata).
    rewrite (find_skip _ _ _ Hno). cbn [find]. unfold HasPrefix at 1.
    rewrite StringFacts.prefix_append. apply StringFacts.TrimPrefix_append.
  - rewrite (splitLines_unlines _ _ Hlf).
    change ("data:" +:+ payload +:+ nl +:+ rest)
      with (("data:" +:+ payload) +:+ nl +:+ rest).
    rewrite (splitLines_line _ _ Hdata), (find_skip _ _ _ Hno).
    cbn [find]. unfold HasPrefix at 1.
    rewrite StringFacts.prefix_append. apply StringFacts.TrimPrefix_append.
Qed.

Lemma sse_payload_unwrapped_witness :
  parseSSEResponse ("id:1" +:+ nl +:+ "event:message" +:+ nl +:+ "data:{}")
  = "{}"
  /\ parseSSEResponse
       ("id:1" +:+ nl +:+ "event:message" +:+ nl +:+ "data:{}" +:+ nl +:+ nl)
     = "{}".
Proof.
  apply (sse_payload_unwrapped [ "id:1"; "event:message" ] "{}" nl).
  - repeat constructor.
  - reflexivity.
Defined.

(** *** The rounds of Search *)

Section Provider.

Variable World : Type.
Variable httpPost :
  string -> list (string * string) -> mcpRequest -> World -> HTTPAnswer * World.
Variable unmarshalResponse : string -> result mcpResponse.
Variable unmarshalContent : string -> result contentResult.
Variable unmarshalAny : string -> result JSON.
Variable unmarshalResults : string -> result (list mcpSearchResult).
Variable convertResults : list JSON -> result (list mcpSearchResult).
Variable p : MCPProvider.

Local Abbreviation ensure := (ensureSession World httpPost p).
Local Abbreviation send := (sendMCPRequest World httpPost unmarshalResponse p).
Local Abbreviation parse :=
  (parseResults World unmarshalAny unmarshalResults convertResults).
Local Abbreviation round :=
  (attempt World httpPost unmarshalResponse unmarshalContent unmarshalAny
     unmarshalResults convertResults p).
Local Abbreviation rounds :=
  (attempts World httpPost unmarshalResponse unmarshalContent unmarshalAny
     unmarshalResults convertResults p).
Local Abbreviation search :=
  (Search World httpPost unmarshalResponse unmarshalContent unmarshalAny
     unmarshalResults convertResults p).

(** The header of a request sent with the session id [id]. *)
Definition headerWith (id : string) : list (string * string) :=
  if negb (String.eqb id EmptyString)
  then baseHeader p ++ [ ("mcp-session-id", id) ]
  else baseHeader p.

Lemma ensure_cached (env0 : Env World) :
  sessionID env0 <> EmptyString -> ensure env0 = (None, env0).
Proof.
  intros Hid. unfold ensureSession.
  destruct (String.eqb_spec (sessionID env0) EmptyString) as [H|_];
    [contradiction|reflexivity].
Qed.

Lemma ensure_trace (env0 : Env World) :
  trace (snd (ensure env0))
  = trace env0
    ++ (if String.eqb (sessionID env0) EmptyString
        then [ Post (baseHeader p) initializeRequest ] else []).
Proof.
  destruct (String.eqb_spec (sessionID env0) EmptyString) as [Hid|Hid].
  - apply ensureSession_fresh, Hid.
  - rewrite (ensure_cached _ Hid). cbn [snd]. now rewrite app_nil_r.
Qed.

Lemma send_effect (req : mcpRequest) (env0 : Env World) :
  trace (snd (send req env0))
  = trace env0 ++ [ Post (headerWith (sessionID env0)) req ]
  /\ sessionID (snd (send req env0)) = sessionID env0.
Proof.
  unfold sendMCPRequest, headerWith.
  destruct (httpPost _ _ req (world env0)) as [answer w].
  destruct answer as [e|e|e|header [body|e]]; cbn [snd trace sessionID];
    try (split; reflexivity).
  destruct (unmarshalResponse (parseSSEResponse body)); split; reflexivity.
Qed.

Lemma parse_keeps (query text : string) (env0 : Env World) :
  trace (snd (parse query text env0)) = trace env0
  /\ sessionID (snd (parse query text env0)) = sessionID env0.
Proof.
  unfold parseResults.
  destruct (unmarshalAny text) as [firstParse|e]; [|split; reflexivity].
  destruct firstParse as [| | |v|v|]; try (split; reflexivity).
  - destruct (unmarshalResults v); split; reflexivity.
  - destruct (convertResults v); split; reflexivity.
Qed.


(** What one round adds after its handshake: nothing when the handshake
    failed; else the tools/call, followed by the reset of the session
    exactly when the round ends with [continue].  The session id changes
    only through the handshake and the reset. *)
Lemma round_effect (query : string) (env0 : Env World) :
  let envA := snd (ensure env0) in
  let r := round query env0 in
  match fst (ensure env0) with
  | Some e =>
      r = (Return (Err ("failed to establish MCP session: " +:+ e)), envA)
  | None =>
      match fst r with
      | Return _ =>
          trace (snd r)
          = trace envA
            ++ [ Post (headerWith (sessionID envA)) (toolsCallRequest p query) ]
          /\ sessionID (snd r) = sessionID envA
      | Continue =>
          trace (snd r)
          = trace envA
            ++ [ Post (headerWith (sessionID envA)) (toolsCallRequest p query);
                 ClearSession ]
          /\ sessionID (snd r) = EmptyString
      end
  end.
Proof.
  cbv zeta. unfold attempt.
  destruct (ensure env0) as [[e|] envA]; cbn [fst snd]; [reflexivity|].
  destruct (send_effect (toolsCallRequest p query) envA) as [Htrace Hid].
  destruct (send (toolsCallRequest p query) envA) as [[resp|e] envB];
    cbn [fst snd] in *; [|split; assumption].
  assert (Hclear :
            trace (clearSession World envB)
            = trace envA
              ++ [ Post (headerWith (sessionID envA)) (toolsCallRequest p query);
                   ClearSession ]
            /\ sessionID (clearSession World envB) = EmptyString).
  { cbn [clearSession trace sessionID]. rewrite Htrace, <- app_assoc.
    split; reflexivity. }
  destruct (rsp_Error resp) as [e|].
  { destruct (isAuthError e); cbn [fst snd]; [exact Hclear|split; assumption]. }
  destruct (unmarshalContent (rsp_Result resp)) as [content|e];
    cbn [fst snd]; [|split; assumption].
  destruct (cres_IsError content).
  - destruct (cres_Content content) as [|first rest];
      cbn [fst snd]; [split; assumption|].
    destruct (Contains (ce_Text first) "apikey" || Contains (ce_Text first) "-401");
      cbn [fst snd]; [exact Hclear|split; assumption].
  - destruct (cres_Content content) as [|first rest];
      cbn [fst snd]; [split; assumption|].
    destruct (parse_keeps query (ce_Text first)
                (MCP.logLine World LevelDebug "MCP content text" envB))
      as [Hpt Hpid].
    destruct (parse query (ce_Text first) _) as [r envC].
    cbn [fst snd trace sessionID MCP.logLine] in *.
    rewrite Hpt, Hpid. split; assumption.
Qed.


(** The effects of a Search for [query]: a POST carries the key of the
    provider and is the handshake or the tools/call for [query]. *)
Definition ofSearch (query : string) (e : Effect) : Prop :=
  match e with
  | ClearSession => True
  | Post header req =>
      (exists extra, header = baseHeader p ++ extra)
      /\ In ("Authorization", "Bearer " +:+ p_apiKey p) header
      /\ (req = initializeRequest \/ req = toolsCallRequest p query)
  end.

Lemma ofSearch_handshake (query : string) :
  ofSearch query (Post (baseHeader p) initializeRequest).
Proof.
  split; [exists []; now rewrite app_nil_r|].
  split; [|left; reflexivity]. cbn. auto.
Qed.

Lemma ofSearch_call (query id : string) :
  ofSearch query (Post (headerWith id) (toolsCallRequest p query)).
Proof.
  unfold headerWith.
  destruct (negb (String.eqb id EmptyString)); cbn [ofSearch].
  - split; [eexists; reflexivity|]. split; [|right; reflexivity].
    apply in_or_app. left. cbn. auto.
  - split; [exists []; now rewrite app_nil_r|].
    split; [|right; reflexivity]. cbn. auto.
Qed.

(** The bounds on what one round adds. *)
Lemma round_added (query : string) (env0 : Env World) :
  exists added,
    trace (snd (round query env0)) = trace env0 ++ added
    /\ (length (List.filter isToolsCall added) <= 1)%nat
    /\ (length (List.filter isInitialize added) <= 1)%nat
    /\ (length added <= 3)%nat
    /\ Forall (ofSearch query) added.
Proof.
  pose proof (round_effect query env0) as Hround. cbv zeta in Hround.
  pose proof (ensure_trace env0) as Hensure.
  set (hs := if String.eqb (sessionID env0) EmptyString
             then [ Post (baseHeader p) initializeRequest ] else []) in *.
  assert (Hhs : (length (List.filter isToolsCall hs) = 0)%nat
                /\ (length (List.filter isInitialize hs) <= 1)%nat
                /\ (length hs <= 1)%nat
                /\ Forall (ofSearch query) hs).
  { subst hs. destruct (String.eqb (sessionID env0) EmptyString).
    - cbn. repeat split; try lia.
      constructor; [apply ofSearch_handshake|constructor].
    - cbn. repeat split; try lia. constructor. }
  destruct Hhs as (Hhs1 & Hhs2 & Hhs3 & Hhs4).
  destruct (fst (ensure env0)) as [e|].
  { rewrite Hround. cbn [snd]. exists hs. rewrite Hensure.
    repeat split; try assumption; lia. }
  destruct (fst (round query env0)); destruct Hround as [Htrace _];
    rewrite Htrace, Hensure, <- app_assoc; eexists; (split; [reflexivity|]);
    rewrite !List.filter_app, !length_app; cbn; repeat split; try lia;
    apply Forall_app; (split; [exact Hhs4|]);
    repeat (constructor; try apply ofSearch_call); exact I.
Qed.

(** A Search makes at most two tools/call requests and at most two
    handshakes, six steps in all, and none at all when the provider has no
    key; every request it posts carries the key of the provider and is the
    handshake or the tools/call for the query it was given. *)
Theorem search_posts_bounded (query : string) (env0 : Env World) :
  exists added,
    trace (snd (search query env0)) = trace env0 ++ added
    /\ (length (List.filter isToolsCall added) <= 2)%nat
    /\ (length (List.filter isInitialize added) <= 2)%nat
    /\ (length added <= if IsAvailable p then 6 else 0)%nat
    /\ Forall (ofSearch query) added.
Proof.
  unfold Search. destruct (IsAvailable p); cbn [negb].
  2:{ exists []. cbn. rewrite app_nil_r. repeat split; try lia. constructor. }
  cbn [attempts].
  destruct (round_added query env0) as (a1 & H1 & Ht1 & Hi1 & Hl1 & Hf1).
  destruct (round query env0) as [[r|] env1]; cbn [snd] in *.
  { exists a1. repeat split; try assumption; lia. }
  destruct (round_added query env1) as (a2 & H2 & Ht2 & Hi2 & Hl2 & Hf2).
  assert (Hboth : trace (snd (round query env1)) = trace env0 ++ a1 ++ a2
                  /\ (length (List.filter isToolsCall (a1 ++ a2)) <= 2)%nat
                  /\ (length (List.filter isInitialize (a1 ++ a2)) <= 2)%nat
                  /\ (length (a1 ++ a2) <= 6)%nat
                  /\ Forall (ofSearch query) (a1 ++ a2)).
  { rewrite H2, H1, <- app_assoc, !List.filter_app, !length_app.
    repeat split; try lia. apply Forall_app. split; assumption. }
  destruct (round query env1) as [[r|] env2]; cbn [snd] in *;
    exists (a1 ++ a2); exact Hboth.
Qed.


(** A session that the provider holds is reused: Search starts with the
    tools/call, sent with the session id in the mcp-session-id header and
    without a handshake before it.  Either nothing follows and the session
    is kept, or the session is reset and the next step is a handshake. *)
Theorem cached_session_is_reused (query : string) (env0 : Env World) :
  IsAvailable p = true ->
  sessionID env0 <> EmptyString ->
  let r := search query env0 in
  let call := Post (baseHeader p ++ [ ("mcp-session-id", sessionID env0) ])
                   (toolsCallRequest p query) in
  (trace (snd r) = trace env0 ++ [ call ] /\ sessionID (snd r) = sessionID env0)
  \/ (exists rest,
        trace (snd r)
        = trace env0
          ++ call :: ClearSession :: Post (baseHeader p) initializeRequest :: rest).
Proof.
  intros Havail Hid r call. subst r. unfold Search. rewrite Havail.
  cbn [negb attempts].
  pose proof (round_effect query env0) as Hround. cbv zeta in Hround.
  rewrite (ensure_cached _ Hid) in Hround. cbn [fst snd] in Hround.
  assert (Hheader : headerWith (sessionID env0)
                    = baseHeader p ++ [ ("mcp-session-id", sessionID env0) ]).
  { unfold headerWith.
    destruct (String.eqb_spec (sessionID env0) EmptyString) as [H|_];
      [contradiction|reflexivity]. }
  rewrite Hheader in Hround. fold call in Hround.
  destruct (round query env0) as [[r1|] env1]; cbn [fst snd] in *.
  { left. exact Hround. }
  destruct Hround as [Htrace Hcleared]. right.
  destruct (attempt_trace_fresh World httpPost unmarshalResponse
              unmarshalContent unmarshalAny unmarshalResults convertResults p
              query env1 Hcleared) as (rest & Hrest & _).
  exists rest.
  destruct (round query env1) as [[r2|] env2]; cbn [snd] in *;
    rewrite Hrest, Htrace, <- app_assoc; reflexivity.
Qed.

End Provider.


Lemma cached_session_is_reused_witness :
  let r := Search nat expiredPost demoUnmarshalResponse demoUnmarshalContent
             demoUnmarshalAny demoUnmarshalResults demoConvertResults
             demoProvider "rocq" (mkEnv 1%nat "sess-1" [] []) in
  let call := Post (baseHeader demoProvider ++ [ ("mcp-session-id", "sess-1") ])
                   (toolsCallRequest demoProvider "rocq") in
  (trace (snd r) = [] ++ [ call ] /\ sessionID (snd r) = "sess-1")
  \/ (exists rest,
        trace (snd r)
        = [] ++ call :: ClearSession
             :: Post (baseHeader demoProvider) initializeRequest :: rest).
Proof.
  apply (cached_session_is_reused nat expiredPost demoUnmarshalResponse
           demoUnmarshalContent demoUnmarshalAny demoUnmarshalResults
           demoConvertResults demoProvider "rocq"
           (mkEnv 1%nat "sess-1" [] [])).
  - reflexivity.
  - discriminate.
Defined.

End MCPFacts.

(** ** The manager of the providers *)

Module ManagerFacts.
Import Models Logger Manager.

(** The provider that [NewManager] makes of the configuration [cfg]
    found under [name], if it makes one. *)
Definition newProvider (name : string) (cfg : ProviderConfig)
  : option Provider :=
  if String.eqb (pc_APIKey cfg) EmptyString then None
  else if String.eqb (pc_Type cfg) "mcp"
       then Some (MCPProv (NewMCPProvider name cfg))
  else if String.eqb (pc_Type cfg) "firecrawl"
       then Some (FirecrawlProv (NewFirecrawlProvider name cfg))
  else None.

Lemma registerProvider_fst (registered : gmap string Provider)
  (log : list LogEntry) (name : string) (cfg : ProviderConfig) :
  fst (registerProvider (registered, log) (name, cfg))
  = match newProvider name cfg with
    | Some p => <[name := p]> registered
    | None => registered
    end.
Proof.
  unfold registerProvider, newProvider.
  destruct (String.eqb (pc_APIKey cfg) EmptyString); [reflexivity|].
  destruct (String.eqb (pc_Type cfg) "mcp"); [reflexivity|].
  destruct (String.eqb (pc_Type cfg) "firecrawl"); reflexivity.
Qed.

Lemma newProvider_available (name : string) (cfg : ProviderConfig)
  (p : Provider) :
  newProvider name cfg = Some p -> IsAvailable p = true /\ Name p = name.
Proof.
  unfold newProvider.
  destruct (String.eqb (pc_APIKey cfg) EmptyString) eqn:Hkey; [discriminate|].
  destruct (String.eqb (pc_Type cfg) "mcp").
  { intros [= <-]. cbn. unfold MCP.IsAvailable. cbn. rewrite Hkey. auto. }
  destruct (String.eqb (pc_Type cfg) "firecrawl"); [|discriminate].
  intros [= <-]. cbn. rewrite Hkey. auto.
Qed.

(** The loop of [NewManager], whatever its order. *)
Lemma register_lookup (l : list (string * ProviderConfig))
  (registered : gmap string Provider) (log : list LogEntry) (k : string) :
  NoDup l.*1 ->
  fst (fold_left registerProvider l (registered, log)) !! k
  = match (list_to_map l : gmap string ProviderConfig) !! k with
    | Some cfg =>
        match newProvider k cfg with
        | Some p => Some p
        | None => registered !! k
        end
    | None => registered !! k
    end.
Proof.
  revert registered log.
  induction l as [|[k0 cfg0] l IH]; intros registered log Hnodup.
  { reflexivity. }
  apply NoDup_cons in Hnodup as [Hfresh Hnodup].
  cbn [fold_left].
  pose proof (registerProvider_fst registered log k0 cfg0) as Hstep.
  destruct (registerProvider (registered, log) (k0, cfg0)) as [registered' log'].
  cbn [fst] in Hstep. rewrite (IH _ _ Hnodup), list_to_map_cons.
  destruct (decide (k = k0)) as [->|Hne].
  - rewrite lookup_insert_eq, (not_elem_of_list_to_map_1 _ _ Hfresh), Hstep.
    destruct (newProvider k0 cfg0); [apply lookup_insert_eq|reflexivity].
  - rewrite lookup_insert_ne by congruence.
    assert (Hsame : registered' !! k = registered !! k).
    { rewrite Hstep. destruct (newProvider k0 cfg0); [|reflexivity].
      apply lookup_insert_ne. congruence. }
    rewrite Hsame. reflexivity.
Qed.

Lemma firstAvailable_Some (l : list (string * Provider)) (name : string)
  (p : Provider) :
  firstAvailable l = Some (name, p) -> (name, p) ∈ l /\ IsAvailable p = true.
Proof.
  induction l as [|[name0 p0] l IH]; cbn [firstAvailable]; [discriminate|].
  destruct (IsAvailable p0) eqn:Hp0.
  - intros [= <- <-]. split; [left|exact Hp0].
  - intros H. destruct (IH H) as [Hin Hp]. split; [right; exact Hin|exact Hp].
Qed.

Lemma firstAvailable_None (l : list (string * Provider)) :
  firstAvailable l = None ->
  forall name p, (name, p) ∈ l -> IsAvailable p = false.
Proof.
  induction l as [|[name0 p0] l IH]; cbn [firstAvailable]; intros H name p Hin.
  { inversion Hin. }
  destruct (IsAvailable p0) eqn:Hp0; [discriminate|].
  apply elem_of_cons in Hin as [[= -> ->]|Hin]; [exact Hp0|].
  exact (IH H name p Hin).
Qed.

Section Manager.

Variable World : Type.
Variable providerSearch :
  Provider -> string -> World -> result (option SearchProviderResult) * World.
Variable rangeConfig :
  gmap string ProviderConfig -> list (string * ProviderConfig).
Variable rangeHas : gmap string Provider -> list (string * Provider).
Variable rangeSearch : gmap string Provider -> list (string * Provider).

Lemma NewManager_lookup (cfg : WebSearchConfig) (name : string) :
  rangeConfig (wsc_Providers cfg) ≡ₚ map_to_list (wsc_Providers cfg) ->
  providers (fst (NewManager rangeConfig cfg)) !! name
  = if wsc_Enabled cfg
    then wsc_Providers cfg !! name ≫= newProvider name
    else None.
Proof.
  intros Hperm. unfold NewManager.
  destruct (wsc_Enabled cfg); cbn [negb]; [|apply lookup_empty].
  assert (Hnodup : NoDup (rangeConfig (wsc_Providers cfg)).*1).
  { rewrite Hperm. apply NoDup_fst_map_to_list. }
  pose proof (register_lookup (rangeConfig (wsc_Providers cfg)) ∅ [] name
                Hnodup) as Hreg.
  rewrite (list_to_map_proper _ _ Hnodup Hperm), list_to_map_to_list in Hreg.
  destruct (fold_left registerProvider _ _) as [registered log].
  cbn [fst providers] in *. rewrite Hreg, lookup_empty.
  destruct (wsc_Providers cfg !! name) as [c|]; [|reflexivity].
  cbn. destruct (newProvider name c); reflexivity.
Qed.

Lemma NewManager_all_available (cfg : WebSearchConfig) (name : string)
  (p : Provider) :
  rangeConfig (wsc_Providers cfg) ≡ₚ map_to_list (wsc_Providers cfg) ->
  providers (fst (NewManager rangeConfig cfg)) !! name = Some p ->
  IsAvailable p = true /\ Name p = name.
Proof.
  intros Hperm Hp. rewrite (NewManager_lookup _ _ Hperm) in Hp.
  destruct (wsc_Enabled cfg); [|discriminate].
  destruct (wsc_Providers cfg !! name) as [c|]; [|discriminate].
  apply (newProvider_available name c), Hp.
Qed.

(** [NewManager] registers a provider for exactly the configured names
    that have an API key and the type mcp or firecrawl, whatever the order
    in which it visits the configuration, and none when web search is
    disabled; so every provider of the manager it builds is available and
    is registered under its own name. *)
Theorem NewManager_registers (cfg : WebSearchConfig) :
  rangeConfig (wsc_Providers cfg) ≡ₚ map_to_list (wsc_Providers cfg) ->
  let m := fst (NewManager rangeConfig cfg) in
  enabled m = wsc_Enabled cfg
  /\ defaultProvider m = wsc_Default cfg
  /\ (forall name,
        providers m !! name
        = if wsc_Enabled cfg
          then wsc_Providers cfg !! name ≫= newProvider name
          else None)
  /\ (forall name p,
        providers m !! name = Some p -> IsAvailable p = true /\ Name p = name).
Proof.
  intros Hperm m.
  split.
  { subst m. unfold NewManager. destruct (wsc_Enabled cfg); cbn [negb];
      [|reflexivity].
    destruct (fold_left registerProvider _ _); reflexivity. }
  split.
  { subst m. unfold NewManager. destruct (wsc_Enabled cfg); cbn [negb];
      [|reflexivity].
    destruct (fold_left registerProvider _ _); reflexivity. }
  split.
  - intros name. apply NewManager_lookup, Hperm.
  - intros name p. apply NewManager_all_available, Hperm.
Qed.

(** For a manager built by [NewManager] the availability checks never
    fail: [HasAvailableProvider] is false exactly when no provider is
    registered, which is the case when web search is disabled. *)
Theorem built_manager_available (cfg : WebSearchConfig) :
  rangeConfig (wsc_Providers cfg) ≡ₚ map_to_list (wsc_Providers cfg) ->
  let m := fst (NewManager rangeConfig cfg) in
  rangeHas (providers m) ≡ₚ map_to_list (providers m) ->
  (HasAvailableProvider rangeHas m = false <-> providers m = ∅)
  /\ (wsc_Enabled cfg = false -> providers m = ∅).
Proof.
  intros Hperm m Hhas. split; [split|].
  - intros Hnone. apply map_empty. intros name.
    destruct (providers m !! name) as [p|] eqn:Hp; [|reflexivity].
    exfalso.
    destruct (NewManager_all_available cfg name p Hperm Hp) as [Havail _].
    pose proof (NewManager_lookup cfg name Hperm) as Hlookup.
    fold m in Hlookup. rewrite Hp in Hlookup.
    assert (Hon : enabled m = true).
    { subst m. unfold NewManager.
      destruct (wsc_Enabled cfg); [|discriminate]. cbn [negb].
      destruct (fold_left registerProvider _ _); reflexivity. }
    unfold HasAvailableProvider in Hnone. rewrite Hon in Hnone. cbn [negb] in Hnone.
    destruct (firstAvailable (rangeHas (providers m))) as [found|] eqn:Hfirst;
      [discriminate|].
    assert (Hno : IsAvailable p = false).
    { apply (firstAvailable_None _ Hfirst name). rewrite Hhas.
      apply elem_of_map_to_list, Hp. }
    congruence.
  - intros Hempty. unfold HasAvailableProvider.
    destruct (negb (enabled m)); [reflexivity|].
    rewrite Hempty, map_to_list_empty in Hhas.
    apply Permutation_nil_r in Hhas. rewrite Hempty, Hhas. reflexivity.
  - intros Hoff. apply map_empty. intros name.
    pose proof (NewManager_lookup cfg name Hperm) as Hlookup.
    fold m in Hlookup. rewrite Hoff in Hlookup. exact Hlookup.
Qed.

(** [Search] and [HasAvailableProvider] agree, whatever the orders in
    which they visit the providers.  When [HasAvailableProvider] is true,
    [Search] passes the query to one provider, which is registered and
    available and is the default provider whenever that one is registered
    and available, and returns what it returns.  When it is false,
    [Search] calls no provider and returns one of its two errors. *)
Theorem search_agrees_with_availability (m : Manager) (query : string)
  (env : Env World) :
  rangeHas (providers m) ≡ₚ map_to_list (providers m) ->
  rangeSearch (providers m) ≡ₚ map_to_list (providers m) ->
  let r := Search World providerSearch rangeSearch m query env in
  if HasAvailableProvider rangeHas m then
    exists name p,
      providers m !! name = Some p
      /\ IsAvailable p = true
      /\ fst r = fst (providerSearch p query (world env))
      /\ world (snd r) = snd (providerSearch p query (world env))
      /\ called (snd r) = called env ++ [ (name, query) ]
      /\ (forall d,
            defaultProvider m <> EmptyString ->
            providers m !! defaultProvider m = Some d ->
            IsAvailable d = true -> name = defaultProvider m)
  else
    snd r = env
    /\ (fst r = Err "web search is disabled"
        \/ fst r = Err "no available search provider").
Proof.
  intros Hhas Hsearch r. subst r. unfold HasAvailableProvider, Search.
  destruct (enabled m); cbn [negb]; [|split; [reflexivity|left; reflexivity]].
  assert (Hcall : forall name p env',
            world env' = world env -> called env' = called env ->
            fst (callProvider World providerSearch name p query env')
            = fst (providerSearch p query (world env))
            /\ world (snd (callProvider World providerSearch name p query env'))
               = snd (providerSearch p query (world env))
            /\ called (snd (callProvider World providerSearch name p query env'))
               = called env ++ [ (name, query) ]).
  { intros name p env' Hw Hc. unfold callProvider. rewrite Hw, Hc.
    destruct (providerSearch p query (world env)); repeat split. }
  destruct (firstAvailable (rangeHas (providers m))) as [[name0 p0]|] eqn:Hfirst.
  - apply firstAvailable_Some in Hfirst as [Hin0 Hp0].
    rewrite Hhas in Hin0. apply elem_of_map_to_list in Hin0.
    destruct (String.eqb_spec (defaultProvider m) EmptyString) as [Hd|Hd];
      cbn [negb].
    + destruct (firstAvailable (rangeSearch (providers m))) as [[name p]|]
        eqn:Hfb.
      * apply firstAvailable_Some in Hfb as [Hin Hp].
        rewrite Hsearch in Hin. apply elem_of_map_to_list in Hin.
        exists name, p.
        destruct (Hcall name p
                    (logLine World LevelDebug "using fallback provider" env)
                    eq_refl eq_refl) as (H1 & H2 & H3).
        repeat (split; [assumption|]). intros d Hne. contradiction.
      * exfalso.
        assert (Hnone : IsAvailable p0 = false).
        { apply (firstAvailable_None _ Hfb name0). rewrite Hsearch.
          apply elem_of_map_to_list, Hin0. }
        congruence.
    + destruct (providers m !! defaultProvider m) as [d|] eqn:Hdef.
      * destruct (IsAvailable d) eqn:Havail.
        -- exists (defaultProvider m), d.
           destruct (Hcall (defaultProvider m) d env eq_refl eq_refl)
             as (H1 & H2 & H3).
           repeat (split; [assumption|]). reflexivity.
        -- destruct (firstAvailable (rangeSearch (providers m))) as [[name p]|]
             eqn:Hfb.
           ++ apply firstAvailable_Some in Hfb as [Hin Hp].
              rewrite Hsearch in Hin. apply elem_of_map_to_list in Hin.
              exists name, p.
              destruct (Hcall name p
                          (logLine World LevelDebug "using fallback provider"
                             env) eq_refl eq_refl) as (H1 & H2 & H3).
              repeat (split; [assumption|]). intros d' _ [= <-] Hd'. congruence.
           ++ exfalso.
              assert (Hnone : IsAvailable p0 = false).
              { apply (firstAvailable_None _ Hfb name0). rewrite Hsearch.
                apply elem_of_map_to_list, Hin0. }
              congruence.
      * destruct (firstAvailable (rangeSearch (providers m))) as [[name p]|]
          eqn:Hfb.
        -- apply firstAvailable_Some in Hfb as [Hin Hp].
           rewrite Hsearch in Hin. apply elem_of_map_to_list in Hin.
           exists name, p.
           destruct (Hcall name p
                       (logLine World LevelDebug "using fallback provider" env)
                       eq_refl eq_refl) as (H1 & H2 & H3).
           repeat (split; [assumption|]). intros d' _ [=].
        -- exfalso.
           assert (Hnone : IsAvailable p0 = false).
           { apply (firstAvailable_None _ Hfb name0). rewrite Hsearch.
             apply elem_of_map_to_list, Hin0. }
           congruence.
  - assert (Hnone : forall name p,
              providers m !! name = Some p -> IsAvailable p = false).
    { intros name p Hp. apply (firstAvailable_None _ Hfirst name).
      rewrite Hhas. apply elem_of_map_to_list, Hp. }
    assert (Hpref :
              (if negb (String.eqb (defaultProvider m) EmptyString)
               then match providers m !! defaultProvider m with
                    | Some p => if IsAvailable p then Some p else None
                    | None => None
                    end
               else None) = None).
    { destruct (negb (String.eqb (defaultProvider m) EmptyString));
        [|reflexivity].
      destruct (providers m !! defaultProvider m) as [d|] eqn:Hdef;
        [|reflexivity].
      rewrite (Hnone _ _ Hdef). reflexivity. }
    rewrite Hpref.
    destruct (firstAvailable (rangeSearch (providers m))) as [[name p]|] eqn:Hfb.
    + exfalso. apply firstAvailable_Some in Hfb as [Hin Hp].
      rewrite Hsearch in Hin. apply elem_of_map_to_list in Hin.
      rewrite (Hnone _ _ Hin) in Hp. discriminate.
    + split; [reflexivity|right; reflexivity].
Qed.

End Manager.

(** *** Examples *)

(** A configuration with an MCP provider that has a key, a Firecrawl
    provider without one, and a provider of an unknown type. *)
Definition demoConfig : WebSearchConfig :=
  mkWebSearchConfig true "zhipu"
    (<["zhipu" := mkProviderConfig "mcp" EmptyString "key-1" EmptyString
                    EmptyString 0 0]>
       (<["crawl" := mkProviderConfig "firecrawl" EmptyString EmptyString
                       EmptyString EmptyString 0 0]>
          (<["other" := mkProviderConfig "rest" EmptyString "key-2" EmptyString
                          EmptyString 0 0]> ∅))).

(** A provider that finds nothing; the world counts the searches. *)
Definition demoSearch (p : Provider) (query : string) (w : nat)
  : result (option SearchProviderResult) * nat :=
  (Ok (Some (mkSearchProviderResult query [] EmptyString)), S w).

Lemma NewManager_registers_witness :
  let m := fst (NewManager map_to_list demoConfig) in
  providers m !! "zhipu"
  = Some (MCPProv (MCP.mkMCPProvider "zhipu"
                     "https://open.bigmodel.cn/api/mcp/web_search_prime/mcp"
                     "key-1" "webSearchPrime" "search_query" 30))
  /\ providers m !! "crawl" = None
  /\ providers m !! "other" = None.
Proof.
  destruct (NewManager_registers map_to_list demoConfig)
    as (_ & _ & Hlookup & _).
  - reflexivity.
  - cbv zeta. rewrite !Hlookup. vm_compute. repeat split; reflexivity.
Defined.

Lemma built_manager_available_witness :
  HasAvailableProvider map_to_list (fst (NewManager map_to_list demoConfig))
  = false
  <-> providers (fst (NewManager map_to_list demoConfig)) = ∅.
Proof.
  destruct (built_manager_available map_to_list map_to_list demoConfig)
    as [Hiff _].
  - reflexivity.
  - reflexivity.
  - exact Hiff.
Defined.

Lemma search_agrees_with_availability_witness :
  let m := fst (NewManager map_to_list demoConfig) in
  let r := Search nat demoSearch map_to_list m "rocq" (mkEnv 0%nat [] []) in
  if HasAvailableProvider map_to_list m then
    exists name p,
      providers m !! name = Some p
      /\ IsAvailable p = true
      /\ fst r = fst (demoSearch p "rocq" 0%nat)
      /\ world (snd r) = snd (demoSearch p "rocq" 0%nat)
      /\ called (snd r) = [] ++ [ (name, "rocq") ]
      /\ (forall d,
            defaultProvider m <> EmptyString ->
            providers m !! defaultProvider m = Some d ->
            IsAvailable d = true -> name = defaultProvider m)
  else
    snd r = mkEnv 0%nat [] []
    /\ (fst r = Err "web search is disabled"
        \/ fst r = Err "no available search provider").
Proof.
  apply (search_agrees_with_availability nat demoSearch map_to_list map_to_list
           (fst (NewManager map_to_list demoConfig)) "rocq"
           (mkEnv 0%nat [] [])); reflexivity.
Defined.

End ManagerFacts.

(** ** The helpers of the proxy handler *)

Module HandlerFacts.
Import Models Handler.

(** *** Paths *)

Lemma Split_nonempty (s : string) (sep : ascii) : Split s sep <> [].
Proof.
  destruct s as [|c s]; cbn [Split]; [discriminate|].
  destruct (Ascii.eqb c sep); [discriminate|].
  destruct (Split s sep); discriminate.
Qed.

Lemma Split_app (a b : string) (sep : ascii) :
  Split (a +:+ String sep b) sep = Split a sep ++ Split b sep.
Proof.
  induction a as [|c a IH].
  - change (EmptyString +:+ String sep b) with (String sep b).
    cbn [Split]. rewrite Ascii.eqb_refl. reflexivity.
  - rewrite StringFacts.append_cons. cbn [Split]. rewrite IH.
    destruct (Ascii.eqb c sep); [reflexivity|].
    pose proof (Split_nonempty a sep) as Hne.
    destruct (Split a sep) as [|part parts]; [contradiction|reflexivity].
Qed.

Lemma Join_Split (s : string) (sep : ascii) :
  Join (Split s sep) (String sep EmptyString) = s.
Proof.
  induction s as [|c s IH]; [reflexivity|].
  cbn [Split]. destruct (Ascii.eqb_spec c sep) as [->|Hne].
  - pose proof (Split_nonempty s sep) as Hsome.
    cbn [Join]. destruct (Split s sep) as [|part parts]; [contradiction|].
    rewrite IH. reflexivity.
  - pose proof (Split_nonempty s sep) as Hsome.
    destruct (Split s sep) as [|part parts]; [contradiction|].
    cbn [Join] in *. destruct parts as [|part' parts].
    + rewrite IH. reflexivity.
    + rewrite StringFacts.append_cons, IH. reflexivity.
Qed.

Lemma afterResponses_skip (l l' : list string) :
  Forall (fun part => part <> "responses") l ->
  afterResponses (l ++ l') = afterResponses l'.
Proof.
  induction 1 as [|part l Hpart _ IH]; [reflexivity|].
  cbn [app afterResponses].
  destruct (String.eqb_spec part "responses") as [Heq|_]; [contradiction|].
  exact IH.
Qed.

(** The text holds no slash. *)
Fixpoint noSlash (s : string) : bool :=
  match s with
  | EmptyString => true
  | String c rest => negb (Ascii.eqb c "/"%char) && noSlash rest
  end.

Lemma Split_noSlash (s : string) : noSlash s = true -> Split s "/"%char = [ s ].
Proof.
  induction s as [|c s IH]; [reflexivity|].
  cbn [noSlash Split]. intros H. apply andb_true_iff in H as [Hc Hs].
  apply negb_true_iff in Hc. rewrite Hc, (IH Hs). reflexivity.
Qed.

Lemma Split_provider_path (provider id : string) :
  noSlash id = true ->
  Split ("/" +:+ provider +:+ "/v1/responses/" +:+ id) "/"%char
  = EmptyString :: Split provider "/"%char ++ [ "v1"; "responses"; id ].
Proof.
  intros Hid.
  change ("/" +:+ provider +:+ "/v1/responses/" +:+ id)
    with (String "/"%char (provider +:+ String "/"%char ("v1/responses/" +:+ id))).
  cbn [Split Ascii.eqb Bool.eqb]. rewrite Split_app. f_equal. f_equal.
  change ("v1/responses/" +:+ id)
    with ("v1" +:+ String "/"%char ("responses" +:+ String "/"%char id)).
  rewrite !Split_app, (Split_noSlash _ Hid). reflexivity.
Qed.

(** [extractResponseID] gives back the id of both forms of the path: the
    whole rest after /v1/responses/, slashes included, and, behind a
    provider none of whose parts is the word responses, the part after
    /v1/responses/. *)
Theorem response_id_recovered (provider id rest : string) :
  Forall (fun part => part <> "responses") (Split provider "/"%char) ->
  noSlash id = true ->
  extractResponseID ("/v1/responses/" +:+ rest) = rest
  /\ extractResponseID ("/" +:+ provider +:+ "/v1/responses/" +:+ id) = id.
Proof.
  intros Hprovider Hid. split.
  { unfold extractResponseID, HasPrefix.
    rewrite StringFacts.prefix_append. apply StringFacts.TrimPrefix_append. }
  unfold extractResponseID.
  pose proof (Split_provider_path provider id Hid) as Hparts.
  destruct (HasPrefix ("/" +:+ provider +:+ "/v1/responses/" +:+ id)
                      "/v1/responses/") eqn:Hprefix.
  - exfalso. unfold HasPrefix in Hprefix.
    apply StringFacts.prefix_true_append in Hprefix as [t Ht].
    rewrite Ht in Hparts.
    change ("/v1/responses/" +:+ t)
      with (EmptyString
            +:+ String "/"%char
                  ("v1" +:+ String "/"%char ("responses" +:+ String "/"%char t)))
      in Hparts.
    rewrite !Split_app in Hparts. cbn [Split app] in Hparts.
    injection Hparts as Hparts.
    pose proof (Split_nonempty provider "/"%char) as Hsome.
    destruct (Split provider "/"%char) as [|first others]; [contradiction|].
    cbn [app] in Hparts. injection Hparts as _ Hothers.
    apply Forall_cons in Hprovider as [_ Hothers'].
    destruct others as [|second others]; cbn [app] in Hothers.
    + discriminate Hothers.
    + injection Hothers as Hsecond _. apply Forall_cons in Hothers' as [Hno _].
      congruence.
  - rewrite Hparts. cbn [afterResponses String.eqb Ascii.eqb Bool.eqb].
    rewrite (afterResponses_skip _ _ Hprovider). reflexivity.
Qed.

Lemma response_id_recovered_witness :
  extractResponseID "/v1/responses/resp/1" = "resp/1"
  /\ extractResponseID "/openai/azure/v1/responses/resp_1" = "resp_1".
Proof.
  apply (response_id_recovered "openai/azure" "resp_1" "resp/1").
  - repeat constructor; discriminate.
  - reflexivity.
Defined.

(** A provider called responses hides the id: for its paths
    [extractResponseID] returns v1, whatever the id. *)
Theorem provider_named_responses_hides_id (id : string) :
  extractResponseID ("/responses/v1/responses/" +:+ id) = "v1".
Proof.
  unfold extractResponseID.
  change ("/responses/v1/responses/" +:+ id)
    with (EmptyString
          +:+ String "/"%char
                ("responses"
                 +:+ String "/"%char
                       ("v1" +:+ String "/"%char
                                   ("responses" +:+ String "/"%char id)))).
  rewrite !Split_app. reflexivity.
Qed.

(** Without the X-Target-Provider header, [parseProvider] gives back the
    provider of the path /{provider}/v1/responses, slashes included; the
    empty provider and the provider v1 give default.  With the header,
    its value wins over the path. *)
Theorem provider_of_path (header : list (string * list string))
  (provider : string) :
  let named := MCP.HeaderGet header "X-Target-Provider" in
  parseProvider header ("/" +:+ provider +:+ "/v1/responses")
  = if negb (String.eqb named EmptyString) then named
    else if String.eqb provider EmptyString || String.eqb provider "v1"
         then "default" else provider.
Proof.
  intros named. subst named. unfold parseProvider.
  destruct (negb (String.eqb (MCP.HeaderGet header "X-Target-Provider")
                             EmptyString)); [reflexivity|].
  assert (Hslash : HasPrefix ("/" +:+ provider +:+ "/v1/responses") "/" = true)
    by apply StringFacts.prefix_append.
  rewrite Hslash.
  rewrite (StringFacts.TrimPrefix_append "/" (provider +:+ "/v1/responses")).
  change (provider +:+ "/v1/responses")
    with (provider +:+ String "/"%char ("v1" +:+ String "/"%char "responses")).
  rewrite !Split_app.
  change (Split "v1" "/"%char ++ Split "responses" "/"%char)
    with [ "v1"; "responses" ].
  pose proof (Split_nonempty provider "/"%char) as Hsome.
  pose proof (Join_Split provider "/"%char) as Hjoin.
  set (parts := Split provider "/"%char) in *.
  assert (Hlen : length (parts ++ [ "v1"; "responses" ])
                 = S (S (length parts))).
  { rewrite length_app. cbn. lia. }
  rewrite Hlen.
  replace (S (S (length parts)) - 2)%nat with (length parts) by lia.
  replace (S (S (length parts)) - 1)%nat with (S (length parts)) by lia.
  assert (Hthree : (3 <=? S (S (length parts)))%nat = true).
  { destruct parts; [contradiction|reflexivity]. }
  rewrite Hthree.
  rewrite (app_nth2 parts _ EmptyString (Nat.le_refl _)), Nat.sub_diag.
  rewrite (app_nth2 parts _ EmptyString (Nat.le_succ_diag_r _)).
  replace (S (length parts) - length parts)%nat with 1%nat by lia.
  cbn [nth String.eqb Ascii.eqb Bool.eqb andb].
  rewrite firstn_app, Nat.sub_diag, firstn_all. cbn [firstn].
  rewrite app_nil_r.
  change "/" with (String "/"%char EmptyString). rewrite Hjoin.
  destruct (String.eqb provider EmptyString); [reflexivity|].
  destruct (String.eqb provider "v1"); reflexivity.
Qed.

(** *** The stored history as output *)

(** The item of a tool call of the message at index [i]. *)
Definition callItem (i : Z) (tc : ToolCall) : OutputItem :=
  mkOutputItem "function_call" ("fc_" +:+ itoa i) EmptyString [] (tc_ID tc)
    (tc_Name tc) (tc_Arguments tc) "completed".

(** The item of the text [v] of the message at index [i]. *)
Definition textItem (i : Z) (role v : string) : OutputItem :=
  mkOutputItem "message" ("msg_" +:+ itoa i) role
    [ mkContentItem "output_text" v EmptyString EmptyString ]
    EmptyString EmptyString EmptyString EmptyString.

(** The items of the message at index [i]. *)
Definition itemsOf (i : Z) (msg : ChatMessage) : list OutputItem :=
  if String.eqb (cm_Role msg) "system" then []
  else
    map (callItem i) (cm_ToolCalls msg)
    ++ match cm_Content msg with
       | ContentString v =>
           if String.eqb v EmptyString then []
           else [ textItem i (cm_Role msg) v ]
       | _ => []
       end.

Fixpoint itemsFrom (i : Z) (messages : list ChatMessage) : list OutputItem :=
  match messages with
  | [] => []
  | msg :: rest => itemsOf i msg ++ itemsFrom (i + 1) rest
  end.

Lemma fold_callItem (i : Z) (tcs : list ToolCall) (output : list OutputItem) :
  fold_left
    (fun output tc =>
       output ++ [ mkOutputItem "function_call" ("fc_" +:+ itoa i)
                     EmptyString [] (tc_ID tc) (tc_Name tc)
                     (tc_Arguments tc) "completed" ])
    tcs output
  = output ++ map (callItem i) tcs.
Proof.
  revert output. induction tcs as [|tc tcs IH]; intros output; cbn [fold_left map].
  - now rewrite app_nil_r.
  - rewrite IH, <- app_assoc. reflexivity.
Qed.

Lemma convertMessage_items (i : Z) (output : list OutputItem)
  (msg : ChatMessage) :
  convertMessage i output msg = output ++ itemsOf i msg.
Proof.
  unfold convertMessage, itemsOf.
  destruct (String.eqb (cm_Role msg) "system"); [now rewrite app_nil_r|].
  rewrite fold_callItem.
  destruct (cm_Content msg) as [|v|ps|j]; cbn [oi_Type String.eqb negb];
    try now rewrite app_nil_r.
  destruct (String.eqb v EmptyString); cbn [negb oi_Type String.eqb].
  - now rewrite app_nil_r.
  - rewrite <- app_assoc. reflexivity.
Qed.

Lemma convertMessagesFrom_items (i : Z) (messages : list ChatMessage)
  (output : list OutputItem) :
  convertMessagesFrom i messages output = output ++ itemsFrom i messages.
Proof.
  revert i output.
  induction messages as [|msg rest IH]; intros i output;
    cbn [convertMessagesFrom itemsFrom].
  - now rewrite app_nil_r.
  - rewrite IH, convertMessage_items, <- app_assoc. reflexivity.
Qed.


(** What an item of the output of the history looks like. *)
Definition historyItem (item : OutputItem) : Prop :=
  (oi_Type item = "function_call" /\ oi_Status item = "completed"
   /\ oi_Role item = EmptyString /\ oi_Content item = [])
  \/ (oi_Type item = "message" /\ oi_Role item <> "system"
      /\ exists v, v <> EmptyString
                   /\ oi_Content item
                      = [ mkContentItem "output_text" v EmptyString EmptyString ]).

Lemma itemsOf_historyItem (i : Z) (msg : ChatMessage) :
  Forall historyItem (itemsOf i msg).
Proof.
  unfold itemsOf.
  destruct (String.eqb_spec (cm_Role msg) "system") as [|Hrole]; [constructor|].
  apply Forall_app. split.
  - apply List.Forall_forall. intros item Hin. apply in_map_iff in Hin.
    destruct Hin as (tc & <- & _). left. repeat split.
  - destruct (cm_Content msg) as [|v|ps|j]; try constructor.
    destruct (String.eqb_spec v EmptyString) as [|Hv]; constructor; [|constructor].
    right. split; [reflexivity|]. split; [exact Hrole|]. exists v. split;
      [exact Hv|reflexivity].
Qed.

Lemma itemsFrom_historyItem (i : Z) (messages : list ChatMessage) :
  Forall historyItem (itemsFrom i messages).
Proof.
  revert i. induction messages as [|msg rest IH]; intros i; cbn [itemsFrom].
  - constructor.
  - apply Forall_app. split; [apply itemsOf_historyItem|apply IH].
Qed.

(** The output made of a stored history holds, message by message and in
    order, the tool calls of the message as completed function_call items
    followed by its text, when it is a non-empty string, as a message
    item; system messages, and contents that are not a string, leave no
    item. *)
Theorem history_output_items (messages : list ChatMessage) :
  convertMessagesToOutput messages = itemsFrom 0 messages
  /\ Forall historyItem (convertMessagesToOutput messages).
Proof.
  assert (Hitems : convertMessagesToOutput messages = itemsFrom 0 messages).
  { unfold convertMessagesToOutput. now rewrite convertMessagesFrom_items. }
  split; [exact Hitems|]. rewrite Hitems. apply itemsFrom_historyItem.
Qed.


End HandlerFacts.

(** ** The formatting of search results *)

Module SearchFacts.
Import Models Search.





End SearchFacts.

(** ** The truncation of logged data *)

Module TruncateFacts.

(** [truncateString]; [None] is the panic of the slice expression for a
    negative [maxLen]. *)
Definition truncateString (s : string) (maxLen : Z) : option string :=
  if Z.of_nat (String.length s) <=? maxLen then Some s
  else if maxLen <? 0 then None
  else Some (String.substring 0 (Z.to_nat maxLen) s +:+ "...").

Lemma substring_prefix (a b : string) :
  String.substring 0 (String.length a) (a +:+ b) = a.
Proof.
  induction a as [|c a IH]; cbn [String.length].
  - destruct b; reflexivity.
  - rewrite StringFacts.append_cons. cbn [String.substring]. now rewrite IH.
Qed.

(** For a limit that is not negative [truncateString] returns a text of at
    most three bytes more than the limit, which is the text itself when it
    is within the limit and else its first [maxLen] bytes and three dots;
    truncating the result again changes nothing. *)
Theorem truncateString_stable (s : string) (maxLen : Z) :
  0 <= maxLen ->
  exists t,
    truncateString s maxLen = Some t
    /\ Z.of_nat (String.length t) <= maxLen + 3
    /\ (Z.of_nat (String.length s) <= maxLen -> t = s)
    /\ (maxLen < Z.of_nat (String.length s) ->
        t = String.substring 0 (Z.to_nat maxLen) s +:+ "..."
        /\ Z.of_nat (String.length t) = maxLen + 3)
    /\ truncateString t maxLen = Some t.
Proof.
  intros Hlimit. unfold truncateString at 1.
  destruct (Z.leb_spec (Z.of_nat (String.length s)) maxLen) as [Hshort|Hlong].
  - exists s. split; [reflexivity|]. split; [lia|]. split; [reflexivity|].
    split; [lia|]. unfold truncateString.
    destruct (Z.leb_spec (Z.of_nat (String.length s)) maxLen); [reflexivity|lia].
  - destruct (Z.ltb_spec maxLen 0) as [|_]; [lia|].
    set (cut := String.substring 0 (Z.to_nat maxLen) s).
    assert (Hcut : String.length cut = Z.to_nat maxLen).
    { apply StringFacts.length_substring_0. lia. }
    assert (Hlen : Z.of_nat (String.length (cut +:+ "...")) = maxLen + 3).
    { rewrite StringFacts.length_append, Hcut. cbn [String.length]. lia. }
    exists (cut +:+ "..."). split; [reflexivity|]. split; [lia|].
    split; [lia|]. split; [split; [reflexivity|exact Hlen]|].
    unfold truncateString.
    destruct (Z.leb_spec (Z.of_nat (String.length (cut +:+ "..."))) maxLen);
      [lia|].
    destruct (Z.ltb_spec maxLen 0) as [|_]; [lia|].
    rewrite <- Hcut, substring_prefix. reflexivity.
Qed.

Lemma truncateString_stable_witness :
  exists t,
    truncateString "data: [DONE]" 4 = Some t
    /\ Z.of_nat (String.length t) <= 4 + 3
    /\ (Z.of_nat (String.length "data: [DONE]") <= 4 -> t = "data: [DONE]")
    /\ (4 < Z.of_nat (String.length "data: [DONE]") ->
        t = String.substring 0 (Z.to_nat 4) "data: [DONE]" +:+ "..."
        /\ Z.of_nat (String.length t) = 4 + 3)
    /\ truncateString t 4 = Some t.
Proof.
  apply (truncateString_stable "data: [DONE]" 4). lia.
Defined.

End TruncateFacts.

(** ** The conversation store *)

Module StorageFacts.
Import Models Storage.

Section Store.

Variable World : Type.
Variable marshal : list ChatMessage -> result string.
Variable unmarshal : string -> result (list ChatMessage).
Variable putError : string -> string -> option string.
Variable commit : World -> option string * World.

Local Abbreviation store := (Store World marshal putError commit).
Local Abbreviation get := (Get World unmarshal).
Local Abbreviation remove := (Delete World commit).

(** A history that [Store] has saved without an error is what [Get]
    reads back under its id, provided its JSON text decodes to itself,
    with one exception: an empty history is saved, but [Get] reports it as
    not found.  The histories under other ids are not touched, and after a
    [Delete] without an error the id is not found. *)
Theorem stored_history_is_read_back (responseID : string)
  (messages : list ChatMessage) (data : string) (st : State World) :
  marshal messages = Ok data ->
  unmarshal data = Ok messages ->
  fst (store responseID messages st) = None ->
  let saved := snd (store responseID messages st) in
  get responseID saved
  = match messages with
    | [] => None
    | _ => Some messages
    end
  /\ (forall other, other <> responseID -> get other saved = get other st)
  /\ (fst (remove responseID saved) = None ->
      get responseID (snd (remove responseID saved)) = None).
Proof.
  intros Hmarshal Hunmarshal. unfold Store. rewrite Hmarshal.
  destruct (putError responseID data) as [e|]; [discriminate|].
  destruct (commit (world st)) as [[e|] w]; [discriminate|].
  intros _. cbn [snd]. split; [|split].
  - unfold Get. cbn [bucket]. rewrite lookup_insert_eq, Hunmarshal.
    destruct messages; reflexivity.
  - intros other Hother. unfold Get. cbn [bucket].
    rewrite lookup_insert_ne by congruence. reflexivity.
  - unfold Delete. cbn [world bucket].
    destruct (commit w) as [[e|] w']; [discriminate|].
    intros _. unfold Get. cbn [snd bucket]. rewrite lookup_delete_eq.
    reflexivity.
Qed.

End Store.

(** The encoder and the decoder of an example: every history but the
    empty one is the greeting. *)
Definition greeting : list ChatMessage :=
  [ mkChatMessage "user" (ContentString "hello") EmptyString [] EmptyString ].

Definition demoMarshal (messages : list ChatMessage) : result string :=
  match messages with
  | [] => Ok "[]"
  | _ => Ok "[greeting]"
  end.

Definition demoUnmarshal (data : string) : result (list ChatMessage) :=
  if String.eqb data "[]" then Ok []
  else if String.eqb data "[greeting]" then Ok greeting
  else Err "unexpected end of JSON input".

Lemma stored_history_is_read_back_witness :
  let accept := fun _ _ : string => @None string in
  let commit := fun w : nat => (@None string, S w) in
  let saved := snd (Store nat demoMarshal accept commit "resp_1" greeting
                      (mkState ∅ 0%nat)) in
  let emptied := snd (Store nat demoMarshal accept commit "resp_2" []
                        (mkState ∅ 0%nat)) in
  Get nat demoUnmarshal "resp_1" saved = Some greeting
  /\ Get nat demoUnmarshal "resp_2" emptied = None.
Proof.
  cbv zeta. split.
  - apply (stored_history_is_read_back nat demoMarshal demoUnmarshal
             (fun _ _ => None) (fun w => (None, S w)) "resp_1" greeting
             "[greeting]" (mkState ∅ 0%nat)); reflexivity.
  - apply (stored_history_is_read_back nat demoMarshal demoUnmarshal
             (fun _ _ => None) (fun w => (None, S w)) "resp_2" []
             "[]" (mkState ∅ 0%nat)); reflexivity.
Defined.

End StorageFacts.
